(** * resource-proxy-node: a shallow embedding of the proxy's decision logic

    The development follows the layout of the repository:

    - [JS]               the handful of JavaScript primitives the sources rely on
                         (strings, percent coding, plain objects);
    - [ProjectUtilities] bin/ProjectUtilities.js (src/unnamed/part_000);
    - [UrlFlexParser]    bin/UrlFlexParser.js;
    - [Configuration]    the parts of bin/Configuration.js that precompute
                         referrer patterns and rate figures;
    - [RateMeter]        bin/RateMeter.js, the sqlite table as a list of rows;
    - [Proxy]            bin/proxy.js, version 0.1.5 (src/unnamed/part_002): the
                         dispatcher, the callback for a request that fails at
                         the service, and the response inspection.

    The modules are followed by the wording of the specification where a
    statement compares the code with it ([Spec]), the vocabulary of the
    statements ([Statements]), sample data ([Examples]) and the properties.
    Further functions of the same files ([MoreJS], [MoreProjectUtilities],
    [MoreConfiguration], [MoreRateMeter], [MoreProxy]) and the vocabulary of
    their properties ([Terms]) stand before the properties, whose last part is
    about them.

    Modelling conventions.

    - A JavaScript string is a Rocq [string]; its characters stand for code units
      below 256.  Comparison with [==] on two strings is equality.
    - A JavaScript number that holds a count is a [Z]; a number that holds a time
      stamp or a rate is a binary64 double, a primitive [float], and it is
      added, divided and compared as such ([JS.numberOf] turns an integer into
      the nearest double).
    - The bytes of a buffer are a [string] too; [JS.utf8Text] is what remains of
      them once they were decoded as UTF-8 and written again.
    - Code that can throw returns a [result]; an exception that nobody catches ends
      the request (the process-level handler of proxy.js exits the server).
    - Promises are modelled by the value they settle with, see [RateMeter.settled].
    - Calls that only write to the log are omitted. *)

From Stdlib Require Import PrimFloat.
From Stdlib Require SpecFloat FloatOps.
From Stdlib Require Import String Ascii List ZArith Bool Lia Permutation.
Import ListNotations.

Local Open Scope string_scope.
Local Open Scope Z_scope.

(* ===================================================================== *)
(** * JavaScript primitives *)
(* ===================================================================== *)

Module JS.

(** Exceptions the modelled code can raise.  [OutOfAlphabet] is not an exception
    of the language: it marks a decoded text that needs a code unit above 255 (or
    a longer UTF-8 sequence that the model does not validate), which the 8-bit
    alphabet of this development cannot hold. *)
Inductive exn : Type :=
| URIError
| TypeError (what : string)
| ReferenceError (what : string)
| OutOfAlphabet.

Inductive result (A : Type) : Type :=
| Ok (a : A)
| Throw (e : exn).

Arguments Ok {A} a.
Arguments Throw {A} e.

Definition bind {A B : Type} (r : result A) (k : A -> result B) : result B :=
  match r with
  | Ok a => k a
  | Throw e => Throw e
  end.

Notation "'do' x <- r ; k" := (bind r (fun x => k))
  (at level 10, x name, r at level 100, k at level 200).

(** ** Characters *)

Definition code (c : ascii) : Z := Z.of_nat (nat_of_ascii c).
Definition chr (n : Z) : ascii := ascii_of_nat (Z.to_nat n).

Definition dquote : ascii := chr 34.
Definition str1 (c : ascii) : string := String c EmptyString.

(** WhiteSpace and LineTerminator code units below 256, as used by [trim]. *)
Definition isWhiteSpace (c : ascii) : bool :=
  let n := code c in
  ((9 <=? n) && (n <=? 13)) || (n =? 32) || (n =? 160).

Definition lowerChar (c : ascii) : ascii :=
  let n := code c in
  if ((65 <=? n) && (n <=? 90))
     || ((192 <=? n) && (n <=? 222) && negb (n =? 215))
  then chr (n + 32) else c.

(** ** Strings *)

Definition len (s : string) : Z := Z.of_nat (String.length s).

Fixpoint toLowerCase (s : string) : string :=
  match s with
  | EmptyString => EmptyString
  | String c r => String (lowerChar c) (toLowerCase r)
  end.

Fixpoint trimStart (s : string) : string :=
  match s with
  | EmptyString => EmptyString
  | String c r => if isWhiteSpace c then trimStart r else s
  end.

Fixpoint trimEnd (s : string) : string :=
  match s with
  | EmptyString => EmptyString
  | String c r =>
      match trimEnd r with
      | EmptyString => if isWhiteSpace c then EmptyString else str1 c
      | r' => String c r'
      end
  end.

Definition trim (s : string) : string := trimEnd (trimStart s).

(** [startsWithHere p s]: [p] is a prefix of [s]. *)
Fixpoint startsWithHere (p s : string) : bool :=
  match p, s with
  | EmptyString, _ => true
  | String a p', String b s' => Ascii.eqb a b && startsWithHere p' s'
  | String _ _, EmptyString => false
  end.

(** Position of the first occurrence of [needle] in [s], counted in characters. *)
Fixpoint find (needle s : string) : option nat :=
  if startsWithHere needle s then Some O
  else match s with
       | EmptyString => None
       | String _ r => option_map S (find needle r)
       end.

(** [String.prototype.indexOf]: -1 when there is no occurrence. *)
Definition indexOf (s needle : string) : Z :=
  match find needle s with
  | Some n => Z.of_nat n
  | None => -1
  end.

Fixpoint drop (n : nat) (s : string) : string :=
  match n, s with
  | O, _ => s
  | S n', String _ r => drop n' r
  | S _, EmptyString => EmptyString
  end.

Fixpoint take (n : nat) (s : string) : string :=
  match n, s with
  | S n', String c r => String c (take n' r)
  | _, _ => EmptyString
  end.

(** [String.prototype.substr(start)] and [substr(start, length)]: a negative start
    counts from the end of the string. *)
Definition substrStart (s : string) (start : Z) : nat :=
  if start <? 0 then Z.to_nat (Z.max (len s + start) 0) else Z.to_nat start.

Definition substr (s : string) (start : Z) : string :=
  drop (substrStart s start) s.

Definition substr2 (s : string) (start length : Z) : string :=
  take (Z.to_nat length) (drop (substrStart s start) s).

(** [charAt]: the empty string out of range. *)
Definition charAt (s : string) (i : Z) : string :=
  if i <? 0 then EmptyString else take 1 (drop (Z.to_nat i) s).

(** [String.prototype.split] on a one-character separator; never the empty list. *)
Fixpoint split (sep : ascii) (s : string) : list string :=
  match s with
  | EmptyString => [EmptyString]
  | String c r =>
      if Ascii.eqb c sep then EmptyString :: split sep r
      else match split sep r with
           | h :: t => String c h :: t
           | [] => [str1 c]
           end
  end.

(** [String.prototype.replace(pattern, by)] with a string pattern: the first
    occurrence only. *)
Definition replaceFirst (s pattern by_ : string) : string :=
  match find pattern s with
  | Some n => take n s ++ by_ ++ drop (n + String.length pattern) s
  | None => s
  end.

(** [s.replace(/\+/g, ' ')]. *)
Fixpoint plusToSpace (s : string) : string :=
  match s with
  | EmptyString => EmptyString
  | String c r => String (if Ascii.eqb c "+" then " "%char else c) (plusToSpace r)
  end.

(** ** Percent coding *)

Definition hexValue (c : ascii) : option Z :=
  let n := code c in
  if (48 <=? n) && (n <=? 57) then Some (n - 48)
  else if (65 <=? n) && (n <=? 70) then Some (n - 55)
  else if (97 <=? n) && (n <=? 102) then Some (n - 87)
  else None.

Definition hexDigit (n : Z) : ascii :=
  if n <? 10 then chr (48 + n) else chr (55 + n).

Definition percent (b : Z) : string :=
  String "%" (String (hexDigit (b / 16)) (String (hexDigit (b mod 16)) EmptyString)).

(** The characters encodeURIComponent leaves alone: letters, digits and
    - _ . ! ~ * ' ( ). *)
Definition isUnreserved (c : ascii) : bool :=
  let n := code c in
  ((65 <=? n) && (n <=? 90)) || ((97 <=? n) && (n <=? 122)) || ((48 <=? n) && (n <=? 57))
  || (n =? 45) || (n =? 95) || (n =? 46) || (n =? 33) || (n =? 126)
  || (n =? 42) || (n =? 39) || (n =? 40) || (n =? 41).

(** The reserved set of decodeURI, whose escapes stay escaped:  ; / ? : @ & = + $ , # *)
Definition isUriReserved (c : ascii) : bool :=
  let n := code c in
  (n =? 59) || (n =? 47) || (n =? 63) || (n =? 58) || (n =? 64) || (n =? 38)
  || (n =? 61) || (n =? 43) || (n =? 36) || (n =? 44) || (n =? 35).

Fixpoint encodeURIComponent (s : string) : string :=
  match s with
  | EmptyString => EmptyString
  | String c r =>
      let n := code c in
      (if isUnreserved c then str1 c
       else if n <? 128 then percent n
       else percent (192 + n / 64) ++ percent (128 + n mod 64))
      ++ encodeURIComponent r
  end.

(** The Decode operation of the language specification, for the escapes whose
    result fits the alphabet.  [keep] is the set of characters whose escapes are
    left as they are. *)
Fixpoint decodeWith (keep : ascii -> bool) (fuel : nat) (s : string) : result string :=
  match fuel with
  | O => Ok EmptyString
  | S fuel' =>
      match s with
      | EmptyString => Ok EmptyString
      | String "%" (String h (String l r)) =>
          match hexValue h, hexValue l with
          | Some hv, Some lv =>
              let b := 16 * hv + lv in
              if b <? 128 then
                do rest <- decodeWith keep fuel' r;
                Ok ((if keep (chr b) then String "%" (String h (String l EmptyString))
                     else str1 (chr b)) ++ rest)
              else if (194 <=? b) && (b <=? 195) then
                match r with
                | String "%" (String h2 (String l2 r2)) =>
                    match hexValue h2, hexValue l2 with
                    | Some hv2, Some lv2 =>
                        let b2 := 16 * hv2 + lv2 in
                        if (128 <=? b2) && (b2 <=? 191) then
                          do rest <- decodeWith keep fuel' r2;
                          Ok (String (chr ((b - 192) * 64 + (b2 - 128))) rest)
                        else Throw URIError
                    | _, _ => Throw URIError
                    end
                | _ => Throw URIError
                end
              else if (196 <=? b) && (b <=? 247) then Throw OutOfAlphabet
              else Throw URIError
          | _, _ => Throw URIError
          end
      | String "%" _ => Throw URIError
      | String c r =>
          do rest <- decodeWith keep fuel' r;
          Ok (String c rest)
      end
  end.

Definition decodeURIComponent (s : string) : result string :=
  decodeWith (fun _ => false) (S (String.length s)) s.

Definition decodeURI (s : string) : result string :=
  decodeWith isUriReserved (S (String.length s)) s.

(** ** Plain objects with string values

    An object used as a dictionary is the list of its own properties in the order
    of their creation.  Enumeration ([for ... in]) visits array-index keys first,
    in increasing numeric order, then the other keys in creation order. *)

Definition object : Type := list (string * string).

Fixpoint get (o : object) (k : string) : option string :=
  match o with
  | [] => None
  | (k', v) :: o' => if String.eqb k' k then Some v else get o' k
  end.

Definition has (o : object) (k : string) : bool :=
  match get o k with Some _ => true | None => false end.

Fixpoint put (o : object) (k v : string) : object :=
  match o with
  | [] => [(k, v)]
  | (k', v') :: o' => if String.eqb k' k then (k', v) :: o' else (k', v') :: put o' k v
  end.

(** [o[k] = v].  Assigning a string to the key __proto__ of an ordinary object
    goes to the inherited setter, which ignores a value that is not an object. *)
Definition set (o : object) (k v : string) : object :=
  if String.eqb k "__proto__" then o else put o k v.

Fixpoint decimalValue (s : string) (acc : Z) : option Z :=
  match s with
  | EmptyString => Some acc
  | String c r =>
      let n := code c in
      if (48 <=? n) && (n <=? 57) then decimalValue r (10 * acc + (n - 48)) else None
  end.

(** A canonical array index: 0, or digits without a leading zero, below 2^32 - 1. *)
Definition arrayIndex (k : string) : option Z :=
  match k with
  | EmptyString => None
  | String c r =>
      if Ascii.eqb c "0" && negb (String.eqb r EmptyString) then None
      else match decimalValue k 0 with
           | Some n => if n <? 4294967295 then Some n else None
           | None => None
           end
  end.

Fixpoint insertIndexed (e : Z * (string * string)) (l : list (Z * (string * string)))
  : list (Z * (string * string)) :=
  match l with
  | [] => [e]
  | e' :: l' => if fst e <? fst e' then e :: l else e' :: insertIndexed e l'
  end.

Fixpoint indexedEntries (o : object) : list (Z * (string * string)) :=
  match o with
  | [] => []
  | (k, v) :: o' =>
      match arrayIndex k with
      | Some n => insertIndexed (n, (k, v)) (indexedEntries o')
      | None => indexedEntries o'
      end
  end.

Definition namedEntries (o : object) : object :=
  filter (fun kv => match arrayIndex (fst kv) with Some _ => false | None => true end) o.

(** The own enumerable properties in the order [for ... in] visits them. *)
Definition forIn (o : object) : object :=
  (map snd (indexedEntries o) ++ namedEntries o)%list.

(** The loops of the sources guard their body with [o.hasOwnProperty(key)].  When
    the object itself owns a property of that name the call hits a string, not
    the inherited method, and throws. *)
Definition hasOwnPropertyCallable (o : object) : result unit :=
  if has o "hasOwnProperty" then Throw (TypeError "hasOwnProperty is not a function")
  else Ok tt.

(** ** Numbers

    A number of the language is a binary64 double.  [numberOf n] is the double
    nearest to the integer [n], ties to even, and an infinity beyond the range:
    the value of an integer literal, of [parseInt] on the digits of [n], and of
    an integer that the database driver hands over. *)
Definition number : Type := float.
Bind Scope float_scope with number.

Definition numberOf (n : Z) : number :=
  FloatOps.SF2Prim (SpecFloat.binary_normalize FloatOps.prec FloatOps.emax n 0 false).

(** ** Buffers

    [Buffer.prototype.toString()] decodes the bytes as UTF-8, and a text that is
    written to a response is encoded as UTF-8.  [utf8Text bytes] is the text
    that [toString] returns, given by its UTF-8 bytes: a well-formed sequence
    stands as it is, and every ill-formed part (a byte that cannot start or
    continue a sequence, or a sequence that breaks off) becomes the replacement
    character U+FFFD, the bytes EF BF BD.

    [utf8From pending needed lower upper bytes] reads on inside a sequence of
    which [pending] was read, [needed] more bytes are due and the next byte
    has to lie between [lower] and [upper]. *)
Definition replacementCharacter : string :=
  String (chr 239) (String (chr 191) (String (chr 189) EmptyString)).

Fixpoint utf8From (pending : string) (needed : nat) (lower upper : Z) (bytes : string)
  : string :=
  match bytes with
  | EmptyString =>
      match needed with
      | O => EmptyString
      | S _ => replacementCharacter
      end
  | String c r =>
      let b := code c in
      (* the byte read with no sequence open *)
      let first :=
        if b <? 128 then String c (utf8From EmptyString 0 128 191 r)
        else if (194 <=? b) && (b <=? 223) then utf8From (str1 c) 1 128 191 r
        else if (224 <=? b) && (b <=? 239) then
          utf8From (str1 c) 2 (if b =? 224 then 160 else 128) (if b =? 237 then 159 else 191) r
        else if (240 <=? b) && (b <=? 244) then
          utf8From (str1 c) 3 (if b =? 240 then 144 else 128) (if b =? 244 then 143 else 191) r
        else replacementCharacter ++ utf8From EmptyString 0 128 191 r in
      match needed with
      | O => first
      | S O =>
          if (lower <=? b) && (b <=? upper)
          then pending ++ String c (utf8From EmptyString 0 128 191 r)
          else replacementCharacter ++ first
      | S needed' =>
          if (lower <=? b) && (b <=? upper)
          then utf8From (pending ++ str1 c) needed' 128 191 r
          else replacementCharacter ++ first
      end
  end.

Definition utf8Text (bytes : string) : string := utf8From EmptyString 0 128 191 bytes.

End JS.

(* ===================================================================== *)
(** * bin/ProjectUtilities.js *)
(* ===================================================================== *)

Module ProjectUtilities.
Import JS.

(** [startsWith(subject, needle)]: case-insensitive prefix test. *)
Definition startsWith (subject needle : string) : bool :=
  indexOf (toLowerCase subject) (toLowerCase needle) =? 0.

(** [isPropertySet(object, key)], on the value found under the key:
    [None] is [undefined]. *)
Definition isPropertySet (value : option string) : bool :=
  match value with
  | Some v => 0 <? len (trim v)
  | None => false
  end.

(** [addIfPropertyNotSet(object, key, value)]. *)
Definition addIfPropertyNotSet (o : object) (key value : string) : object :=
  match get o key with
  | None => set o key value
  | Some v => if len (trim v) =? 0 then set o key value else o
  end.

(** ** queryStringToObject

    The loop runs a global regular expression over the string: one or more
    characters other than ampersand and equals sign (group 1), an optional equals
    sign, any number of characters other than ampersand (group 2).  [matches]
    lists the two groups of each successive match: a match starts at the first
    character that is neither ampersand nor equals sign, its first group runs as
    far as such characters go, one equals sign is skipped if it follows, and the
    second group runs up to the next ampersand. *)

Inductive scan : Type :=
| Seek
| InKey (k : string)
| InValue (k v : string).

Definition isAmp (c : ascii) : bool := Ascii.eqb c "&".
Definition isEq (c : ascii) : bool := Ascii.eqb c "=".

Fixpoint matches (s : string) (st : scan) : list (string * string) :=
  match s with
  | EmptyString =>
      match st with
      | Seek => []
      | InKey k => [(k, EmptyString)]
      | InValue k v => [(k, v)]
      end
  | String c r =>
      match st with
      | Seek =>
          if isAmp c || isEq c then matches r Seek else matches r (InKey (str1 c))
      | InKey k =>
          if isEq c then matches r (InValue k EmptyString)
          else if isAmp c then (k, EmptyString) :: matches r Seek
          else matches r (InKey (k ++ str1 c))
      | InValue k v =>
          if isAmp c then (k, v) :: matches r Seek
          else matches r (InValue k (v ++ str1 c))
      end
  end.

(** The local function [decode] of queryStringToObject. *)
Definition decode (s : string) : result string :=
  decodeURIComponent (plusToSpace s).

(** The body of the while loop: [result[decode(match[1])] = decode(match[2])]. *)
Fixpoint assignMatches (ms : list (string * string)) (result : object) : JS.result object :=
  match ms with
  | [] => Ok result
  | (k, v) :: ms' =>
      do k' <- decode k;
      do v' <- decode v;
      assignMatches ms' (set result k' v')
  end.

Definition queryStringToObject (urlParameterString : string) : JS.result object :=
  let urlParameterString :=
    if String.eqb (charAt urlParameterString 0) "?" then substr urlParameterString 1
    else urlParameterString in
  assignMatches (matches urlParameterString Seek) [].

(** ** objectToQueryString, for an object whose values are strings. *)

Definition appendPair (urlParameterString : string) (kv : string * string) : string :=
  let value := encodeURIComponent (snd kv) in
  let key := encodeURIComponent (fst kv) in
  urlParameterString
  ++ (if len urlParameterString =? 0 then EmptyString else "&") ++ key ++ "=" ++ value.

Definition objectToQueryString (o : object) : JS.result string :=
  match forIn o with
  | [] => Ok EmptyString
  | entries =>
      do _ <- hasOwnPropertyCallable o;
      Ok (fold_left appendPair entries EmptyString)
  end.

(** ** findTokenInString

    [source.search('(\\?|&|\\/|)' + token + '=')]: the pattern is built from the
    token by concatenation; the model reads the token literally, which is what
    the pattern does for a token without regular-expression operators (every
    caller passes the word token).  The fourth alternative of the group is
    empty, so a match starts at the leftmost position where the token and an
    equals sign stand, or one position earlier when a question mark, an
    ampersand or a slash precedes them. *)

Definition isTokenLead (c : ascii) : bool :=
  Ascii.eqb c "?" || Ascii.eqb c "&" || Ascii.eqb c "/".

Definition queryFormHere (tokenEq s : string) : bool :=
  match s with
  | String c r => (isTokenLead c && startsWithHere tokenEq r) || startsWithHere tokenEq s
  | EmptyString => startsWithHere tokenEq s
  end.

Fixpoint searchQueryForm (tokenEq s : string) : option nat :=
  if queryFormHere tokenEq s then Some O
  else match s with
       | EmptyString => None
       | String _ r => option_map S (searchQueryForm tokenEq r)
       end.

(** [value.match(...)] with the pattern for the next quoted string: the text
    between the first double quote and the next one; no match when fewer than two
    double quotes remain. *)
Definition matchQuoted (value : string) : option string :=
  match find (str1 dquote) value with
  | None => None
  | Some i =>
      let r := drop (S i) value in
      match find (str1 dquote) r with
      | None => None
      | Some j => Some (take j r)
      end
  end.

Definition findTokenInString (source token : string) : string :=
  if (0 <? len (trim source)) && (0 <? len (trim token)) then
    match searchQueryForm (token ++ "=") source with
    | Some found =>
        (* query string style: cut from = to the next & or the end *)
        let value := substr source (Z.of_nat found) in
        let found := indexOf value "=" in
        if 0 <=? found then
          let value := substr value (found + 1) in
          let found := indexOf value "&" in
          if 0 <? found then substr2 value 0 found else value
        else value
    | None =>
        (* json style: the next quoted string after the key *)
        let searchToken := str1 dquote ++ token ++ str1 dquote ++ ":" in
        let found := indexOf source searchToken in
        if 0 <=? found then
          match matchQuoted (substr source (found + len searchToken)) with
          | Some v => v
          | None => EmptyString
          end
        else EmptyString
    end
  else EmptyString.

End ProjectUtilities.

(* ===================================================================== *)
(** * bin/UrlFlexParser.js *)
(* ===================================================================== *)

Module UrlFlexParser.
Import JS.

(** What [url.parse] of the Node library returns, restricted to the properties
    the sources read; [None] is [null]. *)
Record UrlObject : Type := {
  u_protocol : option string;
  u_hostname : option string;
  u_port : option string;
  u_pathname : option string;
  u_query : option string
}.

(** The object [parseAndFixURLParts] hands out. *)
Record UrlParts : Type := {
  protocol : string;
  hostname : string;
  port : string;
  pathname : string;
  path : string;
  host : string;
  query : option string
}.

(** The result of [parseURLRequest]. *)
Record RequestParts : Type := {
  listenPath : string;
  proxyPath : string;
  rquery : string;
  rprotocol : string
}.

(** The module variables [setConfiguration] fills. *)
Record Settings : Type := {
  useHTTPS : bool;
  matchAllReferrer : bool;
  allowAnyReferrer : bool
}.

(** [setConfiguration(configuration)]: a property the configuration does not
    define ([None]) takes the default of the else branch. *)
Definition setConfiguration (cUseHTTPS cMatchAllReferrer cAllowAnyReferrer : option bool)
  : Settings :=
  {| useHTTPS := match cUseHTTPS with Some b => b | None => false end;
     matchAllReferrer := match cMatchAllReferrer with Some b => b | None => true end;
     allowAnyReferrer := match cAllowAnyReferrer with Some b => b | None => false end |}.

(** An allow-list entry as Configuration.js caches it. *)
Record Referrer : Type := {
  r_protocol : string;
  r_hostname : string;
  r_path : string;
  r_referrer : string
}.

Definition isNullOrEmpty (v : option string) : bool :=
  match v with
  | None => true
  | Some s => String.eqb s EmptyString
  end.

Definition orEmpty (v : option string) : string :=
  match v with Some s => s | None => EmptyString end.

(** [while (s.charAt(0) == '/') s = s.substr(1)]. *)
Fixpoint stripLeadingSlashes (s : string) : string :=
  match s with
  | String c r => if Ascii.eqb c "/" then stripLeadingSlashes r else s
  | EmptyString => EmptyString
  end.

(** [while (s.charAt(s.length - 1) == '/') s = s.substr(0, s.length - 1)]. *)
Fixpoint stripTrailingSlashes (s : string) : string :=
  match s with
  | EmptyString => EmptyString
  | String c r =>
      match stripTrailingSlashes r with
      | EmptyString => if Ascii.eqb c "/" then EmptyString else str1 c
      | r' => String c r'
      end
  end.

Section Parser.

(** [urlParser.parse], the parser of the Node library. *)
Variable urlParse : string -> UrlObject.

Definition parseAndFixURLParts (url : string) : UrlParts :=
  let urlParts := urlParse url in
  let protocol :=
    if isNullOrEmpty (u_protocol urlParts) then "*"
    else
      let p := orEmpty (u_protocol urlParts) in
      let delimiter := indexOf p ":" in
      if 0 <? delimiter then substr2 p 0 delimiter else p in
  let '(hostname, pathname) :=
    if isNullOrEmpty (u_hostname urlParts) then
      let pathname :=
        if isNullOrEmpty (u_pathname urlParts) then "*" else orEmpty (u_pathname urlParts) in
      let hostname := pathname in
      let pathname := "*" in
      let delimiter := indexOf hostname "//" in
      let hostname := if 0 <=? delimiter then substr hostname (delimiter + 2) else hostname in
      let hostname := stripLeadingSlashes hostname in
      let delimiter := indexOf hostname "/" in
      if 0 <? delimiter
      then (substr2 hostname 0 delimiter, Some (substr hostname delimiter))
      else (hostname, Some pathname)
    else (orEmpty (u_hostname urlParts), u_pathname urlParts) in
  let port := if isNullOrEmpty (u_port urlParts) then "*" else orEmpty (u_port urlParts) in
  let pathname :=
    match pathname with
    | None => "*"
    | Some p =>
        if String.eqb p EmptyString || String.eqb p "/*" || String.eqb p "/" then "*" else p
    end in
  {| protocol := protocol; hostname := hostname; port := port;
     pathname := pathname; path := pathname; host := hostname;
     query := u_query urlParts |}.

(** ** parseURLRequest *)

(** One probe of the brute-force search: when [lookFor] occurs in [url], the
    proxied part starts at its last character and the listen part ends before it. *)
Definition cutAt (url lookFor : string) : option (string * string) :=
  let charDelimiter := indexOf url lookFor in
  if 0 <=? charDelimiter
  then Some (substr url (charDelimiter + len lookFor - 1), substr2 url 0 charDelimiter)
  else None.

Fixpoint firstCut (url : string) (probes : list string) : option (string * string) :=
  match probes with
  | [] => None
  | lookFor :: rest =>
      match cutAt url lookFor with
      | Some r => Some r
      | None => firstCut url rest
      end
  end.

(** The loop over the listen prefixes: the prefix followed by a slash must stand
    at the start of the URL.  ([lookFor.charAt(lookFor.length)] is past the end,
    hence never a slash, and the slash is always added.) *)
Fixpoint matchListenUri (url : string) (listenUriList : list string)
  : option (string * string) :=
  match listenUriList with
  | [] => None
  | uri :: rest =>
      let lookFor := if String.eqb (charAt uri (len uri)) "/" then uri else uri ++ "/" in
      if indexOf url lookFor =? 0
      then Some (substr url (0 + len lookFor), uri)
      else matchListenUri url rest
  end.

Definition splitQuery (protocol url proxyPath : string) : RequestParts :=
  let charDelimiter := indexOf proxyPath "?" in
  if 0 <=? charDelimiter
  then {| listenPath := url; proxyPath := substr2 proxyPath 0 charDelimiter;
          rquery := substr proxyPath (charDelimiter + 1); rprotocol := protocol |}
  else {| listenPath := url; proxyPath := proxyPath;
          rquery := EmptyString; rprotocol := protocol |}.

Definition parseURLRequest (url : string) (listenUriList : list string)
  : result RequestParts :=
  do url <- decodeURI url;
  if 0 <? len url then
    match firstCut url ["/https/"; "?https://"; "&https://"] with
    | Some (proxyPath, url') => Ok (splitQuery "https" url' proxyPath)
    | None =>
        match firstCut url ["/http/"; "?http://"; "&http://"] with
        | Some (proxyPath, url') => Ok (splitQuery "http" url' proxyPath)
        | None =>
            match cutAt url "/*/" with
            | Some (proxyPath, url') => Ok (splitQuery "*" url' proxyPath)
            | None =>
                match matchListenUri url listenUriList with
                | Some (proxyPath, url') => Ok (splitQuery "*" url' proxyPath)
                | None => Ok (splitQuery "*" url EmptyString)
                end
            end
        end
    end
  else
    Ok {| listenPath := EmptyString; proxyPath := EmptyString;
          rquery := EmptyString; rprotocol := "*" |}.

(** [combinePath(firstPart, secondPart)]. *)
Definition combinePath (firstPart secondPart : string) : string :=
  stripTrailingSlashes firstPart ++ "/" ++ stripLeadingSlashes secondPart.

(** ** Matching *)

(** The for loop of [testDomainsMatch] over two arrays of equal length. *)
Fixpoint segmentsMatch (domainParts referrerParts : list string) : bool :=
  match domainParts, referrerParts with
  | d :: ds, r :: rs =>
      if negb (String.eqb d "*") && negb (String.eqb d r) then false
      else segmentsMatch ds rs
  | _, _ => true
  end.

Definition testDomainsMatch (wildCardDomain referrer : string) : bool :=
  let domainParts := split "." wildCardDomain in
  let referrerParts := split "." referrer in
  if Nat.eqb (List.length domainParts) (List.length referrerParts)
  then segmentsMatch domainParts referrerParts
  else false.

Definition testProtocolsMatch (sourceProtocol targetProtocol : string) : bool :=
  String.eqb sourceProtocol "*" || String.eqb sourceProtocol targetProtocol.

(** The properties [parsedUrlPartsMatch] reads from either argument.  The parts
    of a request carry no [matchAll] property, which reads as false. *)
Record MatchParts : Type := {
  m_hostname : string;
  m_protocol : string;
  m_path : string;
  m_matchAll : bool
}.

Definition matchPartsOfUrlParts (p : UrlParts) : MatchParts :=
  {| m_hostname := hostname p; m_protocol := protocol p; m_path := path p;
     m_matchAll := false |}.

Definition parsedUrlPartsMatch (urlPartsSource urlPartsTarget : MatchParts) : bool :=
  if testDomainsMatch (m_hostname urlPartsSource) (m_hostname urlPartsTarget) then
    if String.eqb (m_protocol urlPartsSource) "*"
       || String.eqb (m_protocol urlPartsTarget) "*"
       || String.eqb (m_protocol urlPartsSource) (m_protocol urlPartsTarget)
    then
      if m_matchAll urlPartsSource
      then String.eqb (m_path urlPartsTarget) "*"
           || String.eqb (m_path urlPartsTarget) (m_path urlPartsSource)
      else String.eqb (m_path urlPartsTarget) "*"
           || ProjectUtilities.startsWith (m_path urlPartsTarget) (m_path urlPartsSource)
    else false
  else false.

(** ** validatedReferrerFromReferrer *)

Section Referrers.

Variable settings : Settings.

Fixpoint matchAllowedReferrers (referrerParts : UrlParts) (allowedReferrers : list Referrer)
  : option string :=
  match allowedReferrers with
  | [] => None
  | referrerToCheckParts :: rest =>
      if testProtocolsMatch (r_protocol referrerToCheckParts) (protocol referrerParts) then
        if String.eqb (r_hostname referrerToCheckParts) "*"
           || testDomainsMatch (r_hostname referrerToCheckParts) (hostname referrerParts)
        then
          if String.eqb (r_path referrerToCheckParts) "*"
             || String.eqb (r_path referrerToCheckParts) (path referrerParts)
          then Some (r_referrer referrerToCheckParts)
          else if negb (matchAllReferrer settings)
                  && ProjectUtilities.startsWith (path referrerParts)
                                                 (r_path referrerToCheckParts)
          then Some (r_referrer referrerToCheckParts)
          else matchAllowedReferrers referrerParts rest
        else matchAllowedReferrers referrerParts rest
      else matchAllowedReferrers referrerParts rest
  end.

(** [referrer] is [None] for [undefined] or [null]; the result is [None] for
    [null].  The host name that [parseAndFixURLParts] returns is always a string,
    so the test of the source for a missing host name has no case here. *)
Definition validatedReferrerFromReferrer (referrer : option string)
           (allowedReferrers : list Referrer) : option string :=
  if allowAnyReferrer settings then Some "*"
  else
    match referrer with
    | Some r =>
        if 0 <? len r then
          matchAllowedReferrers (parseAndFixURLParts (trim (toLowerCase r))) allowedReferrers
        else None
    | None => None
    end.

(** ** Building the URL of the proxied request *)

Definition getBestMatchProtocol (referrer : string) (requestProtocol serverProtocol : string)
  : string :=
  let referrerParts := parseAndFixURLParts referrer in
  let protocol :=
    if String.eqb serverProtocol "*" then
      if String.eqb requestProtocol "*" then
        if negb (String.eqb (protocol referrerParts) "*")
        then Some (protocol referrerParts) else None
      else Some requestProtocol
    else Some serverProtocol in
  match protocol with
  | Some p => if String.eqb p "*" then (if useHTTPS settings then "https" else "http") else p
  | None => if useHTTPS settings then "https" else "http"
  end.

(** [buildURLFromReferrerRequestAndInfo]: the URL of the resource, a protocol,
    then the query of the resource or else the query of the request. *)
Definition buildURLFromReferrerRequestAndInfo (referrer : string)
           (urlRequestedParts : RequestParts)
           (serverUrl serverProtocol : string) (serverQuery : option string) : string :=
  let best := getBestMatchProtocol referrer (rprotocol urlRequestedParts) serverProtocol in
  let delimiter := indexOf serverUrl "://" in
  let proxyRequest :=
    if delimiter <? 0 then best ++ "://" ++ serverUrl
    else if delimiter =? 0 then best ++ serverUrl
    else if delimiter =? 1 then
      if String.eqb (charAt serverUrl 0) "*" then best ++ substr serverUrl 1 else serverUrl
    else serverUrl in
  if negb (isNullOrEmpty serverQuery) then proxyRequest ++ "?" ++ orEmpty serverQuery
  else if negb (String.eqb (rquery urlRequestedParts) EmptyString)
  then proxyRequest ++ "?" ++ rquery urlRequestedParts
  else proxyRequest.

(** [buildFullURLFromParts]; a port is a string of digits or the star, and
    [port != 80] compares its numeric value. *)
Definition buildFullURLFromParts (urlParts : UrlParts) : string :=
  let url := if String.eqb (protocol urlParts) "*"
             then (if useHTTPS settings then "https" else "http")
             else protocol urlParts in
  let url := url ++ "://" ++ hostname urlParts in
  let url :=
    if negb (String.eqb (port urlParts) "*")
       && negb (match decimalValue (port urlParts) 0 with
                | Some n => n =? 80
                | None => false
                end)
    then url ++ ":" ++ port urlParts else url in
  let url :=
    if String.eqb (pathname urlParts) "*" || (len (trim (pathname urlParts)) =? 0)
    then url ++ "/" else url ++ pathname urlParts in
  match query urlParts with
  | Some q =>
      if 0 <? len q then
        if String.eqb (charAt q 0) "?" then url ++ q else url ++ "?" ++ q
      else url
  | None => url
  end.

End Referrers.

(** [fullReferrerURLFromParts], on an allow-list entry under construction. *)
Definition fullReferrerURLFromParts (rProtocol rHostname rPath : string) : string :=
  if String.eqb rProtocol "*" && String.eqb rHostname "*" && String.eqb rPath "*" then "*"
  else rProtocol ++ "://" ++ rHostname
       ++ (if String.eqb (charAt rPath 0) "/" then rPath else "/" ++ rPath).

End Parser.

(** ** combineParameters *)

(** The loop that copies every parameter of the request over the configured ones. *)
Definition overlay (configuredParameters requestParameters : object) : result object :=
  match forIn requestParameters with
  | [] => Ok configuredParameters
  | entries =>
      do _ <- hasOwnPropertyCallable requestParameters;
      Ok (fold_left (fun acc kv => set acc (fst kv) (snd kv)) entries configuredParameters)
  end.

(** [combineParameters(request, urlParts, serverURLInfo)]: [method] and
    [requestQuery] are [request.method] and [request.query], [urlQuery] is
    [urlParts.query], [serverQuery] is [serverURLInfo.query]. *)
Definition combineParameters (method : string) (requestQuery : option string)
           (urlQuery : string) (serverQuery : option string) : result object :=
  do configuredParameters <-
     (if negb (isNullOrEmpty serverQuery)
      then ProjectUtilities.queryStringToObject (orEmpty serverQuery)
      else Ok []);
  let requestParameters :=
    if String.eqb method "GET" then
      if 0 <? len urlQuery then Some urlQuery else None
    else if String.eqb method "POST" then requestQuery
    else None in
  match requestParameters with
  | Some q =>
      do requestParameters <- ProjectUtilities.queryStringToObject q;
      overlay configuredParameters requestParameters
  | None => Ok configuredParameters
  end.

End UrlFlexParser.

(* ===================================================================== *)
(** * bin/Configuration.js *)
(* ===================================================================== *)

Module Configuration.
Import JS UrlFlexParser.

(** An entry of [configuration.serverUrls] after [postParseConfigurationFile]:
    the properties the request path reads. *)
Record ServerUrl : Type := {
  url : string;
  s_protocol : string;
  s_hostname : string;
  s_path : string;
  s_port : string;
  s_query : option string;
  matchAll : bool;
  rateLimit : Z;
  rateLimitPeriod : Z;
  useRateMeter : bool;
  rate : number;
  ratePeriodSeconds : number;
  accessToken : option string;
  token : option string;
  isHostRedirect : bool;
  parsedHostRedirect : option UrlParts;
  mayRequireToken : bool
}.

Definition matchPartsOfServerUrl (s : ServerUrl) : MatchParts :=
  {| m_hostname := s_hostname s; m_protocol := s_protocol s; m_path := s_path s;
     m_matchAll := matchAll s |}.

(** ** Rate figures

    [rateLimit] and [rateLimitPeriod] as read from the file ([None] when the
    property is missing), after [parseInt]; a negative value counts as 0.  The
    two fields hold the integers, and the rate figures are computed from the
    doubles of these integers. *)
Definition clampRate (v : option Z) : Z :=
  match v with
  | Some n => if n <? 0 then 0 else n
  | None => 0
  end.

Definition withRateLimit (serverUrl : ServerUrl) (cfgRateLimit cfgRateLimitPeriod : option Z)
  : ServerUrl :=
  let rateLimit := clampRate cfgRateLimit in
  let rateLimitPeriod := clampRate cfgRateLimitPeriod in
  let metered := (0 <? rateLimit) && (0 <? rateLimitPeriod) in
  (* how many we give out per second *)
  let rate := if metered then (numberOf rateLimit / numberOf rateLimitPeriod / 60)%float
              else 0%float in
  (* how many seconds in 1 rate period *)
  let ratePeriodSeconds := if metered then (1 / rate)%float else 0%float in
  {| url := url serverUrl;
     s_protocol := s_protocol serverUrl;
     s_hostname := s_hostname serverUrl;
     s_path := s_path serverUrl;
     s_port := s_port serverUrl;
     s_query := s_query serverUrl;
     matchAll := matchAll serverUrl;
     rateLimit := rateLimit;
     rateLimitPeriod := rateLimitPeriod;
     useRateMeter := metered;
     rate := rate;
     ratePeriodSeconds := ratePeriodSeconds;
     accessToken := accessToken serverUrl;
     token := token serverUrl;
     isHostRedirect := isHostRedirect serverUrl;
     parsedHostRedirect := parsedHostRedirect serverUrl;
     mayRequireToken := mayRequireToken serverUrl |}.

(** ** The cache of allowed referrers *)

(** The [allowedReferrers] property of the file: an array of strings, or one
    string that may list several entries separated by commas. *)
Inductive ReferrerSection : Type :=
| ReferrerArray (entries : list string)
| ReferrerString (entries : string).

Definition referrerEntries (section : ReferrerSection) : list string :=
  match section with
  | ReferrerArray entries => entries
  | ReferrerString entries =>
      if 0 <=? indexOf entries "," then split "," entries else [entries]
  end.

Section Cache.

Variable urlParse : string -> UrlObject.

Definition anyReferrer : Referrer :=
  {| r_protocol := "*"; r_hostname := "*"; r_path := "*"; r_referrer := "*" |}.

(** One turn of the loop: the entry to push, and whether the turn sets
    [configuration.allowAnyReferrer]. *)
Definition cacheReferrer (entry : string) : Referrer * bool :=
  if String.eqb entry "*" then (anyReferrer, true)
  else
    let referrerToCheckParts := parseAndFixURLParts urlParse (trim (toLowerCase entry)) in
    let protocol := protocol referrerToCheckParts in
    let hostname := hostname referrerToCheckParts in
    let path := path referrerToCheckParts in
    ({| r_protocol := protocol; r_hostname := hostname; r_path := path;
        r_referrer := fullReferrerURLFromParts protocol hostname path |}, false).

(** The loop: the cached list and the final value of
    [configuration.allowAnyReferrer], which starts as [allowAny]. *)
Fixpoint cacheReferrers (entries : list string) (allowAny : bool) : list Referrer * bool :=
  match entries with
  | [] => ([], allowAny)
  | entry :: rest =>
      let '(r, sets) := cacheReferrer entry in
      let '(rs, allowAny') := cacheReferrers rest (allowAny || sets) in
      (r :: rs, allowAny')
  end.

(** The allow-list part of [postParseConfigurationFile], from the initial
    configuration, where [allowAnyReferrer] is false. *)
Definition postParseAllowedReferrers (section : ReferrerSection) : list Referrer * bool :=
  cacheReferrers (referrerEntries section) false.

End Cache.

End Configuration.

(* ===================================================================== *)
(** * bin/RateMeter.js *)
(* ===================================================================== *)

Module RateMeter.
Import JS Configuration.

(** A row of the table [ips]. *)
Record Row : Type := {
  id : Z;
  r_url : string;
  referrer : string;
  count : Z;
  r_rate : number;
  time : number;
  total : Z;
  rejected : Z
}.

Definition Table : Type := list Row.

(** What the promise of a query settles with.  [Uncaught] stands for a callback
    of the database driver that threw: the promise stays pending and the
    exception reaches the process. *)
Inductive value : Type :=
| Boolean (b : bool)
| ErrorObject (message : string).

Inductive settled : Type :=
| Resolved (v : value)
| Rejected (error : string)
| Uncaught (e : exn).

(** [SELECT ... FROM ips WHERE referrer=? and url=?] through [get]: the first row. *)
Definition selectRow (t : Table) (referrer_ url_ : string) : option Row :=
  List.find (fun r => String.eqb (referrer r) referrer_ && String.eqb (r_url r) url_) t.

(** The row after [SET total=total+1, count=?, time=?]. *)
Definition admitted (r : Row) (newCount : Z) (refreshTime : number) : Row :=
  {| id := id r; r_url := r_url r; referrer := referrer r;
     count := newCount; r_rate := r_rate r; time := refreshTime;
     total := total r + 1; rejected := rejected r |}.

(** The row after [SET rejected=rejected+1]. *)
Definition refused (r : Row) : Row :=
  {| id := id r; r_url := r_url r; referrer := referrer r;
     count := count r; r_rate := r_rate r; time := time r;
     total := total r; rejected := rejected r + 1 |}.

(** [UPDATE ips SET total=total+1, count=?, time=? WHERE id=?]. *)
Definition updateAdmitted (t : Table) (newCount : Z) (refreshTime : number) (id_ : Z)
  : Table :=
  map (fun r => if id r =? id_ then admitted r newCount refreshTime else r) t.

(** [UPDATE ips SET rejected=rejected+1 WHERE id=?]. *)
Definition updateRejected (t : Table) (id_ : Z) : Table :=
  map (fun r => if id r =? id_ then refused r else r) t.

(** [isUnderMeterCap(referrer, serverURL)] at time [timeOfRequest].
    [dbConnection] is [None] before [start()]; [selectError] is the error the
    driver reports for the SELECT, if any.  The time of the row and the rate
    figures are doubles; the count of the row is compared with the rate as the
    double of that integer.  Without a row the code builds its
    error message from a variable named url, which no enclosing scope of the
    file declares (the parameters are referrer and serverURL): evaluating it
    throws a ReferenceError before the promise is resolved. *)
Definition isUnderMeterCap (dbConnection : option Table) (selectError : option string)
           (timeOfRequest : number) (referrer_ : string) (serverURL : ServerUrl)
  : option Table * settled :=
  match dbConnection with
  | None => (None, Rejected "Database connection was not open. Call start() first.")
  | Some t =>
      match selectError with
      | Some error => (Some t, Rejected error)
      | None =>
          match selectRow t referrer_ (url serverURL) with
          | Some queryResult =>
              if (count queryResult =? 0)
                 || (time queryResult + ratePeriodSeconds serverURL <=? timeOfRequest)%float
              then
                (* either the first time in, or the prior time window has expired *)
                (Some (updateAdmitted t 1 timeOfRequest (id queryResult)),
                 Resolved (Boolean true))
              else if (numberOf (count queryResult) <? rate serverURL)%float
              then
                (* in the current time window we have not yet given out the maximum *)
                (Some (updateAdmitted t (count queryResult + 1) (time queryResult)
                                      (id queryResult)),
                 Resolved (Boolean true))
              else
                (Some (updateRejected t (id queryResult)), Resolved (Boolean false))
          | None => (Some t, Uncaught (ReferenceError "url is not defined"))
          end
      end
  end.

(** ** Creation of the table

    [createDatabaseIfNotExists]: after DELETE, one INSERT OR IGNORE per metered
    resource and allowed referrer; the unique index on (url, referrer) drops a
    second row for the same pair, and the key [id] counts up from 1. *)
Definition insertOrIgnore (t : Table) (url_ referrer_ : string) (rate_ : number)
           (timeOfAccess : number) : Table :=
  match selectRow t referrer_ url_ with
  | Some _ => t
  | None =>
      (t ++ [{| id := fold_left Z.max (map id t) 0 + 1; r_url := url_; referrer := referrer_;
                count := 0; r_rate := rate_; time := timeOfAccess;
                total := 0; rejected := 0 |}])%list
  end.

Definition createDatabaseIfNotExists (serverURLConfig : list ServerUrl)
           (serverAllowedReferrers : list UrlFlexParser.Referrer) (timeOfAccess : number)
  : Table :=
  fold_left
    (fun t serverURL =>
       if useRateMeter serverURL then
         fold_left
           (fun t r => insertOrIgnore t (url serverURL) (UrlFlexParser.r_referrer r)
                                      (rate serverURL) timeOfAccess)
           serverAllowedReferrers t
       else t)
    serverURLConfig [].

End RateMeter.

(* ===================================================================== *)
(** * bin/proxy.js *)
(* ===================================================================== *)

Module Proxy.
Import JS UrlFlexParser Configuration RateMeter.

Definition proxyVersion : string := "0.1.5".

(** The configuration as the request path reads it. *)
Record Config : Type := {
  mustMatch : bool;
  listenURI : list string;
  localPingURL : string;
  localStatusURL : string;
  localEchoURL : option string;
  allowedReferrers : list Referrer;
  serverUrls : list ServerUrl;
  staticFilePath : option string
}.

(** An inbound request: the request line, [headers['referer']], and
    [request.query], which plain Node requests do not define. *)
Record Request : Type := {
  r_url : string;
  method : string;
  referer : option string;
  r_query : option string
}.

(** The module variables of proxy.js that a request reads or changes.
    [rateMeter] is [None] for [null], and otherwise holds the connection of the
    meter ([None] when the database is closed). *)
Record Server : Type := {
  rateMeter : option (option Table);
  proxyServer : bool;
  attemptedRequests : Z;
  validProcessedRequests : Z;
  errorProcessedRequests : Z
}.

(** Bodies written by [sendJSONResponse]. A message is named by its key in the
    string table of the configuration. *)
Inductive document : Type :=
| Fields (fields : list (string * string))
| ErrorEnvelope (code : Z) (details message request : string).

(** What a request ends with.  [ProxyWeb] is the call of [proxyServer.web] with
    the target, after the host header of the request was set: the proxy sends
    the request to the service, and calls [proxyResponseError], which it is
    handed with the call, if that fails.  [parameters] is the object of
    parameters that [processValidatedRequest] has combined by then. *)
Inductive reply : Type :=
| JSONResponse (statusCode : Z) (body : document)
| ProxyWeb (target hostHeader : string) (parameters : object)
| EchoResponse
| StatusResponse
| StaticFile
| NoResponse
| Fatal (e : exn).

Definition countAttempt (st : Server) : Server :=
  {| rateMeter := rateMeter st; proxyServer := proxyServer st;
     attemptedRequests := attemptedRequests st + 1;
     validProcessedRequests := validProcessedRequests st;
     errorProcessedRequests := errorProcessedRequests st |}.

Definition countValid (st : Server) : Server :=
  {| rateMeter := rateMeter st; proxyServer := proxyServer st;
     attemptedRequests := attemptedRequests st;
     validProcessedRequests := validProcessedRequests st + 1;
     errorProcessedRequests := errorProcessedRequests st |}.

Definition countError (st : Server) : Server :=
  {| rateMeter := rateMeter st; proxyServer := proxyServer st;
     attemptedRequests := attemptedRequests st;
     validProcessedRequests := validProcessedRequests st;
     errorProcessedRequests := errorProcessedRequests st + 1 |}.

Definition withMeter (st : Server) (db : option Table) : Server :=
  {| rateMeter := Some db; proxyServer := proxyServer st;
     attemptedRequests := attemptedRequests st;
     validProcessedRequests := validProcessedRequests st;
     errorProcessedRequests := errorProcessedRequests st |}.

Definition sendErrorResponse (st : Server) (urlRequested : string) (errorCode : Z)
           (errorMessage : string) : Server * reply :=
  (countError st,
   JSONResponse errorCode (ErrorEnvelope errorCode errorMessage errorMessage urlRequested)).

Definition sendPingResponse (st : Server) (referrer_ : string) : Server * reply :=
  (countValid st,
   JSONResponse 200 (Fields [("Proxy Version", proxyVersion);
                             ("Configuration File", "OK");
                             ("Log File", "OK");
                             ("referrer", referrer_)])).

(** [while (s.length > 1 && s.charAt(0) == '/') s = s.substr(1)]. *)
Fixpoint stripSlashesKeepOne (s : string) : string :=
  match s with
  | String c (String _ _ as r) => if Ascii.eqb c "/" then stripSlashesKeepOne r else s
  | _ => s
  end.

Definition isValidURLRequest (cfg : Config) (uri : string) : bool :=
  if mustMatch cfg
  then existsb (fun l => String.eqb (toLowerCase uri) (toLowerCase l)) (listenURI cfg)
  else false.

(** The parameters to forward, lines 506 to 514 of [processValidatedRequest]:
    the combined parameters, then the configured token when none was provided. *)
Definition requestParameters (urlRequestedParts : RequestParts) (serverURLInfo : ServerUrl)
           (request : Request) : result object :=
  do parameters <- combineParameters (method request) (r_query request)
                                      (rquery urlRequestedParts) (s_query serverURLInfo);
  if ProjectUtilities.isPropertySet (accessToken serverURLInfo) then
    Ok (ProjectUtilities.addIfPropertyNotSet parameters "token"
                                             (orEmpty (accessToken serverURLInfo)))
  else if ProjectUtilities.isPropertySet (token serverURLInfo) then
    Ok (ProjectUtilities.addIfPropertyNotSet parameters "token"
                                             (orEmpty (token serverURLInfo)))
  else Ok parameters.

(** The referrer [processRequest] starts from: the header in lower case and
    trimmed, or the star when the header is missing or empty. *)
Definition headerReferrer (request : Request) : string :=
  match referer request with
  | None => "*"
  | Some r => if len r <? 1 then "*" else trim (toLowerCase r)
  end.

Section Dispatch.

Variable urlParse : string -> UrlObject.
Variable settings : Settings.
Variable cfg : Config.

(** What the request meets outside the program: the clock and the database
    driver. *)
Variable timeOfRequest : number.
Variable selectError : option string.

(** [ProjectUtilities.isEmptyObject], which [processValidatedRequest] calls and
    the file of the utilities at hand does not define: it is taken as given. *)
Variable isEmptyObject : object -> bool.

Fixpoint firstMatch (urlParts : MatchParts) (serverUrls_ : list ServerUrl) : option ServerUrl :=
  match serverUrls_ with
  | [] => None
  | serverUrl :: rest =>
      if parsedUrlPartsMatch urlParts (matchPartsOfServerUrl serverUrl) then Some serverUrl
      else firstMatch urlParts rest
  end.

(** The first part of [getServerUrlInfo(urlRequestedParts)]: the variable
    [urlParts] when the loop over the resources starts.  Of the normalized
    parts only host, protocol and path take part in the comparison, and the
    parts of a request have no property matchAll. *)
Definition requestedUrlParts (urlRequestedParts : RequestParts) : MatchParts :=
  let urlParts := parseAndFixURLParts urlParse (proxyPath urlRequestedParts) in
  let protocol := rprotocol urlRequestedParts in
  let protocol :=
    if String.eqb (charAt protocol (len protocol - 1)) ":"
    then substr2 protocol 0 (len protocol - 1) else protocol in
  let path :=
    if String.eqb (path urlParts) EmptyString then proxyPath urlRequestedParts
    else path urlParts in
  let '(hostname, path) :=
    if String.eqb (hostname urlParts) EmptyString then
      let hostname := stripSlashesKeepOne path in
      let i := indexOf hostname "/" in
      let '(hostname, path) :=
        if 0 <=? i then (substr2 hostname 0 i, substr hostname i) else (hostname, path) in
      (hostname, replaceFirst path hostname EmptyString)
    else (hostname urlParts, path) in
  {| m_hostname := hostname; m_protocol := protocol; m_path := path; m_matchAll := false |}.

(** [getServerUrlInfo(urlRequestedParts)]: the first resource, in the order of
    the configuration, that matches the parts of the request. *)
Definition getServerUrlInfo (urlRequestedParts : RequestParts) : option ServerUrl :=
  if String.eqb (proxyPath urlRequestedParts) EmptyString then None
  else firstMatch (requestedUrlParts urlRequestedParts) (serverUrls cfg).

(** [processValidatedRequest] for a request that matched [serverURLInfo].  The
    serialized form of the parameters ([parametersCombined]) is computed, and
    then passed to [buildFullURLFromParts] as a second argument, which that
    function does not take, and not passed to
    [buildURLFromReferrerRequestAndInfo]: no address is built from it.  The
    object [request.headers] of Node spells header names in lower case, so the
    lookup of Content-Type made for POST and PUT finds nothing and the call of
    [indexOf] on it throws.  The counter of processed requests is raised right
    before the request is handed to the proxy. *)
Definition processValidatedRequest (st : Server) (urlRequestedParts : RequestParts)
           (serverURLInfo : ServerUrl) (referrer_ : string) (request : Request)
  : Server * reply :=
  if proxyServer st then
    match requestParameters urlRequestedParts serverURLInfo request with
    | Throw e => (st, Fatal e)
    | Ok parameters =>
        match (if negb (isEmptyObject parameters)
               then ProjectUtilities.objectToQueryString parameters
               else Ok EmptyString) with
        | Throw e => (st, Fatal e)
        | Ok parametersCombined =>
            let '(hostname, proxyRequest) :=
              match isHostRedirect serverURLInfo, parsedHostRedirect serverURLInfo with
              | true, Some parsed =>
                  (hostname parsed, buildFullURLFromParts settings parsed)
              | _, _ =>
                  (s_hostname serverURLInfo,
                   buildURLFromReferrerRequestAndInfo urlParse settings referrer_
                     urlRequestedParts (url serverURLInfo) (s_protocol serverURLInfo)
                     (s_query serverURLInfo))
              end in
            if String.eqb (method request) "POST" || String.eqb (method request) "PUT"
            then (st, Fatal (TypeError "Cannot read property indexOf of undefined"))
            else (countValid st, ProxyWeb proxyRequest hostname parameters)
        end
    end
  else sendErrorResponse st (proxyPath urlRequestedParts) 500 "Internal error".

(** The test [if (isUnderCap)] on the value the promise resolved with. *)
Definition truthy (v : value) : bool :=
  match v with
  | Boolean b => b
  | ErrorObject _ => true
  end.

Definition checkRateMeterThenProcessValidatedRequest (st : Server) (referrer_ : string)
           (requestParts : RequestParts) (serverURLInfo : ServerUrl) (request : Request)
  : Server * reply :=
  match rateMeter st with
  | Some dbConnection =>
      let '(dbConnection', outcome) :=
        isUnderMeterCap dbConnection selectError timeOfRequest referrer_ serverURLInfo in
      let st := withMeter st dbConnection' in
      match outcome with
      | Resolved isUnderCap =>
          if truthy isUnderCap
          then processValidatedRequest st requestParts serverURLInfo referrer_ request
          else sendErrorResponse st (r_url request) 429 "Metered requests exceeded"
      | Rejected _ =>
          sendErrorResponse st (r_url request) 420 "Metered resource status failed"
      | Uncaught e => (st, Fatal e)
      end
  | None => (st, NoResponse)
  end.

(** [proxyServeFile]. *)
Definition proxyServeFile (st : Server) (request : Request) : Server * reply :=
  if String.eqb (method request) "GET" then
    if String.eqb (orEmpty (u_pathname (urlParse (r_url request)))) "/"
    then sendErrorResponse st (r_url request) 404 "Resource not found"
    else match staticFilePath cfg with
         | Some _ => (st, StaticFile)
         | None => (st, NoResponse)
         end
  else sendErrorResponse st (r_url request) 405 "Method not supported.".

(** The resource made up for an unmatched request when [mustMatch] is off. *)
Definition passThroughResource (requestParts : RequestParts) : ServerUrl :=
  let parsed := parseAndFixURLParts urlParse (listenPath requestParts) in
  {| url := hostname parsed ++ path parsed;
     s_protocol := rprotocol requestParts;
     s_hostname := hostname parsed;
     s_path := path parsed;
     s_port := port parsed;
     s_query := None;
     matchAll := false;
     rateLimit := 0;
     rateLimitPeriod := 0;
     useRateMeter := false;
     rate := 0%float;
     ratePeriodSeconds := 0%float;
     accessToken := None;
     token := None;
     isHostRedirect := false;
     parsedHostRedirect := None;
     mayRequireToken := false |}.

(** [processRequest(request, response)]. *)
Definition processRequest (st : Server) (request : Request) : Server * reply :=
  match parseURLRequest (r_url request) (listenURI cfg) with
  | Throw e => (st, Fatal e)
  | Ok requestParts =>
      let st := countAttempt st in
      match validatedReferrerFromReferrer urlParse settings (Some (headerReferrer request))
                                          (allowedReferrers cfg) with
      | Some referrer_ =>
          if String.eqb (listenPath requestParts) (localPingURL cfg) then
            sendPingResponse st referrer_
          else if match localEchoURL cfg with
                  | Some echo => String.eqb (proxyPath requestParts) echo
                  | None => false
                  end then
            (st, EchoResponse)
          else if String.eqb (listenPath requestParts) (localStatusURL cfg) then
            (st, StatusResponse)
          else if isValidURLRequest cfg (listenPath requestParts) then
            match getServerUrlInfo requestParts with
            | Some serverURLInfo =>
                if useRateMeter serverURLInfo
                then checkRateMeterThenProcessValidatedRequest st referrer_ requestParts
                                                               serverURLInfo request
                else processValidatedRequest st requestParts serverURLInfo referrer_ request
            | None =>
                if negb (mustMatch cfg)
                then processValidatedRequest st requestParts
                                             (passThroughResource requestParts)
                                             referrer_ request
                else sendErrorResponse st (r_url request) 404 "Resource not found"
            end
          else proxyServeFile st request
      | None => sendErrorResponse st (r_url request) 403 "Referrer not allowed"
      end
  end.




End Dispatch.

(** ** Inspection of the response of the service *)

(** The values the inspection callback can be handed. *)
#[warnings="-register-all"]
Inductive jsvalue : Type :=
| Undefined
| Number (n : Z)
| Text (s : string)
| Buffer (bytes : string)
| Object (properties : list (string * jsvalue)).

Fixpoint lookup (properties : list (string * jsvalue)) (name : string) : jsvalue :=
  match properties with
  | [] => Undefined
  | (k, v) :: rest => if String.eqb k name then v else lookup rest name
  end.

(** [v.name] for the names error and code: neither a string nor a buffer has
    such a property; reading a property of [undefined] throws. *)
Definition property (v : jsvalue) (name : string) : result jsvalue :=
  match v with
  | Undefined => Throw (TypeError ("Cannot read property " ++ name ++ " of undefined"))
  | Object properties => Ok (lookup properties name)
  | Number _ | Text _ | Buffer _ => Ok Undefined
  end.

Definition isTruthy (v : jsvalue) : bool :=
  match v with
  | Undefined => false
  | Number n => negb (n =? 0)
  | Text s => negb (String.eqb s EmptyString)
  | Buffer _ | Object _ => true
  end.

(** [errorCode == n]; a text is compared by its decimal value. *)
Definition looseEquals (v : jsvalue) (n : Z) : bool :=
  match v with
  | Number m => m =? n
  | Text s => match decimalValue (trim s) 0 with Some m => m =? n | None => false end
  | _ => false
  end.

(** The callback [proxyResponseRewrite] passes to the inspection. *)
Definition checkForMissingToken (body : jsvalue) : result bool :=
  if isTruthy body then
    do error <- property body "error";
    do errorCode <- property error "code";
    Ok (looseEquals errorCode 403 || looseEquals errorCode 498 || looseEquals errorCode 499)
  else Ok false.

(** What the client connection receives. *)
Inductive clientEvent : Type :=
| Write (data : string)
| End_.

Section Inspection.

(** [zlib.deflateSync] and [zlib.gunzipSync] of the Node library, which return a
    buffer or throw. *)
Variable deflateSync gunzipSync : string -> result string.

(** The replaced [end] of the client response, over the chunks that the
    replaced [write] collected; [contentEncoding] is the header of the response.
    [body] is the text that [toString] makes of the collected bytes, given by
    the bytes the client is sent when that text is written ([JS.utf8Text]). *)
Definition checkServerResponseForMissingToken (contentEncoding : option string)
           (chunks : list string) (checkForMissingToken_ : jsvalue -> result bool)
  : list clientEvent :=
  let buffer := String.concat EmptyString chunks in
  let encoding :=
    toLowerCase (match contentEncoding with
                 | Some e => if String.eqb e EmptyString then "utf8" else e
                 | None => "utf8"
                 end) in
  let '(body, attempt) :=
    if 0 <? len buffer then
      let body := utf8Text buffer in
      (body,
       do decodedBody <-
          (if String.eqb encoding "deflate" then
             do b <- deflateSync buffer; Ok (Buffer b)
           else if String.eqb encoding "gzip" then
             do b <- gunzipSync buffer; Ok (Buffer b)
           else Ok (Text body));
       checkForMissingToken_ decodedBody)
    else (EmptyString, Ok false) in
  (* an exception of the try block is logged, and tokenIsMissing stays false *)
  let tokenIsMissing := match attempt with Ok b => b | Throw _ => false end in
  if negb tokenIsMissing then [Write body; End_]
  else [Write "Could not generate a new token"; End_].

(** [proxyResponseRewrite]: the content type sent on, and what the client
    receives of the body. [serverUrlInfo] is [proxyRequest.serverUrlInfo]. *)
Definition proxyResponseRewrite (contentType contentEncoding : option string)
           (serverUrlInfo : option ServerUrl) (chunks : list string)
  : option string * list clientEvent :=
  let contentType :=
    option_map (fun t => replaceFirst t "application/vnd.ogc.wms_xml" "text/xml") contentType in
  if match serverUrlInfo with Some info => mayRequireToken info | None => false end
  then (contentType,
        checkServerResponseForMissingToken contentEncoding chunks checkForMissingToken)
  else (contentType, (map Write chunks ++ [End_])%list).

End Inspection.

End Proxy.

(* ===================================================================== *)
(** * The wording of the specification, for comparison with the code *)
(* ===================================================================== *)

Module Spec.
Import JS RateMeter.

(** Section 4.6, the admission step of a meter row: the window lasts
    (rateLimitPeriod x 60) / rateLimit seconds and the cap per window is
    rateLimit admissions. *)
Definition admission (rateLimit rateLimitPeriod : Z) (now : number) (row : Row) : Row * bool :=
  let windowSeconds := (numberOf (rateLimitPeriod * 60) / numberOf rateLimit)%float in
  if (count row =? 0) || (time row + windowSeconds <=? now)%float
  then (admitted row 1 now, true)
  else if count row <? rateLimit
  then (admitted row (count row + 1) (time row), true)
  else (refused row, false).

(** Section 4.2, host match: equal segment counts, and at each position the
    segment of the pattern is the star or the segments are equal without regard
    to case. *)
Definition hostMatch (pattern host : string) : Prop :=
  List.length (split "." pattern) = List.length (split "." host)
  /\ Forall2 (fun p h => p = "*" \/ toLowerCase p = toLowerCase h)
             (split "." pattern) (split "." host).

(** [sub] occurs in [s]. *)
Definition occursIn (sub s : string) : Prop :=
  exists before after, s = before ++ sub ++ after.

(** The two payload shapes of the token extraction property, around a token [X]. *)
Definition jsonPayload (X : string) : string :=
  "{" ++ str1 dquote ++ "token" ++ str1 dquote ++ ":" ++ str1 dquote ++ X ++ str1 dquote ++ "}".

Definition queryPayload (X : string) : string := "&token=" ++ X ++ "&".

(** Section 8, parameter merge idempotence: two query strings agree after
    ordering when their segments between ampersands are the same up to order. *)
Definition sameAfterOrdering (a b : string) : Prop :=
  Permutation (split "&" a) (split "&" b).

End Spec.

(* ===================================================================== *)
(** * Sample data *)
(* ===================================================================== *)

Module Examples.
Import JS UrlFlexParser Configuration RateMeter Proxy.

Definition parsed (protocol_ hostname_ pathname_ : string) : UrlObject :=
  {| u_protocol := Some protocol_; u_hostname := Some hostname_; u_port := None;
     u_pathname := Some pathname_; u_query := None |}.

(** The values of [url.parse] on the addresses of the examples.  An address
    without scheme, query or fragment comes back whole as the path name. *)
Definition urlParseExamples (href : string) : UrlObject :=
  if String.eqb href "https://app.example.org" then parsed "https:" "app.example.org" "/"
  else if String.eqb href "https://app.example.org/" then parsed "https:" "app.example.org" "/"
  else if String.eqb href "https://app.example.org/*" then parsed "https:" "app.example.org" "/*"
  else if String.eqb href "https://evil.example.net/" then parsed "https:" "evil.example.net" "/"
  else {| u_protocol := None; u_hostname := None; u_port := None;
          u_pathname := Some href; u_query := None |}.

Definition tilesUnmetered : ServerUrl :=
  {| url := "http://tiles.example.com/ArcGIS/rest/services";
     s_protocol := "http";
     s_hostname := "tiles.example.com";
     s_path := "/ArcGIS/rest/services";
     s_port := "*";
     s_query := None;
     matchAll := false;
     rateLimit := 0;
     rateLimitPeriod := 0;
     useRateMeter := false;
     rate := 0%float;
     ratePeriodSeconds := 0%float;
     accessToken := None;
     token := None;
     isHostRedirect := false;
     parsedHostRedirect := None;
     mayRequireToken := false |}.

(** The resource of scenario 4: three requests per minute. *)
Definition tiles : ServerUrl := withRateLimit tilesUnmetered (Some 3) (Some 1).

(** A resource with a static access token. *)
Definition secured : ServerUrl :=
  {| url := url tilesUnmetered;
     s_protocol := s_protocol tilesUnmetered;
     s_hostname := s_hostname tilesUnmetered;
     s_path := s_path tilesUnmetered;
     s_port := s_port tilesUnmetered;
     s_query := Some "f=json";
     matchAll := false;
     rateLimit := 0;
     rateLimitPeriod := 0;
     useRateMeter := false;
     rate := 0%float;
     ratePeriodSeconds := 0%float;
     accessToken := Some "T";
     token := None;
     isHostRedirect := false;
     parsedHostRedirect := None;
     mayRequireToken := true |}.

(** The allow-list of scenario 3. *)
Definition allowList : list Referrer * bool :=
  postParseAllowedReferrers urlParseExamples (ReferrerArray ["https://app.example.org"]).

Definition settings : Settings :=
  setConfiguration (Some false) (Some true) (Some (snd allowList)).

Definition config : Config :=
  {| mustMatch := true;
     listenURI := ["/proxy"];
     localPingURL := "/ping";
     localStatusURL := "/status";
     localEchoURL := None;
     allowedReferrers := fst allowList;
     serverUrls := [tiles];
     staticFilePath := None |}.

Definition appKey : string := "https://app.example.org/*".

(** The meter table right after start-up at time 0, and the same table once
    the row has admitted one request at time 0. *)
Definition freshTable : Table := createDatabaseIfNotExists [tiles] (fst allowList) 0%float.

Definition usedRow : Row :=
  {| id := 1; RateMeter.r_url := url tiles; referrer := appKey; count := 1;
     r_rate := rate tiles; time := 0%float; total := 1; rejected := 0 |}.

Definition started (t : Table) : Server :=
  {| rateMeter := Some (Some t); proxyServer := true;
     attemptedRequests := 0; validProcessedRequests := 0; errorProcessedRequests := 0 |}.

Definition get_ (url_ : string) (referer_ : option string) : Request :=
  {| Proxy.r_url := url_; method := "GET"; referer := referer_; r_query := None |}.

Definition tilesRequest : Request :=
  get_ "/proxy/http/tiles.example.com/ArcGIS/rest/services" (Some "https://app.example.org/").

(** The parts of a request for the tiles resource with the given query. *)
Definition partsWith (query_ : string) : RequestParts :=
  {| listenPath := "/proxy"; proxyPath := "/tiles.example.com/ArcGIS/rest/services";
     rquery := query_; rprotocol := "http" |}.

Definition invalidTokenBody : string :=
  "{" ++ str1 dquote ++ "error" ++ str1 dquote ++ ":{" ++ str1 dquote ++ "code" ++ str1 dquote
  ++ ":498," ++ str1 dquote ++ "message" ++ str1 dquote ++ ":" ++ str1 dquote
  ++ "Invalid token." ++ str1 dquote ++ "," ++ str1 dquote ++ "details" ++ str1 dquote ++ ":[]}}".

(** Parameters with a value that needs percent coding and two array-index keys. *)
Definition sampleParameters : list (string * string) :=
  [("f", "json"); ("where", "a b&c=d"); ("2", "x"); ("1", EmptyString)].

(** A JSON body that quotes an address with a query string before its own token. *)
Definition mixedPayload : string :=
  "{" ++ str1 dquote ++ "next" ++ str1 dquote ++ ":" ++ str1 dquote ++ "/a?token=old"
  ++ str1 dquote ++ "," ++ str1 dquote ++ "data" ++ str1 dquote ++ ":"
  ++ Spec.jsonPayload "X" ++ "}".

(** The resource with 150 requests per minute, and one minute of requests
    that arrive every tenth of a second. *)
Definition busy : ServerUrl := withRateLimit tilesUnmetered (Some 150) (Some 1).

Definition everyTenthOfASecond : list number :=
  map (fun k => (numberOf (Z.of_nat k) / 10)%float) (seq 0 600).

(** The number of requests that the meter admits of those that arrive, one
    after the other, at the given times. *)
Fixpoint admissions (serverURL : ServerUrl) (referrer_ : string) (times : list number)
         (t : Table) : Z :=
  match times with
  | [] => 0
  | timeOfRequest :: rest =>
      match isUnderMeterCap (Some t) None timeOfRequest referrer_ serverURL with
      | (Some t', Resolved (Boolean true)) => 1 + admissions serverURL referrer_ rest t'
      | (Some t', _) => admissions serverURL referrer_ rest t'
      | (None, _) => 0
      end
  end.

(** The helper of the utilities that the examples run with: an object is
    empty when it has no property. *)
Definition isEmptyObjectExamples (o : object) : bool :=
  match o with
  | [] => true
  | _ :: _ => false
  end.

(** A resource that the configuration file lists under the address
    *.example.com, a host with a wildcard segment, and the configuration of the
    examples with this resource alone. *)
Definition wildcard : ServerUrl :=
  {| url := "*.example.com";
     s_protocol := "*";
     s_hostname := "*.example.com";
     s_path := "*";
     s_port := "*";
     s_query := None;
     matchAll := true;
     rateLimit := 0;
     rateLimitPeriod := 0;
     useRateMeter := false;
     rate := 0%float;
     ratePeriodSeconds := 0%float;
     accessToken := None;
     token := None;
     isHostRedirect := false;
     parsedHostRedirect := None;
     mayRequireToken := false |}.

Definition wildcardConfig : Config :=
  {| mustMatch := true;
     listenURI := ["/proxy"];
     localPingURL := "/ping";
     localStatusURL := "/status";
     localEchoURL := None;
     allowedReferrers := fst allowList;
     serverUrls := [wildcard];
     staticFilePath := None |}.

Definition wildcardRequest : Request :=
  get_ "/proxy/http/www.example.com/maps" (Some "https://app.example.org/").



End Examples.

(* ===================================================================== *)
(** * Vocabulary of the statements *)
(* ===================================================================== *)

Module Statements.
Import JS.

(** One position of a host match as the code decides it. *)
Definition segmentMatches (p h : string) : Prop := p = "*" \/ p = h.

(** Every character of [s] satisfies [p]. *)
Fixpoint allChars (p : ascii -> bool) (s : string) : bool :=
  match s with
  | EmptyString => true
  | String c r => p c && allChars p r
  end.

(** The characters percent coding writes: the unreserved ones and the percent
    sign (with digits and capital letters after it). *)
Definition isCoded (c : ascii) : bool := isUnreserved c || Ascii.eqb c "%".

Definition codedText (s : string) : Prop := allChars isCoded s = true.

(** A pair of an encoded key, not empty, and an encoded value. *)
Definition codedPair (kv : string * string) : Prop :=
  fst kv <> EmptyString /\ codedText (fst kv) /\ codedText (snd kv).

(** A parameter name that an object holds as an ordinary own property: not
    empty, and neither of the two inherited names the sources trip over. *)
Definition paramKey (k : string) : Prop :=
  k <> EmptyString /\ k <> "__proto__" /\ k <> "hasOwnProperty".

(** One segment [k=v] of a query string. *)
Definition pairText (kv : string * string) : string := fst kv ++ "=" ++ snd kv.

(** The query string [k1=v1&k2=v2&...] of a list of pairs. *)
Definition joinPairs (pairs : list (string * string)) : string :=
  String.concat "&" (map pairText pairs).

(** A parameter with its key and its value percent-encoded. *)
Definition encodePair (kv : string * string) : string * string :=
  (encodeURIComponent (fst kv), encodeURIComponent (snd kv)).

(** The query string that writes a list of parameters: every key and value
    percent-encoded on its own, the pairs joined by ampersands. *)
Definition serialized (pairs : list (string * string)) : string :=
  joinPairs (map encodePair pairs).

(** [source] carries the token [X] in query-string form: the first occurrence
    of token= is followed by [X], which is not empty and has no ampersand, and
    then by an ampersand or the end of the text. *)
Definition queryForm (source X : string) : Prop :=
  exists before after,
    source = before ++ "token=" ++ X ++ after
    /\ find "token=" source = Some (String.length before)
    /\ X <> EmptyString
    /\ find "&" X = None
    /\ (after = EmptyString \/ exists rest, after = String "&" rest).

Definition tokenKey : string := str1 dquote ++ "token" ++ str1 dquote ++ ":".

(** [source] carries the token [X] in JSON form: token= does not occur, and the
    first occurrence of the quoted key with its colon is followed, after
    characters other than double quotes, by [X] between double quotes. *)
Definition jsonForm (source X : string) : Prop :=
  find "token=" source = None
  /\ exists before gap after,
      source = before ++ tokenKey ++ gap ++ str1 dquote ++ X ++ str1 dquote ++ after
      /\ find tokenKey source = Some (String.length before)
      /\ find (str1 dquote) gap = None
      /\ find (str1 dquote) X = None.

(** An object as the sources build it: no key twice, and no own property
    named __proto__. *)
Definition wellFormed (o : object) : Prop :=
  NoDup (map fst o) /\ ~ In "__proto__" (map fst o).

(** The key of the property is an array index. *)
Definition isIndexed (kv : string * string) : bool :=
  match arrayIndex (fst kv) with Some _ => true | None => false end.

(** The token a resource is configured with: its access token when that is
    set, and else its token when that is set. *)
Definition configuredToken (accessToken_ token_ : option string) : option string :=
  if ProjectUtilities.isPropertySet accessToken_ then accessToken_
  else if ProjectUtilities.isPropertySet token_ then token_
  else None.

(** The value a merged parameter takes once the configured token [tok] has been
    filled in: the token parameter is replaced when it is missing or blank. *)
Definition withToken (tok k : string) (merged : option string) : option string :=
  if String.eqb k "token" then
    match merged with
    | Some v => if len (trim v) =? 0 then Some tok else Some v
    | None => Some tok
    end
  else merged.

End Statements.

(* ===================================================================== *)
(** * Further functions of the sources *)
(* ===================================================================== *)

Module MoreJS.
Import JS.

(** [String.prototype.indexOf(needle, position)]: the search starts at the
    position, clamped to the string, and the result counts from the start of
    the string. *)
Definition indexOfFrom (s needle : string) (position : Z) : Z :=
  let start := Z.to_nat (Z.min (Z.max position 0) (len s)) in
  match find needle (drop start s) with
  | Some n => Z.of_nat (start + n)
  | None => -1
  end.

End MoreJS.

(** ** bin/ProjectUtilities.js (src/unnamed/part_000) *)

Module MoreProjectUtilities.
Import JS MoreJS.

(** [endsWith(subject, needle)]. *)
Definition endsWith (subject needle : string) : bool :=
  let subjectLowerCase := toLowerCase subject in
  let needleLowerCase := toLowerCase needle in
  let startIndex := len subjectLowerCase - len needleLowerCase in
  indexOfFrom subjectLowerCase needleLowerCase startIndex =? startIndex.

(** [getIfPropertySet(object, key, defaultValue)], for string values. *)
Definition getIfPropertySet (o : object) (key defaultValue : string) : string :=
  match get o key with
  | Some v => if 0 <? len (trim v) then v else defaultValue
  | None => defaultValue
  end.

End MoreProjectUtilities.

(** ** bin/Configuration.js: the credentials of a resource *)

Module MoreConfiguration.
Import JS UrlFlexParser MoreProjectUtilities.

Definition defaultOAuthEndpoint : string := "https://www.arcgis.com/sharing/oauth2/".

(** [isUserLogin(serverURLInfo)] and [isAppLogin(serverURLInfo)], on the
    properties of a resource that hold strings. *)
Definition isUserLogin (serverURLInfo : object) : bool :=
  match get serverURLInfo "username" with
  | Some username =>
      (0 <? len (trim username))
      && match get serverURLInfo "password" with
         | Some password => 0 <? len (trim password)
         | None => false
         end
  | None => false
  end.

Definition isAppLogin (serverURLInfo : object) : bool :=
  match get serverURLInfo "clientid" with
  | Some clientid =>
      (0 <? len (trim clientid))
      && match get serverURLInfo "clientsecret" with
         | Some clientsecret => 0 <? len (trim clientsecret)
         | None => false
         end
  | None => false
  end.

(** What the last part of the loop over the resources leaves behind: the
    string properties of the resource and the three flags. *)
Record Credentials : Type := {
  properties : object;
  c_isUserLogin : bool;
  c_isAppLogin : bool;
  c_mayRequireToken : bool
}.

(** Lines 439 to 464 of [postParseConfigurationFile], on the string properties
    of one resource as the file gives them.  The assignments to [errorMessage]
    are left out (one of their tests compares the end point with a number). *)
Definition postParseCredentials (serverUrl : object) : Credentials :=
  let serverUrl :=
    if ProjectUtilities.isPropertySet (get serverUrl "clientId")
       || ProjectUtilities.isPropertySet (get serverUrl "clientSecret")
       || ProjectUtilities.isPropertySet (get serverUrl "oauth2Endpoint")
    then
      let serverUrl :=
        set serverUrl "clientId" (getIfPropertySet serverUrl "clientId" EmptyString) in
      let serverUrl :=
        set serverUrl "clientSecret" (getIfPropertySet serverUrl "clientSecret" EmptyString) in
      let serverUrl :=
        set serverUrl "oauth2Endpoint"
            (getIfPropertySet serverUrl "oauth2Endpoint" defaultOAuthEndpoint) in
      let oauth2Endpoint := orEmpty (get serverUrl "oauth2Endpoint") in
      if negb (String.eqb (charAt oauth2Endpoint (len oauth2Endpoint - 1)) "/")
      then set serverUrl "oauth2Endpoint" (oauth2Endpoint ++ "/")
      else serverUrl
    else serverUrl in
  let serverUrl :=
    if ProjectUtilities.isPropertySet (get serverUrl "username")
       || ProjectUtilities.isPropertySet (get serverUrl "password")
    then
      let serverUrl :=
        set serverUrl "username" (getIfPropertySet serverUrl "username" EmptyString) in
      set serverUrl "password" (getIfPropertySet serverUrl "password" EmptyString)
    else serverUrl in
  let mayRequireToken := ProjectUtilities.isPropertySet (get serverUrl "accessToken") in
  let userLogin := isUserLogin serverUrl in
  let appLogin := isAppLogin serverUrl in
  {| properties := serverUrl;
     c_isUserLogin := userLogin;
     c_isAppLogin := appLogin;
     c_mayRequireToken := mayRequireToken || userLogin || appLogin |}.

End MoreConfiguration.

(** ** bin/RateMeter.js: the aggregate query *)

Module MoreRateMeter.
Import JS RateMeter.

(** [getTotalCount(url)] on an open connection: the sum of the column total,
    over the rows of one address or, without an address, over all rows.  The
    sum over no row is NULL, here [None]. *)
Definition getTotalCount (t : Table) (url_ : option string) : option Z :=
  let rows :=
    match url_ with
    | Some u => if 0 <? len u then filter (fun r => String.eqb (r_url r) u) t else t
    | None => t
    end in
  match rows with
  | [] => None
  | _ => Some (fold_right Z.add 0 (map total rows))
  end.

End MoreRateMeter.

(** ** bin/proxy.js: the address of the token information *)

Module MoreProxy.
Import JS.

Definition defaultAGOLRestPath : string := "/rest/".
Definition defaultAGOLRestPathStart : string := "/rest/info".
Definition defaultAGOLSharePath : string := "/sharing/".
Definition defaultAGOLSharePathStart : string := "/sharing/rest/info".
Definition defaultPortalServicePath : string := "/arcgis/rest/info".

(** The variable [tokenUrl] of [getTokenEndpointFromURL(url)]: the address the
    function asks for the token services of the server. *)
Definition tokenUrl (url : string) : string :=
  let index := indexOf url defaultAGOLRestPath in
  if 0 <=? index then substr2 url 0 index ++ defaultAGOLRestPathStart
  else
    let index := indexOf url defaultAGOLSharePath in
    if 0 <=? index then substr2 url 0 index ++ defaultAGOLSharePathStart
    else url ++ defaultPortalServicePath.

End MoreProxy.

(** ** Vocabulary and sample data of the further properties *)

Module Terms.
Import JS UrlFlexParser Configuration RateMeter Proxy.

(** [n] slashes. *)
Fixpoint slashes (n : nat) : string :=
  match n with
  | O => EmptyString
  | S n' => String "/" (slashes n')
  end.

(** The three ways a request names the scheme of the proxied address. *)
Definition markers (scheme : string) : list string :=
  ["/" ++ scheme ++ "/"; "?" ++ scheme ++ "://"; "&" ++ scheme ++ "://"].

(** A byte of the ASCII range. *)
Definition isAscii (c : ascii) : bool := code c <? 128.

(** The data the client connection was sent, and how often it was ended. *)
Fixpoint written (events : list clientEvent) : string :=
  match events with
  | [] => EmptyString
  | Write data :: rest => data ++ written rest
  | End_ :: rest => written rest
  end.

Fixpoint endings (events : list clientEvent) : nat :=
  match events with
  | [] => O
  | Write _ :: rest => endings rest
  | End_ :: rest => S (endings rest)
  end.

(** A resource with another value of [matchAll], and a configuration with
    other resources. *)
Definition setMatchAll (b : bool) (s : ServerUrl) : ServerUrl :=
  {| url := url s;
     s_protocol := s_protocol s;
     s_hostname := s_hostname s;
     s_path := s_path s;
     s_port := s_port s;
     s_query := s_query s;
     matchAll := b;
     rateLimit := rateLimit s;
     rateLimitPeriod := rateLimitPeriod s;
     useRateMeter := useRateMeter s;
     rate := rate s;
     ratePeriodSeconds := ratePeriodSeconds s;
     accessToken := accessToken s;
     token := token s;
     isHostRedirect := isHostRedirect s;
     parsedHostRedirect := parsedHostRedirect s;
     mayRequireToken := mayRequireToken s |}.

Definition withServerUrls (cfg : Config) (serverUrls_ : list ServerUrl) : Config :=
  {| mustMatch := mustMatch cfg;
     listenURI := listenURI cfg;
     localPingURL := localPingURL cfg;
     localStatusURL := localStatusURL cfg;
     localEchoURL := localEchoURL cfg;
     allowedReferrers := allowedReferrers cfg;
     serverUrls := serverUrls_;
     staticFilePath := staticFilePath cfg |}.

(** A row of the meter after a request, next to the row before it: the key
    columns stay, and the two counters of requests grow by one between them at
    most. *)
Definition sameKey (before after : Row) : Prop :=
  id after = id before
  /\ RateMeter.r_url after = RateMeter.r_url before
  /\ referrer after = referrer before
  /\ r_rate after = r_rate before.

Definition countedOnce (before after : Row) : Prop :=
  total before <= total after
  /\ rejected before <= rejected after
  /\ total after + rejected after <= total before + rejected before + 1.

(** A row as [createDatabaseIfNotExists] writes it. *)
Definition freshRow (timeOfAccess : number) (row : Row) : Prop :=
  count row = 0 /\ total row = 0 /\ rejected row = 0 /\ time row = timeOfAccess.

(** The number of requests a row has admitted in its window stays within one
    of the rate of the resource, in the comparison of doubles that the meter
    makes: the row is unused, or count - 1 is below the rate. *)
Definition withinRate (s : ServerUrl) (row : Row) : Prop :=
  0 <= count row
  /\ (count row = 0 \/ (numberOf (count row - 1) <? rate s)%float = true).

(** The two loops of [createDatabaseIfNotExists], from any table: over the
    referrers for one resource, and over the resources. *)
Definition insertAll (u : string) (rate_ t0 : number) (referrers : list Referrer) (t : Table)
  : Table :=
  fold_left (fun t r => insertOrIgnore t u (r_referrer r) rate_ t0) referrers t.

Definition createFrom (servers : list ServerUrl) (referrers : list Referrer) (t0 : number)
           (t : Table) : Table :=
  fold_left
    (fun t serverURL =>
       if useRateMeter serverURL
       then insertAll (url serverURL) (rate serverURL) t0 referrers t
       else t)
    servers t.

(** The pairs of address and referrer of a table. *)
Definition keys (t : Table) : list (string * string) :=
  map (fun row => (RateMeter.r_url row, referrer row)) t.

(** A table whose rows have distinct pairs, identifiers 1, 2, 3, ... and an
    origin in the configuration. *)
Definition wellKeyed (servers : list ServerUrl) (referrers : list Referrer) (t : Table)
  : Prop :=
  NoDup (keys t)
  /\ map id t = map Z.of_nat (seq 1 (List.length t))
  /\ Forall (fun row =>
               exists s r, In s servers /\ useRateMeter s = true /\ In r referrers
                           /\ RateMeter.r_url row = url s
                           /\ referrer row = r_referrer r
                           /\ r_rate row = rate s) t.


(** The configuration of the examples with [mustMatch] switched off. *)
Definition openConfig : Config :=
  {| mustMatch := false;
     listenURI := listenURI Examples.config;
     localPingURL := localPingURL Examples.config;
     localStatusURL := localStatusURL Examples.config;
     localEchoURL := localEchoURL Examples.config;
     allowedReferrers := allowedReferrers Examples.config;
     serverUrls := serverUrls Examples.config;
     staticFilePath := staticFilePath Examples.config |}.

(** A request like [get_] with another method. *)
Definition request_ (method_ url_ : string) (referer_ : option string) : Request :=
  {| Proxy.r_url := url_; method := method_; referer := referer_; r_query := None |}.

End Terms.

(** ** Proof steps for the dispatcher

    [dispatch] unfolds the functions a request passes through, and [cases]
    takes every test of the goal apart. *)

Ltac dispatch :=
  unfold Proxy.processRequest, Proxy.checkRateMeterThenProcessValidatedRequest,
    Proxy.processValidatedRequest, Proxy.proxyServeFile, Proxy.sendErrorResponse,
    Proxy.sendPingResponse, Proxy.truthy.

Ltac cases :=
  repeat match goal with
         | |- context [match ?x with _ => _ end] => destruct x eqn:?
         end.

(* ===================================================================== *)
(** * Properties *)
(* ===================================================================== *)

Import JS.

(** ** The rate limiter *)

Section RateLimiter.
Import Configuration RateMeter.

Lemma withRateLimit_metered (base : ServerUrl) (L P : Z) :
  0 < L -> 0 < P ->
  useRateMeter (withRateLimit base (Some L) (Some P)) = true
  /\ rate (withRateLimit base (Some L) (Some P)) = (numberOf L / numberOf P / 60)%float
  /\ ratePeriodSeconds (withRateLimit base (Some L) (Some P))
     = (1 / (numberOf L / numberOf P / 60))%float
  /\ url (withRateLimit base (Some L) (Some P)) = url base.
Proof.
  intros HL HP. unfold withRateLimit, clampRate. cbn [useRateMeter rate ratePeriodSeconds url].
  destruct (L <? 0) eqn:EL; [apply Z.ltb_lt in EL; lia|].
  destruct (P <? 0) eqn:EP; [apply Z.ltb_lt in EP; lia|].
  assert (E1 : (0 <? L) = true) by (apply Z.ltb_lt; lia).
  assert (E2 : (0 <? P) = true) by (apply Z.ltb_lt; lia).
  rewrite E1, E2. cbn [andb]. repeat split.
Qed.

Lemma selectRow_matches (t : Table) (ref u : string) (row : Row) :
  selectRow t ref u = Some row -> referrer row = ref /\ RateMeter.r_url row = u.
Proof.
  unfold selectRow. intros H. apply find_some in H. destruct H as [_ H].
  apply andb_true_iff in H. destruct H as [H1 H2].
  apply String.eqb_eq in H1. apply String.eqb_eq in H2. auto.
Qed.

(** Reading a row back after an update by key [id]: the update keeps url and
    referrer, hence the first row of the pair is still the one read before. *)
Lemma selectRow_update (f : Row -> Row) (t : Table) (ref u : string) (row : Row) :
  (forall r, referrer (f r) = referrer r /\ RateMeter.r_url (f r) = RateMeter.r_url r) ->
  selectRow t ref u = Some row ->
  selectRow (map (fun r => if id r =? id row then f r else r) t) ref u = Some (f row).
Proof.
  intros Hf. unfold selectRow. induction t as [|r t IH]; cbn; [discriminate|].
  destruct (String.eqb (referrer r) ref && String.eqb (RateMeter.r_url r) u) eqn:E.
  - intros H. injection H as ->. rewrite Z.eqb_refl.
    destruct (Hf row) as [-> ->]. rewrite E. reflexivity.
  - intros H. destruct (id r =? id row).
    + destruct (Hf r) as [-> ->]. rewrite E. auto.
    + rewrite E. auto.
Qed.

(** One step of the meter on a row of the table, branch by branch: the row
    read back after the step. *)
Lemma isUnderMeterCap_step
      (t : Table) (now : number) (ref : string) (s : ServerUrl) (row : Row) :
  selectRow t ref (url s) = Some row ->
  exists t' outcome row',
    isUnderMeterCap (Some t) None now ref s = (Some t', Resolved (Boolean outcome))
    /\ selectRow t' ref (url s) = Some row'
    /\ (outcome, row')
       = if (count row =? 0) || (time row + ratePeriodSeconds s <=? now)%float
         then (true, admitted row 1 now)
         else if (numberOf (count row) <? rate s)%float
              then (true, admitted row (count row + 1) (time row))
              else (false, refused row).
Proof.
  intros Hrow. unfold isUnderMeterCap. rewrite Hrow.
  destruct ((count row =? 0) || (time row + ratePeriodSeconds s <=? now)%float).
  { do 3 eexists. split; [reflexivity|]. split; [|reflexivity]. unfold updateAdmitted.
    apply (selectRow_update (fun r => admitted r 1 now)); [intros; split; reflexivity|assumption]. }
  destruct (numberOf (count row) <? rate s)%float.
  - do 3 eexists. split; [reflexivity|]. split; [|reflexivity]. unfold updateAdmitted.
    apply (selectRow_update (fun r => admitted r (count row + 1) (time row)));
      [intros; split; reflexivity|assumption].
  - do 3 eexists. split; [reflexivity|]. split; [|reflexivity]. unfold updateRejected.
    apply (selectRow_update refused); [intros; split; reflexivity|assumption].
Qed.

End RateLimiter.

Section RateLimiterCases.
Import UrlFlexParser Configuration RateMeter Examples.

(** C1.  By the claim the cap of a window is rateLimit admissions; the meter
    compares the count of the window with the rate per second, rateLimit /
    rateLimitPeriod / 60.  With three requests per minute the window lasts 20
    seconds: a row that admitted one request at time 0 admits, by the words of
    the claim, a second one at time 1 (1 < 3), and the code refuses it and
    counts it as rejected.  With 150 requests per minute the rate is 2.5 and
    the window lasts 0.4 seconds, of which each admits three requests: of 600
    requests that arrive every tenth of a second, within one minute, the meter
    admits more than the 150 of the limit. *)
Theorem C1_count_is_compared_with_the_rate_per_second :
  rate tiles = (3 / 1 / 60)%float
  /\ ratePeriodSeconds tiles = 20%float
  /\ Spec.admission 3 1 1 usedRow = (admitted usedRow 2 0, true)
  /\ isUnderMeterCap (Some [usedRow]) None 1 appKey tiles
     = (Some [refused usedRow], Resolved (Boolean false))
  /\ rate busy = 2.5%float
  /\ ratePeriodSeconds busy = (4 / 10)%float
  /\ List.length everyTenthOfASecond = 600%nat
  /\ admissions busy appKey everyTenthOfASecond
                (createDatabaseIfNotExists [busy] (fst allowList) 0)
     = 434.
Proof. repeat split; vm_compute; reflexivity. Qed.

End RateLimiterCases.

(** ** The dispatcher *)

Section Dispatcher.
Import UrlFlexParser Configuration RateMeter Proxy.

Variable urlParse : string -> UrlObject.
Variable settings : Settings.
Variable cfg : Config.
Variable timeOfRequest : number.
Variable selectError : option string.
Variable isEmptyObject : object -> bool.

Lemma processValidatedRequest_meter (st : Server) (requestParts : RequestParts)
      (info : ServerUrl) (ref : string) (request : Request) :
  rateMeter (fst (processValidatedRequest urlParse settings isEmptyObject st requestParts info
                                          ref request))
  = rateMeter st.
Proof.
  unfold processValidatedRequest.
  destruct (proxyServer st); [|reflexivity].
  destruct (requestParameters requestParts info request) as [parameters|]; [|reflexivity].
  destruct (if negb (isEmptyObject parameters) then _ else _); [|reflexivity].
  destruct (isHostRedirect info); destruct (parsedHostRedirect info);
    destruct (String.eqb (method request) "POST" || String.eqb (method request) "PUT");
    reflexivity.
Qed.

(** C6.  A request that reaches a matched resource with a rate cap goes through
    the rate limiter: the server keeps the table the limiter leaves; when the
    limiter resolves with false the client receives the error envelope with
    status 429, and when the limiter rejects (the database is closed, or the
    SELECT fails) the client receives the error envelope with status 420. *)
Theorem C6_limiter_replies
        (st : Server) (request : Request) (requestParts : RequestParts)
        (key : string) (info : ServerUrl) (db : option Table) :
  parseURLRequest (Proxy.r_url request) (listenURI cfg) = Ok requestParts ->
  validatedReferrerFromReferrer urlParse settings (Some (headerReferrer request))
                                (allowedReferrers cfg) = Some key ->
  listenPath requestParts <> localPingURL cfg ->
  (forall echo, localEchoURL cfg = Some echo -> proxyPath requestParts <> echo) ->
  listenPath requestParts <> localStatusURL cfg ->
  isValidURLRequest cfg (listenPath requestParts) = true ->
  getServerUrlInfo urlParse cfg requestParts = Some info ->
  useRateMeter info = true ->
  rateMeter st = Some db ->
  let limiter := isUnderMeterCap db selectError timeOfRequest key info in
  let result := processRequest urlParse settings cfg timeOfRequest selectError isEmptyObject
                               st request in
  rateMeter (fst result) = Some (fst limiter)
  /\ (snd limiter = Resolved (Boolean false) ->
      snd result = JSONResponse 429 (ErrorEnvelope 429 "Metered requests exceeded"
                                                   "Metered requests exceeded"
                                                   (Proxy.r_url request)))
  /\ (forall error, snd limiter = Rejected error ->
      snd result = JSONResponse 420 (ErrorEnvelope 420 "Metered resource status failed"
                                                   "Metered resource status failed"
                                                   (Proxy.r_url request))).
Proof.
  intros Hparse Hreferrer Hping Hecho Hstatus Hvalid Hinfo Hmeter Hdb limiter result.
  subst result. unfold processRequest. rewrite Hparse, Hreferrer.
  apply String.eqb_neq in Hping. rewrite Hping.
  assert (Hecho' : match localEchoURL cfg with
                   | Some echo => String.eqb (proxyPath requestParts) echo
                   | None => false
                   end = false).
  { destruct (localEchoURL cfg) as [echo|]; [|reflexivity].
    apply String.eqb_neq. apply Hecho. reflexivity. }
  rewrite Hecho'. apply String.eqb_neq in Hstatus. rewrite Hstatus.
  rewrite Hvalid, Hinfo, Hmeter.
  unfold checkRateMeterThenProcessValidatedRequest. cbn [rateMeter countAttempt].
  rewrite Hdb. fold limiter. destruct limiter as [db' outcome]. cbn [fst snd].
  destruct outcome as [v|error|e].
  - destruct v as [[|]|message]; cbn [truthy].
    + split; [|split; [discriminate|intros ? H; discriminate]].
      rewrite processValidatedRequest_meter. reflexivity.
    + split; [reflexivity|]. split; [reflexivity|intros ? H; discriminate].
    + split; [|split; [discriminate|intros ? H; discriminate]].
      rewrite processValidatedRequest_meter. reflexivity.
  - split; [reflexivity|]. split; [discriminate|reflexivity].
  - split; [reflexivity|]. split; [discriminate|intros ? H; discriminate].
Qed.

(** C8 (as the code has it).  The referrer is validated before the ping path is
    looked at.  For a request whose parsed listen path equals the ping path: when
    the referrer is accepted with key k, the reply is 200 with the JSON document
    of the keys Proxy Version (the server version), Configuration File, Log File
    and referrer (the key k); when the referrer is not accepted, the reply is
    the error envelope with status 403. *)
Theorem C8_ping_after_referrer (st : Server) (request : Request) (requestParts : RequestParts) :
  parseURLRequest (Proxy.r_url request) (listenURI cfg) = Ok requestParts ->
  listenPath requestParts = localPingURL cfg ->
  snd (processRequest urlParse settings cfg timeOfRequest selectError isEmptyObject st request)
  = match validatedReferrerFromReferrer urlParse settings (Some (headerReferrer request))
                                        (allowedReferrers cfg) with
    | Some key =>
        JSONResponse 200 (Fields [("Proxy Version", proxyVersion);
                                  ("Configuration File", "OK");
                                  ("Log File", "OK");
                                  ("referrer", key)])
    | None =>
        JSONResponse 403 (ErrorEnvelope 403 "Referrer not allowed" "Referrer not allowed"
                                        (Proxy.r_url request))
    end.
Proof.
  intros Hparse Hping. unfold processRequest. rewrite Hparse.
  destruct (validatedReferrerFromReferrer urlParse settings (Some (headerReferrer request))
                                          (allowedReferrers cfg)) as [key|]; [|reflexivity].
  rewrite Hping, String.eqb_refl. reflexivity.
Qed.

End Dispatcher.

Section DispatcherCases.
Import UrlFlexParser Configuration RateMeter Proxy Examples.

Variable isEmptyObject : object -> bool.

Lemma C6_limiter_replies_witness :
  let limiter := isUnderMeterCap (Some [usedRow]) None 1 appKey tiles in
  let result := processRequest urlParseExamples settings config 1 None isEmptyObjectExamples
                               (started [usedRow]) tilesRequest in
  snd limiter = Resolved (Boolean false)
  /\ rateMeter (fst result) = Some (fst limiter)
  /\ snd result = JSONResponse 429 (ErrorEnvelope 429 "Metered requests exceeded"
                                                  "Metered requests exceeded"
                                                  (Proxy.r_url tilesRequest)).
Proof.
  intros limiter result.
  assert (Hlimiter : snd limiter = Resolved (Boolean false)) by (vm_compute; reflexivity).
  pose proof (C6_limiter_replies urlParseExamples settings config 1 None isEmptyObjectExamples
                (started [usedRow]) tilesRequest
                {| listenPath := "/proxy";
                   proxyPath := "/tiles.example.com/ArcGIS/rest/services";
                   rquery := EmptyString; rprotocol := "http" |}
                appKey tiles (Some [usedRow])) as H.
  cbv zeta in H. fold limiter result in H.
  destruct H as (Hmeter & Hdeny & _).
  - vm_compute; reflexivity.
  - vm_compute; reflexivity.
  - vm_compute; discriminate.
  - intros echo Hecho. vm_compute in Hecho. discriminate.
  - vm_compute; discriminate.
  - vm_compute; reflexivity.
  - vm_compute; reflexivity.
  - vm_compute; reflexivity.
  - reflexivity.
  - split; [exact Hlimiter|]. split; [exact Hmeter|]. apply Hdeny. exact Hlimiter.
Defined.

Lemma C8_ping_after_referrer_witness :
  parseURLRequest "/ping" (listenURI config)
  = Ok {| listenPath := "/ping"; proxyPath := EmptyString;
          rquery := EmptyString; rprotocol := "*" |}
  /\ snd (processRequest urlParseExamples settings config 1 None isEmptyObjectExamples (started [])
                         (get_ "/ping" (Some "https://app.example.org/")))
     = JSONResponse 200 (Fields [("Proxy Version", "0.1.5");
                                 ("Configuration File", "OK");
                                 ("Log File", "OK");
                                 ("referrer", appKey)]).
Proof.
  split; [vm_compute; reflexivity|].
  rewrite (C8_ping_after_referrer urlParseExamples settings config 1 None isEmptyObjectExamples
             (started [])
             (get_ "/ping" (Some "https://app.example.org/"))
             {| listenPath := "/ping"; proxyPath := EmptyString;
                rquery := EmptyString; rprotocol := "*" |});
    vm_compute; reflexivity.
Defined.

(** C8 as worded fails: a ping whose Referer is not in the allow-list is
    answered with 403, not with the ping document. *)
Lemma C8_counterexample :
  option_map listenPath
             (match parseURLRequest "/ping" (listenURI config) with
              | Ok parts => Some parts
              | Throw _ => None
              end) = Some (localPingURL config)
  /\ snd (processRequest urlParseExamples settings config 1 None isEmptyObjectExamples (started [])
                         (get_ "/ping" (Some "https://evil.example.net/")))
     = JSONResponse 403 (ErrorEnvelope 403 "Referrer not allowed" "Referrer not allowed"
                                       "/ping").
Proof. split; vm_compute; reflexivity. Qed.

(** Without a row for the pair the limiter settles nothing. *)
Lemma isUnderMeterCap_without_row (t : Table) (now : number) (ref : string) (info : ServerUrl) :
  selectRow t ref (url info) = None ->
  isUnderMeterCap (Some t) None now ref info
  = (Some t, Uncaught (ReferenceError "url is not defined")).
Proof. intros H. unfold isUnderMeterCap. rewrite H. reflexivity. Qed.

(** C10.  Without a meter row for the pair, building the error message reads
    the undeclared variable url: the callback throws, the promise is never
    resolved, and the request is neither forwarded nor answered. *)
Theorem C10_missing_row :
  selectRow [] appKey (url tiles) = None
  /\ isUnderMeterCap (Some []) None 1 appKey tiles
     = (Some [], Uncaught (ReferenceError "url is not defined"))
  /\ snd (processRequest urlParseExamples settings config 1 None isEmptyObject (started [])
                         tilesRequest)
     = Fatal (ReferenceError "url is not defined").
Proof. repeat split; vm_compute; reflexivity. Qed.

End DispatcherCases.

(** ** Inspection of the response *)

Section ResponseInspection.
Import UrlFlexParser Configuration Proxy Examples.

Variable deflateSync gunzipSync : string -> result string.

Lemma len_zero (s : string) : (0 <? len s) = false -> s = EmptyString.
Proof.
  destruct s; [reflexivity|]. unfold len. cbn [String.length]. intros H.
  apply Z.ltb_ge in H. lia.
Qed.

(** The callback never asks for a new token when it is handed a text or a
    buffer: an empty text is falsy, and on anything else the property error is
    undefined, so reading its property code throws. *)
Lemma checkForMissingToken_text (s : string) :
  checkForMissingToken (Text s) <> Ok true.
Proof.
  unfold checkForMissingToken. cbn. destruct (String.eqb s EmptyString); cbn; discriminate.
Qed.

Lemma checkForMissingToken_buffer (b : string) :
  checkForMissingToken (Buffer b) <> Ok true.
Proof. unfold checkForMissingToken. cbn. discriminate. Qed.

(** Whatever the service answers, the inspection hands the text of the
    collected body on to the client: the branch that stands for the retry is
    never taken. *)
Lemma inspection_passes_body_on (contentEncoding : option string) (chunks : list string) :
  checkServerResponseForMissingToken deflateSync gunzipSync contentEncoding chunks
                                     checkForMissingToken
  = [Write (utf8Text (String.concat EmptyString chunks)); End_].
Proof.
  unfold checkServerResponseForMissingToken.
  set (buffer := String.concat EmptyString chunks).
  set (encoding := toLowerCase _).
  destruct (0 <? len buffer) eqn:E.
  - destruct (String.eqb encoding "deflate").
    + destruct (deflateSync buffer) as [b|e]; cbn; [|reflexivity].
      destruct b; reflexivity.
    + destruct (String.eqb encoding "gzip").
      * destruct (gunzipSync buffer) as [b|e]; cbn; [|reflexivity].
        destruct b; reflexivity.
      * cbn. pose proof (checkForMissingToken_text (utf8Text buffer)) as H.
        destruct (checkForMissingToken (Text (utf8Text buffer))) as [[|]|e];
          [congruence| |]; reflexivity.
  - apply len_zero in E. rewrite E. reflexivity.
Qed.

(** C2.  On a resource that may require a token, the error envelope with code
    498 reaches the client as it came from the service: the inspection reads
    body.error.code on the text of the body, the exception is caught, and the
    response is written through; no token is dropped or requested and the
    request is not sent again. *)
Theorem C2_error_envelope_is_passed_on :
  mayRequireToken secured = true
  /\ proxyResponseRewrite deflateSync gunzipSync (Some "application/json") None
                          (Some secured) [invalidTokenBody]
     = (Some "application/json", [Write invalidTokenBody; End_]).
Proof.
  split; [reflexivity|]. unfold proxyResponseRewrite.
  cbn [secured mayRequireToken]. rewrite inspection_passes_body_on. reflexivity.
Qed.

End ResponseInspection.

(** ** Referrers and hosts *)

Section Referrers.
Import UrlFlexParser Configuration Proxy.

Variable urlParse : string -> UrlObject.

Lemma cacheReferrers_any (entries : list string) (allowAny : bool) :
  snd (cacheReferrers urlParse entries allowAny)
  = allowAny || existsb (fun entry => String.eqb entry "*") entries.
Proof.
  revert allowAny. induction entries as [|entry rest IH]; intros allowAny; cbn.
  - rewrite orb_false_r. reflexivity.
  - unfold cacheReferrer. destruct (String.eqb entry "*"); cbn;
      specialize (IH (allowAny || true)) as IH1; specialize (IH (allowAny || false)) as IH2.
    + destruct (cacheReferrers urlParse rest (allowAny || true)) as [rs b]. cbn in *.
      rewrite IH1. destruct allowAny; reflexivity.
    + destruct (cacheReferrers urlParse rest (allowAny || false)) as [rs b]. cbn in *.
      rewrite IH2. destruct allowAny; reflexivity.
Qed.

(** C7.  When the configured allow-list contains the entry star, loading the
    configuration turns on the accept-any mode, and the validator then answers
    every referrer, empty or not, with the key star without looking at the
    list. *)
Theorem C7_any_referrer (section : ReferrerSection) (cUseHTTPS cMatchAllReferrer : option bool)
        (referrer : option string) :
  In "*" (referrerEntries section) ->
  let '(allowed, allowAny) := postParseAllowedReferrers urlParse section in
  validatedReferrerFromReferrer
    urlParse (setConfiguration cUseHTTPS cMatchAllReferrer (Some allowAny)) referrer allowed
  = Some "*".
Proof.
  intros Hin. unfold postParseAllowedReferrers.
  pose proof (cacheReferrers_any (referrerEntries section) false) as Hany.
  destruct (cacheReferrers urlParse (referrerEntries section) false) as [allowed allowAny].
  cbn [snd] in Hany. cbn [orb] in Hany.
  assert (allowAny = true) as ->.
  { rewrite Hany. apply existsb_exists. exists "*". split; [exact Hin|reflexivity]. }
  unfold validatedReferrerFromReferrer, setConfiguration. cbn. reflexivity.
Qed.

End Referrers.

Section ReferrerCases.
Import UrlFlexParser Configuration Proxy Examples.

Lemma C7_any_referrer_witness :
  In "*" (referrerEntries (ReferrerString "https://app.example.org,*"))
  /\ validatedReferrerFromReferrer
       urlParseExamples
       (setConfiguration
          (Some false) (Some true)
          (Some (snd (postParseAllowedReferrers
                        urlParseExamples (ReferrerString "https://app.example.org,*")))))
       (Some "https://evil.example.net/")
       (fst (postParseAllowedReferrers
               urlParseExamples (ReferrerString "https://app.example.org,*")))
     = Some "*".
Proof.
  assert (Hin : In "*" (referrerEntries (ReferrerString "https://app.example.org,*"))).
  { vm_compute. right. left. reflexivity. }
  split; [exact Hin|].
  pose proof (C7_any_referrer urlParseExamples (ReferrerString "https://app.example.org,*")
                              (Some false) (Some true) (Some "https://evil.example.net/") Hin)
    as H.
  destruct (postParseAllowedReferrers urlParseExamples
                                      (ReferrerString "https://app.example.org,*"))
    as [allowed allowAny].
  exact H.
Defined.

End ReferrerCases.

Section Hosts.
Import UrlFlexParser Statements.

Lemma segmentsMatch_Forall2 (ds rs : list string) :
  List.length ds = List.length rs ->
  (segmentsMatch ds rs = true <-> Forall2 segmentMatches ds rs).
Proof.
  revert rs. induction ds as [|d ds IH]; intros [|r rs] Hlen; try discriminate.
  - cbn. split; [constructor|reflexivity].
  - cbn in Hlen. injection Hlen as Hlen. cbn [segmentsMatch].
    destruct (String.eqb_spec d "*") as [Hstar|Hstar]; cbn [negb andb].
    + rewrite (IH rs Hlen). split.
      * intros H. constructor; [left; assumption|assumption].
      * intros H. inversion H; assumption.
    + destruct (String.eqb_spec d r) as [Heq|Hne]; cbn [negb].
      * rewrite (IH rs Hlen). split.
        -- intros H. constructor; [right; assumption|assumption].
        -- intros H. inversion H; assumption.
      * split; [discriminate|].
        intros H. inversion H as [|? ? ? ? [Hs|He] _]; subst; contradiction.
Qed.

(** X31. testDomainsMatch(pattern, host) succeeds exactly when both hosts
    split on the dot into the same number of segments and, at each position,
    the segment of the pattern is the star or the two segments are the same
    string, letter case included; so *.example.com matches www.example.com and
    matches neither deep.www.example.com nor WWW.example.com with a pattern in
    small letters. *)
Theorem testDomainsMatch_segments :
  (forall pattern host : string,
      testDomainsMatch pattern host = true
      <-> List.length (split "." pattern) = List.length (split "." host)
          /\ Forall2 segmentMatches (split "." pattern) (split "." host))
  /\ testDomainsMatch "*.example.com" "www.example.com" = true
  /\ testDomainsMatch "*.example.com" "deep.www.example.com" = false
  /\ testDomainsMatch "www.example.com" "WWW.example.com" = false.
Proof.
  split; [|repeat split; vm_compute; reflexivity].
  intros pattern host. unfold testDomainsMatch.
  destruct (Nat.eqb_spec (List.length (split "." pattern)) (List.length (split "." host)))
    as [Hlen|Hlen].
  - rewrite (segmentsMatch_Forall2 _ _ Hlen). tauto.
  - split; [discriminate|]. intros [H _]. contradiction.
Qed.

(** The resource matcher hands the host of the request to [testDomainsMatch] as
    the pattern and the configured host as the host: a star in the configured
    host is compared as a plain segment, whatever the rest of the two parts. *)
Lemma starred_resource_is_read_literally (request target : MatchParts) :
  m_hostname request = "www.example.com" ->
  m_hostname target = "*.example.com" ->
  parsedUrlPartsMatch request target = false.
Proof. intros Hrequest Htarget. unfold parsedUrlPartsMatch. now rewrite Hrequest, Htarget. Qed.

End Hosts.

Section HostCases.
Import UrlFlexParser Configuration RateMeter Proxy Examples.

Variable isEmptyObject : object -> bool.

(** C4.  The resource matcher hands the host of the request to
    testDomainsMatch where that function expects the pattern with the
    wildcards, and the host of the resource where it expects the host to test;
    it compares the segments letter case included.  So a resource that the
    configuration lists under *.example.com is not matched by a request for
    www.example.com, which is answered with 404, although the two hosts match
    by the words of the claim and testDomainsMatch accepts them in the order
    in which the referrer validator passes its hosts; and the resource of
    tiles.example.com is not matched by a request for TILES.example.com. *)
Theorem C4_wildcard_resource_is_not_matched :
  hostname (parseAndFixURLParts urlParseExamples (url wildcard)) = s_hostname wildcard
  /\ Spec.hostMatch (s_hostname wildcard) "www.example.com"
  /\ testDomainsMatch (s_hostname wildcard) "www.example.com" = true
  /\ parseURLRequest (Proxy.r_url wildcardRequest) (listenURI wildcardConfig)
     = Ok {| listenPath := "/proxy"; proxyPath := "/www.example.com/maps";
             rquery := EmptyString; rprotocol := "http" |}
  /\ requestedUrlParts urlParseExamples
                       {| listenPath := "/proxy"; proxyPath := "/www.example.com/maps";
                          rquery := EmptyString; rprotocol := "http" |}
     = {| m_hostname := "www.example.com"; m_protocol := "http"; m_path := "/maps";
          m_matchAll := false |}
  /\ getServerUrlInfo urlParseExamples wildcardConfig
                      {| listenPath := "/proxy"; proxyPath := "/www.example.com/maps";
                         rquery := EmptyString; rprotocol := "http" |}
     = None
  /\ snd (processRequest urlParseExamples settings wildcardConfig 1 None isEmptyObject
                         (started []) wildcardRequest)
     = JSONResponse 404 (ErrorEnvelope 404 "Resource not found" "Resource not found"
                                       "/proxy/http/www.example.com/maps")
  /\ Spec.hostMatch (s_hostname tiles) "TILES.example.com"
  /\ snd (processRequest urlParseExamples settings config 1 None isEmptyObject
                         (started freshTable)
                         (get_ "/proxy/http/TILES.example.com/ArcGIS/rest/services"
                               (Some "https://app.example.org/")))
     = JSONResponse 404 (ErrorEnvelope 404 "Resource not found" "Resource not found"
                                       "/proxy/http/TILES.example.com/ArcGIS/rest/services").
Proof.
  assert (Hmatch : forall pattern host,
             List.length (split "." pattern) = List.length (split "." host) ->
             Forall2 (fun p h => p = "*" \/ toLowerCase p = toLowerCase h)
                     (split "." pattern) (split "." host) ->
             Spec.hostMatch pattern host)
    by (intros pattern host H1 H2; split; assumption).
  split; [vm_compute; reflexivity|].
  split; [apply Hmatch; [reflexivity|]; cbn; repeat constructor; right; reflexivity|].
  split; [vm_compute; reflexivity|]. split; [vm_compute; reflexivity|].
  split; [vm_compute; reflexivity|]. split; [vm_compute; reflexivity|].
  split; [vm_compute; reflexivity|].
  split; [apply Hmatch; [reflexivity|]; cbn; repeat constructor; right; reflexivity|].
  vm_compute; reflexivity.
Qed.

End HostCases.

(** ** Strings *)

Section StringFacts.

Lemma append_empty_r (s : string) : s ++ EmptyString = s.
Proof. induction s as [|c s IH]; cbn; [reflexivity|rewrite IH; reflexivity]. Qed.

Lemma append_assoc (a b c : string) : (a ++ b) ++ c = a ++ b ++ c.
Proof. induction a as [|x a IH]; cbn; [reflexivity|rewrite IH; reflexivity]. Qed.

Lemma length_append (a b : string) :
  String.length (a ++ b) = (String.length a + String.length b)%nat.
Proof. induction a as [|x a IH]; cbn; [reflexivity|rewrite IH; reflexivity]. Qed.

Lemma drop_app (a b : string) : drop (String.length a) (a ++ b) = b.
Proof. induction a as [|x a IH]; cbn; [reflexivity|exact IH]. Qed.

Lemma drop_drop (n m : nat) (s : string) : drop n (drop m s) = drop (m + n) s.
Proof.
  revert s. induction m as [|m IH]; intros s; cbn; [reflexivity|].
  destruct s as [|c s]; [destruct n; reflexivity|apply IH].
Qed.

Lemma take_app (a b : string) : take (String.length a) (a ++ b) = a.
Proof. induction a as [|x a IH]; cbn; [destruct b; reflexivity|rewrite IH; reflexivity]. Qed.

Lemma substr_nat (s : string) (n : nat) : substr s (Z.of_nat n) = drop n s.
Proof.
  unfold substr, substrStart.
  destruct (Z.of_nat n <? 0) eqn:E; [apply Z.ltb_lt in E; lia|].
  rewrite Nat2Z.id. reflexivity.
Qed.

Lemma startsWithHere_app (p s : string) : startsWithHere p (p ++ s) = true.
Proof.
  induction p as [|c p IH]; cbn; [reflexivity|].
  rewrite Ascii.eqb_refl, IH. reflexivity.
Qed.

Lemma startsWithHere_split (p s : string) :
  startsWithHere p s = true -> exists rest, s = p ++ rest.
Proof.
  revert s. induction p as [|c p IH]; intros s H; cbn in *.
  - exists s. reflexivity.
  - destruct s as [|d s]; [discriminate|].
    apply andb_true_iff in H. destruct H as [Hc Hp].
    apply Ascii.eqb_eq in Hc. subst d.
    destruct (IH s Hp) as [rest ->]. exists rest. reflexivity.
Qed.

(** An occurrence found by [find] starts with the needle. *)
Lemma find_occurrence (needle s : string) (n : nat) :
  find needle s = Some n -> startsWithHere needle (drop n s) = true.
Proof.
  revert n. induction s as [|c s IH]; intros n; cbn [find].
  - destruct (startsWithHere needle EmptyString) eqn:E; [|discriminate].
    intros H. injection H as <-. exact E.
  - destruct (startsWithHere needle (String c s)) eqn:E.
    + intros H. injection H as <-. exact E.
    + destruct (find needle s) as [m|]; [|discriminate].
      cbn. intros H. injection H as <-. cbn. apply IH. reflexivity.
Qed.

(** The first occurrence of a character that [x] lacks, in [x] followed by it. *)
Lemma find_char_after (c : ascii) (x rest : string) :
  find (str1 c) x = None -> find (str1 c) (x ++ String c rest) = Some (String.length x).
Proof.
  induction x as [|d x IH]; cbn [find append String.length].
  - intros _. cbn. rewrite Ascii.eqb_refl. reflexivity.
  - cbn [startsWithHere str1]. destruct (Ascii.eqb c d); cbn [andb].
    + discriminate.
    + destruct (find (str1 c) x) as [m|] eqn:E; [discriminate|].
      intros _. rewrite IH; reflexivity.
Qed.

(** A text with a character that is not white space does not trim to nothing. *)
Lemma trimEnd_keeps (b : string) (c : ascii) (r : string) :
  isWhiteSpace c = false -> trimEnd (b ++ String c r) <> EmptyString.
Proof.
  intros Hc. induction b as [|d b IH]; cbn [append trimEnd].
  - destruct (trimEnd r); [rewrite Hc|]; discriminate.
  - destruct (trimEnd (b ++ String c r)); [contradiction|discriminate].
Qed.

Lemma trimStart_keeps (b : string) (c : ascii) (r : string) :
  isWhiteSpace c = false -> exists b', trimStart (b ++ String c r) = b' ++ String c r.
Proof.
  intros Hc. induction b as [|d b IH]; cbn [append trimStart].
  - rewrite Hc. exists EmptyString. reflexivity.
  - destruct (isWhiteSpace d); [exact IH|].
    exists (String d b). reflexivity.
Qed.

Lemma trim_keeps (b : string) (c : ascii) (r : string) :
  isWhiteSpace c = false -> (0 <? len (trim (b ++ String c r))) = true.
Proof.
  intros Hc. unfold trim. destruct (trimStart_keeps b c r Hc) as [b' ->].
  pose proof (trimEnd_keeps b' c r Hc) as H.
  destruct (trimEnd (b' ++ String c r)); [contradiction|].
  unfold len. cbn [String.length]. apply Z.ltb_lt. lia.
Qed.

End StringFacts.

(** ** Token extraction *)

Section TokenExtraction.
Import ProjectUtilities Statements.

(** The pattern of the query-string form is found wherever the token with its
    equals sign occurs: at its first occurrence, or one character earlier when
    a question mark, an ampersand or a slash stands there. *)
Lemma searchQueryForm_of_find (tokenEq s : string) (n : nat) :
  find tokenEq s = Some n ->
  exists i, searchQueryForm tokenEq s = Some i
            /\ (drop i s = drop n s
                \/ exists c, isTokenLead c = true /\ drop i s = String c (drop n s)).
Proof.
  revert n. induction s as [|a s IH]; intros n; cbn [find].
  - destruct (startsWithHere tokenEq EmptyString) eqn:E; [|discriminate].
    intros H. injection H as <-. exists O. cbn. rewrite E. split; [reflexivity|left; reflexivity].
  - destruct (startsWithHere tokenEq (String a s)) eqn:E.
    + intros H. injection H as <-. exists O. cbn [searchQueryForm queryFormHere].
      rewrite E, orb_true_r. split; [reflexivity|left; reflexivity].
    + destruct (find tokenEq s) as [m|] eqn:F; [|discriminate].
      cbn. intros H. injection H as <-.
      cbn [searchQueryForm queryFormHere]. rewrite E, orb_false_r.
      destruct (isTokenLead a && startsWithHere tokenEq s) eqn:L.
      * apply andb_true_iff in L. destruct L as [La Ls].
        assert (m = O) as ->.
        { destruct s; cbn in F; rewrite Ls in F; injection F as <-; reflexivity. }
        exists O. split; [reflexivity|]. right. exists a. split; [exact La|reflexivity].
      * destruct (IH m eq_refl) as (i & Hi & Hdrop). exists (S i). rewrite Hi.
        split; [reflexivity|]. cbn [drop]. exact Hdrop.
Qed.

Lemma searchQueryForm_none (tokenEq s : string) :
  find tokenEq s = None -> searchQueryForm tokenEq s = None.
Proof.
  induction s as [|a s IH]; cbn [find searchQueryForm queryFormHere].
  - destruct (startsWithHere tokenEq EmptyString); [discriminate|reflexivity].
  - destruct (startsWithHere tokenEq (String a s)); [discriminate|].
    destruct (find tokenEq s) as [m|] eqn:F; [discriminate|]. intros _.
    rewrite orb_false_r.
    destruct (startsWithHere tokenEq s) eqn:Hs.
    + destruct s; cbn in F; rewrite Hs in F; discriminate.
    + rewrite andb_false_r, (IH eq_refl). reflexivity.
Qed.

Lemma isTokenLead_cases (c : ascii) :
  isTokenLead c = true -> c = "?"%char \/ c = "&"%char \/ c = "/"%char.
Proof.
  unfold isTokenLead. intros H.
  apply orb_true_iff in H. destruct H as [H|H]; [apply orb_true_iff in H; destruct H as [H|H]|];
    apply Ascii.eqb_eq in H; auto.
Qed.

(** The cut from the equals sign to the next ampersand or the end. *)
Lemma cut_value (X after : string) :
  X <> EmptyString -> find "&" X = None ->
  (after = EmptyString \/ exists rest, after = String "&" rest) ->
  (let value := X ++ after in
   let found := indexOf value "&" in
   if 0 <? found then substr2 value 0 found else value) = X.
Proof.
  intros HX Hamp [->|[rest ->]]; cbn zeta.
  - rewrite append_empty_r. unfold indexOf. rewrite Hamp. reflexivity.
  - unfold indexOf. change "&" with (str1 "&") in Hamp |- *.
    rewrite (find_char_after "&" X rest Hamp).
    destruct X as [|x X]; [contradiction|].
    assert (E : (0 <? Z.of_nat (String.length (String x X))) = true)
      by (apply Z.ltb_lt; cbn [String.length]; lia).
    rewrite E. unfold substr2, substrStart. cbn [Z.ltb Z.compare Z.to_nat drop].
    rewrite Nat2Z.id. apply take_app.
Qed.

(** C3 (as the code has it).  The query-string form is tried first and is
    recognised by token= alone (a question mark, ampersand or slash before it
    is optional): when the first occurrence of token= in the source is followed
    by a value X that is not empty and has no ampersand, and then by an
    ampersand or the end, extraction returns exactly X.  The JSON form is used
    only when token= does not occur: when the first occurrence of the quoted
    key token with its colon is followed, after characters other than double
    quotes (white space for one), by X between double quotes, extraction
    returns exactly X. *)
Theorem C3_token_extraction (source X : string) :
  queryForm source X \/ jsonForm source X ->
  findTokenInString source "token" = X.
Proof.
  intros [Hq|Hj].
  - destruct Hq as (before & after & Hsrc & Hfind & HX & Hamp & Hafter).
    unfold findTokenInString.
    assert (Htrim : (0 <? len (trim source)) = true).
    { rewrite Hsrc. apply (trim_keeps before "t" ("oken=" ++ X ++ after)). reflexivity. }
    rewrite Htrim. cbn [andb]. change ((0 <? len (trim "token")) && true) with true.
    change (if 0 <? len (trim "token") then ?a else ?b) with a.
    change ("token" ++ "=") with "token=".
    destruct (searchQueryForm_of_find "token=" source _ Hfind) as (i & Hi & Hdrop).
    rewrite Hi. rewrite substr_nat.
    assert (Hn : drop (String.length before) source = "token=" ++ X ++ after).
    { rewrite Hsrc. apply drop_app. }
    rewrite Hn in Hdrop.
    destruct Hdrop as [->|(c & Hc & ->)].
    + change (indexOf ("token=" ++ X ++ after) "=") with 5.
      change (0 <=? 5) with true. cbn iota.
      change (substr ("token=" ++ X ++ after) (5 + 1)) with (X ++ after).
      apply cut_value; assumption.
    + assert (E : indexOf (String c ("token=" ++ X ++ after)) "=" = 6).
      { destruct (isTokenLead_cases c Hc) as [->|[->| ->]]; reflexivity. }
      rewrite E. change (0 <=? 6) with true. cbn iota.
      change (substr (String c ("token=" ++ X ++ after)) (6 + 1)) with (X ++ after).
      apply cut_value; assumption.
  - destruct Hj as (Hnone & before & gap & after & Hsrc & Hfind & Hgap & HX).
    unfold findTokenInString.
    assert (Htrim : (0 <? len (trim source)) = true).
    { rewrite Hsrc. unfold tokenKey.
      apply (trim_keeps before dquote
                        ("token" ++ str1 dquote ++ ":" ++ gap ++ str1 dquote ++ X
                                 ++ str1 dquote ++ after)).
      reflexivity. }
    rewrite Htrim. cbn [andb].
    change (if 0 <? len (trim "token") then ?a else ?b) with a.
    change ("token" ++ "=") with "token=".
    rewrite (searchQueryForm_none _ _ Hnone).
    fold tokenKey. unfold indexOf. rewrite Hfind.
    assert (E : (0 <=? Z.of_nat (String.length before)) = true) by (apply Z.leb_le; lia).
    rewrite E.
    replace (Z.of_nat (String.length before) + len tokenKey)
      with (Z.of_nat (String.length before + String.length tokenKey))
      by (unfold len; lia).
    rewrite substr_nat.
    assert (Hrest : drop (String.length before + String.length tokenKey) source
                    = gap ++ String dquote (X ++ String dquote after)).
    { rewrite Hsrc, <- drop_drop, drop_app, drop_app. reflexivity. }
    rewrite Hrest. unfold matchQuoted.
    rewrite (find_char_after dquote gap _ Hgap).
    replace (drop (S (String.length gap)) (gap ++ String dquote (X ++ String dquote after)))
      with (X ++ String dquote after).
    2:{ change (S (String.length gap)) with (1 + String.length gap)%nat.
        rewrite Nat.add_comm, <- drop_drop, drop_app. reflexivity. }
    rewrite (find_char_after dquote X _ HX). apply take_app.
Qed.

End TokenExtraction.

Section TokenExtractionCases.
Import ProjectUtilities Statements Examples.

Lemma C3_token_extraction_witness :
  queryForm "f=json&token=abc&x=1" "abc"
  /\ findTokenInString "f=json&token=abc&x=1" "token" = "abc".
Proof.
  assert (H : queryForm "f=json&token=abc&x=1" "abc").
  { exists "f=json&", "&x=1". repeat split; try reflexivity; try discriminate.
    right. exists "x=1". reflexivity. }
  split; [exact H|]. apply C3_token_extraction. left. exact H.
Defined.

(** C3 as worded fails: a body that contains the JSON payload of the token X,
    after a quoted address with token= in it, yields the text that follows that
    earlier token= and not X. *)
Lemma C3_counterexample :
  Spec.occursIn (Spec.jsonPayload "X") mixedPayload
  /\ findTokenInString mixedPayload "token" <> "X".
Proof.
  split.
  - exists ("{" ++ str1 dquote ++ "next" ++ str1 dquote ++ ":" ++ str1 dquote ++ "/a?token=old"
                ++ str1 dquote ++ "," ++ str1 dquote ++ "data" ++ str1 dquote ++ ":"), "}".
    vm_compute. reflexivity.
  - vm_compute. discriminate.
Qed.

End TokenExtractionCases.

(** ** Objects *)

Section ObjectFacts.
Import Statements.

Lemma get_put (o : object) (k v k' : string) :
  get (put o k v) k' = if String.eqb k k' then Some v else get o k'.
Proof.
  induction o as [|[a b] o IH]; cbn [put get].
  - destruct (String.eqb k k'); reflexivity.
  - destruct (String.eqb_spec a k) as [->|Hak]; cbn [get].
    + destruct (String.eqb k k'); reflexivity.
    + rewrite IH. destruct (String.eqb_spec a k') as [->|Hak']; [|reflexivity].
      destruct (String.eqb_spec k k'); [congruence|reflexivity].
Qed.

Lemma get_set (o : object) (k v k' : string) :
  k <> "__proto__" ->
  get (set o k v) k' = if String.eqb k k' then Some v else get o k'.
Proof.
  intros Hk. unfold set. apply String.eqb_neq in Hk. rewrite Hk. apply get_put.
Qed.

Lemma get_none (o : object) (k : string) : get o k = None <-> ~ In k (map fst o).
Proof.
  induction o as [|[a b] o IH]; cbn [get map fst In]; [tauto|].
  destruct (String.eqb_spec a k) as [->|Hak].
  - split; [discriminate|]. intros H. exfalso. apply H. left. reflexivity.
  - rewrite IH. split; [intros H [E|E]; [congruence|contradiction]|tauto].
Qed.

Lemma get_In (o : object) (k v : string) :
  NoDup (map fst o) -> (get o k = Some v <-> In (k, v) o).
Proof.
  induction o as [|[a b] o IH]; cbn [get map fst In]; intros Hnd.
  - split; [discriminate|contradiction].
  - inversion Hnd as [|? ? Hnotin Hnd']; subst.
    destruct (String.eqb_spec a k) as [->|Hak].
    + split.
      * intros H. injection H as ->. left. reflexivity.
      * intros [H|H]; [injection H as ->; reflexivity|].
        exfalso. apply Hnotin. apply (in_map fst) in H. exact H.
    + rewrite (IH Hnd'). split; [auto|]. intros [H|H]; [congruence|exact H].
Qed.

Lemma put_same (o : object) (k v : string) : get o k = Some v -> put o k v = o.
Proof.
  induction o as [|[a b] o IH]; cbn [get put]; [discriminate|].
  destruct (String.eqb a k); [intros H; injection H as ->; reflexivity|].
  intros H. rewrite (IH H). reflexivity.
Qed.

Lemma put_absent (o : object) (k v : string) :
  get o k = None -> put o k v = (o ++ [(k, v)])%list.
Proof.
  induction o as [|[a b] o IH]; cbn [get put]; [reflexivity|].
  destruct (String.eqb a k); [discriminate|]. intros H. rewrite (IH H). reflexivity.
Qed.

Lemma put_keys (o : object) (k v : string) :
  map fst (put o k v) = if has o k then map fst o else (map fst o ++ [k])%list.
Proof.
  unfold has. destruct (get o k) as [w|] eqn:E.
  - revert E. induction o as [|[a b] o IH]; cbn [get put map fst]; [discriminate|].
    destruct (String.eqb a k); [reflexivity|]. intros E. cbn [map fst]. rewrite (IH E).
    reflexivity.
  - rewrite (put_absent _ _ _ E), map_app. reflexivity.
Qed.

Lemma set_wellFormed (o : object) (k v : string) : wellFormed o -> wellFormed (set o k v).
Proof.
  intros [Hnd Hproto]. unfold set.
  destruct (String.eqb_spec k "__proto__") as [Hk|Hk]; [split; assumption|].
  unfold wellFormed. rewrite put_keys. unfold has.
  destruct (get o k) eqn:E; [split; assumption|].
  apply get_none in E. split.
  - apply NoDup_app; [assumption|repeat constructor; auto| ].
    intros x Hx [Hx'|[]]. subst. contradiction.
  - intros H. apply in_app_or in H. destruct H as [H|[H|[]]]; [contradiction|congruence].
Qed.

Lemma insertIndexed_perm (e : Z * (string * string)) (l : list (Z * (string * string))) :
  Permutation (insertIndexed e l) (e :: l).
Proof.
  induction l as [|e' l IH]; cbn [insertIndexed]; [reflexivity|].
  destruct (fst e <? fst e'); [reflexivity|].
  rewrite IH. apply perm_swap.
Qed.

Lemma indexedEntries_perm (o : object) :
  Permutation (map snd (indexedEntries o)) (filter isIndexed o).
Proof.
  induction o as [|[k v] o IH]; cbn [indexedEntries filter]; [reflexivity|].
  unfold isIndexed at 1. cbn [fst]. destruct (arrayIndex k) as [n|]; [|exact IH].
  rewrite insertIndexed_perm. cbn [map snd]. apply perm_skip. exact IH.
Qed.

(** Enumeration visits every own property once. *)
Lemma forIn_perm (o : object) : Permutation (forIn o) o.
Proof.
  unfold forIn. rewrite indexedEntries_perm. unfold namedEntries.
  induction o as [|kv o IH]; cbn [filter]; [reflexivity|].
  unfold isIndexed at 1. destruct (arrayIndex (fst kv)); cbn [app].
  - apply perm_skip. exact IH.
  - apply Permutation_sym, Permutation_cons_app, Permutation_sym. exact IH.
Qed.

Lemma forIn_get (o : object) (k : string) :
  NoDup (map fst o) -> get (forIn o) k = get o k.
Proof.
  intros Hnd.
  assert (Hnd' : NoDup (map fst (forIn o))).
  { apply (Permutation_NoDup (l := map fst o)); [|exact Hnd].
    apply Permutation_map, Permutation_sym, forIn_perm. }
  destruct (get o k) as [v|] eqn:E.
  - apply (get_In _ _ _ Hnd'). apply (Permutation_in _ (Permutation_sym (forIn_perm o))).
    apply (get_In _ _ _ Hnd). exact E.
  - destruct (get (forIn o) k) as [v|] eqn:E'; [|reflexivity].
    apply (get_In _ _ _ Hnd') in E'. apply (Permutation_in _ (forIn_perm o)) in E'.
    apply (get_In _ _ _ Hnd) in E'. congruence.
Qed.

(** Without array-index keys, enumeration follows the order of creation. *)
Lemma forIn_named (o : object) :
  Forall (fun k => arrayIndex k = None) (map fst o) -> forIn o = o.
Proof.
  unfold forIn, namedEntries. intros H.
  assert (H1 : indexedEntries o = []).
  { induction o as [|[k v] o IH]; cbn [indexedEntries]; [reflexivity|].
    cbn [map fst] in H. inversion H as [|? ? Hk Ho]; subst. rewrite Hk. auto. }
  rewrite H1. cbn [map app].
  induction o as [|[k v] o IH]; cbn [filter]; [reflexivity|].
  cbn [map fst] in H. inversion H as [|? ? Hk Ho]; subst. cbn [fst]. rewrite Hk.
  cbn [indexedEntries] in H1. rewrite Hk in H1. rewrite (IH Ho H1). reflexivity.
Qed.

(** The loop of [combineParameters] runs when the object of the request has no
    own property named hasOwnProperty; the parameters of the request then win. *)
Lemma overlay_get (configured requested : object) :
  wellFormed requested -> has requested "hasOwnProperty" = false ->
  exists merged,
    UrlFlexParser.overlay configured requested = Ok merged
    /\ forall k, get merged k = match get requested k with
                                | Some v => Some v
                                | None => get configured k
                                end.
Proof.
  intros [Hnd Hproto] Hhas. unfold UrlFlexParser.overlay, hasOwnPropertyCallable.
  rewrite Hhas. cbn [bind].
  assert (Hfold : forall k entries c,
             NoDup (map fst entries) -> ~ In "__proto__" (map fst entries) ->
             get (fold_left (fun acc kv => set acc (fst kv) (snd kv)) entries c) k
             = match get entries k with Some v => Some v | None => get c k end).
  { intros k. induction entries as [|[a b] entries IH]; intros c Hn Hp;
      cbn [fold_left get]; [reflexivity|].
    cbn [map fst] in Hn, Hp. inversion Hn as [|? ? Hnotin Hn']; subst.
    rewrite IH; [|assumption|intros H; apply Hp; right; exact H]. cbn [fst snd].
    rewrite get_set by (intros ->; apply Hp; left; reflexivity).
    destruct (String.eqb_spec a k) as [->|Hak]; [|reflexivity].
    apply get_none in Hnotin. rewrite Hnotin. reflexivity. }
  assert (Hnd' : NoDup (map fst (forIn requested))).
  { apply (Permutation_NoDup (l := map fst requested)); [|exact Hnd].
    apply Permutation_map, Permutation_sym, forIn_perm. }
  assert (Hproto' : ~ In "__proto__" (map fst (forIn requested))).
  { intros H. apply Hproto.
    apply (Permutation_in _ (Permutation_map fst (forIn_perm requested))). exact H. }
  assert (Hall : forall k,
             get (fold_left (fun acc kv => set acc (fst kv) (snd kv))
                            (forIn requested) configured) k
             = match get requested k with Some v => Some v | None => get configured k end).
  { intros k. rewrite (Hfold k _ _ Hnd' Hproto'), (forIn_get _ _ Hnd). reflexivity. }
  destruct (forIn requested) as [|e entries] eqn:E.
  - exists configured. split; [reflexivity|]. exact Hall.
  - eexists. split; [reflexivity|]. exact Hall.
Qed.

Lemma assignMatches_wellFormed (ms : list (string * string)) :
  forall acc o, wellFormed acc -> ProjectUtilities.assignMatches ms acc = Ok o -> wellFormed o.
Proof.
  induction ms as [|[k v] ms IH]; intros acc o Hwf; cbn [ProjectUtilities.assignMatches].
  - intros H. injection H as <-. exact Hwf.
  - destruct (ProjectUtilities.decode k) as [k'|]; cbn [bind]; [|discriminate].
    destruct (ProjectUtilities.decode v) as [v'|]; cbn [bind]; [|discriminate].
    apply IH. apply set_wellFormed. exact Hwf.
Qed.

Lemma queryStringToObject_wellFormed (q : string) (o : object) :
  ProjectUtilities.queryStringToObject q = Ok o -> wellFormed o.
Proof.
  unfold ProjectUtilities.queryStringToObject. apply assignMatches_wellFormed.
  split; [constructor|intros []].
Qed.

End ObjectFacts.

(** ** Parameter merging *)

Section ParameterMerge.
Import ProjectUtilities UrlFlexParser Configuration Proxy Statements.

Lemma addIfPropertyNotSet_token (o : object) (tok k : string) :
  get (addIfPropertyNotSet o "token" tok) k = withToken tok k (get o k).
Proof.
  unfold addIfPropertyNotSet, withToken.
  destruct (String.eqb_spec k "token") as [->|Hk].
  - destruct (get o "token") as [v|] eqn:E.
    + destruct (len (trim v) =? 0); [|exact E].
      rewrite get_set by discriminate. reflexivity.
    + rewrite get_set by discriminate. reflexivity.
  - assert (Hk' : String.eqb "token" k = false) by (apply String.eqb_neq; congruence).
    destruct (get o "token") as [v|]; [destruct (len (trim v) =? 0)|];
      try reflexivity; rewrite get_set by discriminate; rewrite Hk'; reflexivity.
Qed.

(** X32. For a GET request, when the configured query of the resource and the
    query of the request both parse and the request has no parameter named
    hasOwnProperty, the object of parameters that processValidatedRequest
    computes is the configured query, parsed as a map, overlaid with the
    parameters of the request (the value of the request wins on a shared key).
    When the resource has an access token, or else a token, that is set, the
    token parameter carries it exactly when the merged map has no token key or
    has one whose value is blank; a resource with neither adds nothing. *)
Theorem requestParameters_merge
        (urlRequestedParts : RequestParts) (info : ServerUrl) (request : Request)
        (configured requested : object) :
  method request = "GET" ->
  queryStringToObject (orEmpty (s_query info)) = Ok configured ->
  queryStringToObject (rquery urlRequestedParts) = Ok requested ->
  has requested "hasOwnProperty" = false ->
  exists parameters,
    requestParameters urlRequestedParts info request = Ok parameters
    /\ forall k,
        let merged := match get requested k with
                      | Some v => Some v
                      | None => get configured k
                      end in
        get parameters k
        = match configuredToken (accessToken info) (token info) with
          | Some tok => withToken tok k merged
          | None => merged
          end.
Proof.
  intros Hmethod Hconfigured Hrequested Hown.
  assert (Hcombined :
            exists merged,
              combineParameters (method request) (r_query request) (rquery urlRequestedParts)
                                (s_query info) = Ok merged
              /\ forall k, get merged k = match get requested k with
                                          | Some v => Some v
                                          | None => get configured k
                                          end).
  { unfold combineParameters. rewrite Hmethod.
    cbn [String.eqb Ascii.eqb Bool.eqb andb].
    assert (Hc : (if negb (isNullOrEmpty (s_query info))
                  then queryStringToObject (orEmpty (s_query info))
                  else Ok []) = Ok configured).
    { destruct (s_query info) as [q|]; cbn [isNullOrEmpty orEmpty negb] in *.
      - destruct (String.eqb_spec q EmptyString) as [->|Hq]; cbn [negb]; assumption.
      - exact Hconfigured. }
    rewrite Hc. cbn [bind].
    destruct (0 <? len (rquery urlRequestedParts)) eqn:Hlen.
    - rewrite Hrequested. cbn [bind].
      destruct (overlay_get configured requested
                            (queryStringToObject_wellFormed _ _ Hrequested) Hown)
        as (merged & Hmerged & Hget).
      rewrite Hmerged. exists merged. split; [reflexivity | exact Hget].
    - apply len_zero in Hlen. rewrite Hlen in Hrequested.
      injection Hrequested as <-. exists configured. split; reflexivity. }
  destruct Hcombined as (merged & Hmerged & Hget).
  unfold requestParameters, configuredToken. rewrite Hmerged. cbn [bind].
  destruct (isPropertySet (accessToken info)) eqn:Ea.
  { destruct (accessToken info) as [tok|]; [|discriminate].
    eexists. split; [reflexivity|].
    intros k. cbn [orEmpty]. rewrite addIfPropertyNotSet_token, Hget. reflexivity. }
  destruct (isPropertySet (token info)) eqn:Et.
  - destruct (token info) as [tok|]; [|discriminate].
    eexists. split; [reflexivity|].
    intros k. cbn [orEmpty]. rewrite addIfPropertyNotSet_token, Hget. reflexivity.
  - exists merged. split; [reflexivity|]. intros k. cbn zeta. apply Hget.
Qed.

End ParameterMerge.

Section ParameterMergeCases.
Import ProjectUtilities UrlFlexParser Configuration Proxy Statements Examples.

Variable isEmptyObject : object -> bool.

Lemma requestParameters_merge_witness :
  queryStringToObject "f=json" = Ok [("f", "json")]
  /\ queryStringToObject "x=1&f=pjson" = Ok [("x", "1"); ("f", "pjson")]
  /\ configuredToken (accessToken secured) (token secured) = Some "T"
  /\ exists parameters,
      requestParameters (partsWith "x=1&f=pjson") secured
                        (get_ "/proxy/http/tiles.example.com/ArcGIS/rest/services?x=1&f=pjson"
                              None)
      = Ok parameters
      /\ get parameters "f" = Some "pjson"
      /\ get parameters "x" = Some "1"
      /\ get parameters "token" = Some "T".
Proof.
  split; [reflexivity|]. split; [reflexivity|]. split; [reflexivity|].
  destruct (requestParameters_merge
              (partsWith "x=1&f=pjson") secured
              (get_ "/proxy/http/tiles.example.com/ArcGIS/rest/services?x=1&f=pjson" None)
              [("f", "json")] [("x", "1"); ("f", "pjson")]
              eq_refl eq_refl eq_refl eq_refl)
    as (parameters & Hparameters & Hget).
  exists parameters. split; [exact Hparameters|].
  cbn zeta in Hget. rewrite !Hget. repeat split; reflexivity.
Defined.

(** A request that sends an empty token parameter has a token key in the
    merged map, and the static access token is filled in all the same. *)
Remark blank_token_is_replaced :
  combineParameters "GET" None "token=&x=1" (s_query secured)
  = Ok [("f", "json"); ("token", EmptyString); ("x", "1")]
  /\ requestParameters (partsWith "token=&x=1") secured
                       (get_ "/proxy/http/tiles.example.com/ArcGIS/rest/services?token=&x=1"
                             None)
     = Ok [("f", "json"); ("token", "T"); ("x", "1")].
Proof. split; vm_compute; reflexivity. Qed.


End ParameterMergeCases.

(** ** Query strings *)

Section QueryStrings.
Import ProjectUtilities UrlFlexParser Statements.

Lemma allChars_app (p : ascii -> bool) (a b : string) :
  allChars p (a ++ b) = allChars p a && allChars p b.
Proof.
  induction a as [|c a IH]; cbn [append allChars]; [reflexivity|].
  rewrite IH, andb_assoc. reflexivity.
Qed.

Lemma coded_char (c : ascii) :
  isCoded c = true ->
  isAmp c = false /\ isEq c = false /\ Ascii.eqb c "+" = false /\ c <> "?"%char.
Proof.
  destruct c as [[] [] [] [] [] [] [] []]; intros H; try discriminate H;
    repeat split; discriminate.
Qed.

(** *** Percent coding, one character at a time *)

Lemma encode_cons (c : ascii) (r : string) :
  encodeURIComponent (String c r) = encodeURIComponent (str1 c) ++ encodeURIComponent r.
Proof.
  unfold str1. cbn [encodeURIComponent]. rewrite append_empty_r. reflexivity.
Qed.

Lemma encode_char_coded (c : ascii) : allChars isCoded (encodeURIComponent (str1 c)) = true.
Proof. destruct c as [[] [] [] [] [] [] [] []]; vm_compute; reflexivity. Qed.

Lemma encode_char_length (c : ascii) :
  (1 <= String.length (encodeURIComponent (str1 c)))%nat.
Proof.
  unfold str1. cbn [encodeURIComponent]. rewrite append_empty_r.
  destruct (isUnreserved c); [cbn; lia|].
  destruct (code c <? 128); [cbn; lia|]. rewrite length_append. cbn. lia.
Qed.

Lemma decode_encode_char (c : ascii) (r : string) (fuel : nat) :
  decodeWith (fun _ => false) (S fuel) (encodeURIComponent (str1 c) ++ r)
  = bind (decodeWith (fun _ => false) fuel r) (fun rest => Ok (String c rest)).
Proof. destruct c as [[] [] [] [] [] [] [] []]; reflexivity. Qed.

Lemma encode_coded (s : string) : codedText (encodeURIComponent s).
Proof.
  unfold codedText. induction s as [|c s IH]; [reflexivity|].
  rewrite encode_cons, allChars_app, encode_char_coded, IH. reflexivity.
Qed.

Lemma encode_length (s : string) :
  (String.length s <= String.length (encodeURIComponent s))%nat.
Proof.
  induction s as [|c s IH]; [cbn; lia|].
  rewrite encode_cons, length_append. pose proof (encode_char_length c).
  cbn [String.length]. lia.
Qed.

Lemma encode_nonempty (s : string) : s <> EmptyString -> encodeURIComponent s <> EmptyString.
Proof.
  intros Hs H. destruct s as [|c s]; [contradiction|].
  pose proof (encode_length (String c s)) as Hl. rewrite H in Hl. cbn in Hl. lia.
Qed.

Lemma decodeWith_encode (s : string) :
  forall fuel, (String.length s < fuel)%nat ->
               decodeWith (fun _ => false) fuel (encodeURIComponent s) = Ok s.
Proof.
  induction s as [|c s IH]; intros fuel Hfuel.
  - destruct fuel; [lia|reflexivity].
  - destruct fuel as [|fuel]; [lia|]. cbn [String.length] in Hfuel.
    rewrite encode_cons, decode_encode_char, (IH fuel) by lia. reflexivity.
Qed.

Lemma plusToSpace_coded (s : string) : codedText s -> plusToSpace s = s.
Proof.
  unfold codedText. induction s as [|c s IH]; cbn [allChars plusToSpace]; intros H;
    [reflexivity|].
  apply andb_true_iff in H. destruct H as [Hc Hs].
  destruct (coded_char c Hc) as (_ & _ & Hplus & _). rewrite Hplus, (IH Hs). reflexivity.
Qed.

(** Decoding undoes encoding. *)
Lemma decode_encode (s : string) : decode (encodeURIComponent s) = Ok s.
Proof.
  unfold decode, decodeURIComponent. rewrite (plusToSpace_coded _ (encode_coded s)).
  apply decodeWith_encode. pose proof (encode_length s). lia.
Qed.

(** *** The scanner over encoded keys and values *)

Lemma matches_key (k tail acc : string) :
  codedText k -> matches (k ++ tail) (InKey acc) = matches tail (InKey (acc ++ k)).
Proof.
  unfold codedText. revert acc. induction k as [|c k IH]; intros acc H; cbn [append].
  - rewrite append_empty_r. reflexivity.
  - cbn [allChars] in H. apply andb_true_iff in H. destruct H as [Hc Hk].
    destruct (coded_char c Hc) as (Hamp & Heq & _).
    cbn [matches]. rewrite Hamp, Heq, (IH _ Hk), append_assoc. reflexivity.
Qed.

Lemma matches_value (v tail k acc : string) :
  codedText v -> matches (v ++ tail) (InValue k acc) = matches tail (InValue k (acc ++ v)).
Proof.
  unfold codedText. revert acc. induction v as [|c v IH]; intros acc H; cbn [append].
  - rewrite append_empty_r. reflexivity.
  - cbn [allChars] in H. apply andb_true_iff in H. destruct H as [Hc Hv].
    destruct (coded_char c Hc) as (Hamp & _).
    cbn [matches]. rewrite Hamp, (IH _ Hv), append_assoc. reflexivity.
Qed.

Lemma matches_pair (k v tail : string) :
  k <> EmptyString -> codedText k -> codedText v ->
  matches (k ++ "=" ++ v ++ tail) Seek = matches tail (InValue k v).
Proof.
  intros Hne Hk Hv. destruct k as [|c k]; [contradiction|].
  unfold codedText in Hk. cbn [allChars] in Hk. apply andb_true_iff in Hk.
  destruct Hk as [Hc Hk]. destruct (coded_char c Hc) as (Hamp & Heq & _).
  cbn [append matches]. rewrite Hamp, Heq. cbn [orb].
  rewrite (matches_key k _ (str1 c) Hk). cbn [append matches isEq Ascii.eqb Bool.eqb].
  cbn [isAmp]. rewrite (matches_value v tail _ EmptyString Hv). reflexivity.
Qed.

Lemma concat_single (sep x : string) : String.concat sep [x] = x.
Proof. reflexivity. Qed.

Lemma concat_more (sep x y : string) (l : list string) :
  String.concat sep (x :: y :: l) = x ++ sep ++ String.concat sep (y :: l).
Proof. reflexivity. Qed.

Lemma matches_joinPairs (pairs : list (string * string)) :
  Forall codedPair pairs -> matches (joinPairs pairs) Seek = pairs.
Proof.
  unfold joinPairs. induction pairs as [|[k v] pairs IH]; intros H; [reflexivity|].
  inversion H as [|? ? (Hne & Hk & Hv) H']; subst. cbn [fst snd] in Hne, Hk, Hv.
  destruct pairs as [|p pairs]; cbn [map].
  - rewrite concat_single. unfold pairText. cbn [fst snd].
    rewrite <- (append_empty_r v) at 1. rewrite (matches_pair k v EmptyString Hne Hk Hv).
    reflexivity.
  - rewrite concat_more. unfold pairText at 1. cbn [fst snd].
    rewrite !append_assoc. rewrite (matches_pair k v _ Hne Hk Hv).
    change ("&" ++ ?x) with (String "&" x). cbn [matches].
    change (isAmp "&") with true. cbn iota.
    specialize (IH H'). cbn [map] in IH. rewrite IH. reflexivity.
Qed.

Lemma encodePair_coded (pairs : list (string * string)) :
  Forall (fun k => k <> EmptyString) (map fst pairs) ->
  Forall codedPair (map encodePair pairs).
Proof.
  induction pairs as [|[k v] pairs IH]; cbn [map fst]; intros H; constructor.
  - inversion H; subst. unfold codedPair, encodePair. cbn [fst snd].
    split; [apply encode_nonempty; assumption|]. split; apply encode_coded.
  - apply IH. inversion H; assumption.
Qed.

Lemma assignMatches_encoded (pairs : list (string * string)) :
  forall acc,
    NoDup (map fst acc ++ map fst pairs) ->
    Forall paramKey (map fst pairs) ->
    assignMatches (map encodePair pairs) acc = Ok (acc ++ pairs)%list.
Proof.
  induction pairs as [|[k v] pairs IH]; intros acc Hnd Hk; cbn [map assignMatches].
  - rewrite List.app_nil_r. reflexivity.
  - cbn [map fst] in Hnd, Hk.
    inversion Hk as [|? ? (Hne & Hproto & _) Hk']; subst.
    unfold encodePair at 1. cbn [fst snd].
    rewrite (decode_encode k), (decode_encode v). cbn [bind].
    unfold set. apply String.eqb_neq in Hproto. rewrite Hproto.
    assert (Habsent : get acc k = None).
    { apply get_none. intros Hin. apply NoDup_remove_2 in Hnd. apply Hnd.
      apply in_or_app. left. exact Hin. }
    rewrite (put_absent _ _ _ Habsent), IH; [rewrite <- List.app_assoc; reflexivity| |assumption].
    rewrite map_app. cbn [map fst]. rewrite <- List.app_assoc. exact Hnd.
Qed.

Lemma paramKeys_nonempty (pairs : list (string * string)) :
  Forall paramKey (map fst pairs) -> Forall (fun k => k <> EmptyString) (map fst pairs).
Proof. apply Forall_impl. intros k (H & _). exact H. Qed.

Lemma first_char_coded (pairs : list (string * string)) :
  Forall codedPair pairs -> String.eqb (charAt (joinPairs pairs) 0) "?" = false.
Proof.
  intros H. destruct pairs as [|[k v] pairs]; [reflexivity|].
  inversion H as [|? ? (Hne & Hk & _) _]; subst. cbn [fst] in Hne, Hk.
  assert (Hhead : exists tail, joinPairs ((k, v) :: pairs) = k ++ tail).
  { unfold joinPairs. destruct pairs as [|p pairs]; cbn [map].
    - rewrite concat_single. exists ("=" ++ v). reflexivity.
    - rewrite concat_more. unfold pairText at 1. cbn [fst snd]. rewrite !append_assoc.
      eexists. reflexivity. }
  destruct Hhead as [tail ->]. destruct k as [|c k]; [contradiction|].
  unfold codedText in Hk. cbn [allChars] in Hk. apply andb_true_iff in Hk.
  destruct Hk as [Hc _]. destruct (coded_char c Hc) as (_ & _ & _ & Hq).
  cbn. destruct (Ascii.eqb_spec c "?"); [contradiction|reflexivity].
Qed.

(** Parsing undoes serializing. *)
Lemma queryStringToObject_serialized (pairs : list (string * string)) :
  NoDup (map fst pairs) -> Forall paramKey (map fst pairs) ->
  queryStringToObject (serialized pairs) = Ok pairs.
Proof.
  intros Hnd Hk. unfold queryStringToObject, serialized.
  pose proof (encodePair_coded pairs (paramKeys_nonempty pairs Hk)) as Hcoded.
  rewrite (first_char_coded _ Hcoded), (matches_joinPairs _ Hcoded).
  apply (assignMatches_encoded pairs []); assumption.
Qed.

(** *** Serializing *)

Lemma concat_ampersands (f : string * string -> string) (p : string * string)
      (pairs : list (string * string)) :
  String.concat EmptyString (map (fun kv => "&" ++ f kv) (p :: pairs))
  = "&" ++ String.concat "&" (map f (p :: pairs)).
Proof.
  revert p. induction pairs as [|q pairs IH]; intros p; cbn [map].
  - rewrite !concat_single. reflexivity.
  - rewrite !concat_more. specialize (IH q). cbn [map] in IH. rewrite IH.
    rewrite !append_assoc. reflexivity.
Qed.

Lemma fold_appendPair (entries : list (string * string)) (acc : string) :
  acc <> EmptyString ->
  fold_left appendPair entries acc
  = acc ++ String.concat EmptyString
                         (map (fun kv => "&" ++ pairText (encodePair kv)) entries).
Proof.
  revert acc. induction entries as [|[k v] entries IH]; intros acc Hacc; cbn [fold_left map].
  - cbn. rewrite append_empty_r. reflexivity.
  - unfold appendPair at 2. cbn [fst snd].
    assert (Hlen : (len acc =? 0) = false).
    { destruct acc; [contradiction|]. unfold len. cbn [String.length]. apply Z.eqb_neq. lia. }
    rewrite Hlen, IH by (destruct acc; [contradiction|discriminate]).
    unfold pairText, encodePair. cbn [fst snd].
    destruct entries as [|p entries]; cbn [map].
    + rewrite concat_single. cbn [String.concat]. rewrite append_empty_r. reflexivity.
    + rewrite concat_more. rewrite !append_assoc. reflexivity.
Qed.

Lemma has_hasOwnProperty (pairs : list (string * string)) :
  Forall paramKey (map fst pairs) -> has pairs "hasOwnProperty" = false.
Proof.
  intros Hk. unfold has. destruct (get pairs "hasOwnProperty") eqn:E; [|reflexivity].
  exfalso. assert (Hin : In "hasOwnProperty" (map fst pairs)).
  { destruct (in_dec string_dec "hasOwnProperty" (map fst pairs)) as [i|n]; [exact i|].
    apply get_none in n. congruence. }
  rewrite Forall_forall in Hk. destruct (Hk _ Hin) as (_ & _ & H). congruence.
Qed.

(** Serializing writes the parameters in the order of enumeration. *)
Lemma objectToQueryString_serialized (pairs : list (string * string)) :
  Forall paramKey (map fst pairs) ->
  objectToQueryString pairs = Ok (serialized (forIn pairs)).
Proof.
  intros Hk. unfold objectToQueryString.
  destruct (forIn pairs) as [|[k v] entries] eqn:E; [reflexivity|].
  unfold hasOwnPropertyCallable. rewrite (has_hasOwnProperty pairs Hk). cbn [bind fold_left].
  assert (Hknonempty : k <> EmptyString).
  { assert (Hin : In k (map fst pairs)).
    { apply (Permutation_in _ (Permutation_map fst (forIn_perm pairs))). rewrite E.
      left. reflexivity. }
    rewrite Forall_forall in Hk. destruct (Hk _ Hin) as (H & _). exact H. }
  unfold appendPair at 2. cbn [fst snd].
  change (len EmptyString =? 0) with true. cbn iota.
  change (EmptyString ++ EmptyString ++ ?x) with x.
  rewrite fold_appendPair.
  2:{ pose proof (encode_nonempty k Hknonempty) as Hn.
      destruct (encodeURIComponent k); [contradiction|discriminate]. }
  unfold serialized, joinPairs. f_equal. destruct entries as [|p entries].
  - cbn [map]. rewrite concat_single. cbn [String.concat]. rewrite append_empty_r.
    reflexivity.
  - rewrite (concat_ampersands (fun kv => pairText (encodePair kv))).
    rewrite map_map. cbn [map]. rewrite (concat_more "&" (pairText (encodePair (k, v)))).
    unfold pairText at 3. unfold encodePair at 3. cbn [fst snd].
    rewrite !append_assoc. reflexivity.
Qed.

(** *** The segments of a serialized query *)

Lemma split_segment (x rest : string) :
  allChars (fun c => negb (isAmp c)) x = true ->
  split "&" (x ++ String "&" rest) = x :: split "&" rest.
Proof.
  induction x as [|c x IH]; cbn [append allChars split]; intros H.
  - reflexivity.
  - apply andb_true_iff in H. destruct H as [Hc Hx]. unfold isAmp in Hc.
    apply negb_true_iff in Hc. rewrite Hc, (IH Hx). reflexivity.
Qed.

Lemma split_last (x : string) :
  allChars (fun c => negb (isAmp c)) x = true -> split "&" x = [x].
Proof.
  induction x as [|c x IH]; cbn [allChars split]; intros H; [reflexivity|].
  apply andb_true_iff in H. destruct H as [Hc Hx]. unfold isAmp in Hc.
  apply negb_true_iff in Hc. rewrite Hc, (IH Hx). reflexivity.
Qed.

Lemma coded_no_ampersand (s : string) :
  codedText s -> allChars (fun c => negb (isAmp c)) s = true.
Proof.
  unfold codedText. induction s as [|c s IH]; cbn [allChars]; intros H; [reflexivity|].
  apply andb_true_iff in H. destruct H as [Hc Hs].
  destruct (coded_char c Hc) as (Hamp & _). rewrite Hamp, (IH Hs). reflexivity.
Qed.

Lemma split_joinPairs (p : string * string) (pairs : list (string * string)) :
  Forall codedPair (p :: pairs) ->
  split "&" (joinPairs (p :: pairs)) = map pairText (p :: pairs).
Proof.
  unfold joinPairs. revert p. induction pairs as [|q pairs IH]; intros p H; cbn [map].
  - rewrite concat_single. apply split_last.
    inversion H as [|? ? (_ & Hk & Hv) _]; subst. unfold pairText.
    rewrite !allChars_app, (coded_no_ampersand _ Hk), (coded_no_ampersand _ Hv). reflexivity.
  - rewrite concat_more. inversion H as [|? ? (_ & Hk & Hv) H']; subst.
    change ("&" ++ ?x) with (String "&" x). rewrite split_segment.
    + specialize (IH q H'). cbn [map] in IH. rewrite IH. reflexivity.
    + unfold pairText.
      rewrite !allChars_app, (coded_no_ampersand _ Hk), (coded_no_ampersand _ Hv). reflexivity.
Qed.

Lemma serialized_same_after_ordering (pairs : list (string * string)) :
  Forall paramKey (map fst pairs) ->
  Spec.sameAfterOrdering (serialized (forIn pairs)) (serialized pairs).
Proof.
  intros Hk. unfold Spec.sameAfterOrdering, serialized.
  pose proof (forIn_perm pairs) as Hperm.
  assert (Hk' : Forall paramKey (map fst (forIn pairs))).
  { rewrite Forall_forall in *. intros k Hin. apply Hk.
    apply (Permutation_in _ (Permutation_map fst Hperm)). exact Hin. }
  pose proof (encodePair_coded _ (paramKeys_nonempty _ Hk)) as Hc.
  pose proof (encodePair_coded _ (paramKeys_nonempty _ Hk')) as Hc'.
  destruct pairs as [|p pairs].
  - reflexivity.
  - destruct (forIn (p :: pairs)) as [|e entries] eqn:E.
    + apply Permutation_nil in Hperm. discriminate.
    + cbn [map] in Hc, Hc' |- *. rewrite (split_joinPairs _ _ Hc), (split_joinPairs _ _ Hc').
      change (pairText (encodePair e) :: map pairText (map encodePair entries))
        with (map pairText (map encodePair (e :: entries))).
      change (pairText (encodePair p) :: map pairText (map encodePair pairs))
        with (map pairText (map encodePair (p :: pairs))).
      apply Permutation_map. apply (Permutation_map encodePair) in Hperm. exact Hperm.
Qed.

(** *** Merging a query with itself *)

Lemma overlay_same (pairs : list (string * string)) :
  NoDup (map fst pairs) -> Forall paramKey (map fst pairs) ->
  overlay pairs pairs = Ok pairs.
Proof.
  intros Hnd Hk. unfold overlay.
  destruct (forIn pairs) as [|e entries] eqn:E; [reflexivity|].
  unfold hasOwnPropertyCallable. rewrite (has_hasOwnProperty pairs Hk). cbn [bind]. f_equal.
  assert (Hfold : forall entries o,
             (forall kv, In kv entries -> get o (fst kv) = Some (snd kv)
                                          /\ fst kv <> "__proto__") ->
             fold_left (fun acc kv => set acc (fst kv) (snd kv)) entries o = o).
  { clear. induction entries as [|e entries IH]; intros o H; [reflexivity|].
    cbn [fold_left]. destruct (H e (or_introl eq_refl)) as [Hget Hproto].
    unfold set at 2. apply String.eqb_neq in Hproto. rewrite Hproto, (put_same _ _ _ Hget).
    apply IH. intros kv Hin. apply H. right. exact Hin. }
  apply Hfold. intros [a b] Hin. cbn [fst snd].
  assert (Hin' : In (a, b) pairs).
  { apply (Permutation_in _ (forIn_perm pairs)). rewrite E. exact Hin. }
  split.
  - apply (get_In _ _ _ Hnd). exact Hin'.
  - apply (in_map fst) in Hin'. cbn [fst] in Hin'.
    rewrite Forall_forall in Hk. destruct (Hk _ Hin') as (_ & H & _). exact H.
Qed.

(** C9 (as the code has it).  Let Q be the serialization of a list of parameters
    with distinct keys, none of them empty, __proto__ or hasOwnProperty: every
    key and value percent-encoded on its own (space as %20), joined by
    ampersands.  Merging a resource whose configured query is Q with a request
    whose query is Q gives the map of these parameters, and serializing the map
    gives Q again after ordering of the keys; it gives Q itself when no key is
    an array index. *)
Theorem C9_merge_idempotent (pairs : list (string * string)) :
  NoDup (map fst pairs) ->
  Forall paramKey (map fst pairs) ->
  combineParameters "GET" None (serialized pairs) (Some (serialized pairs)) = Ok pairs
  /\ exists Q',
      objectToQueryString pairs = Ok Q'
      /\ Spec.sameAfterOrdering Q' (serialized pairs)
      /\ (Forall (fun k => arrayIndex k = None) (map fst pairs) -> Q' = serialized pairs).
Proof.
  intros Hnd Hk. split.
  - unfold combineParameters. cbn [isNullOrEmpty orEmpty String.eqb Ascii.eqb Bool.eqb andb].
    destruct pairs as [|[k v] pairs]; [reflexivity|].
    assert (Hne : serialized ((k, v) :: pairs) <> EmptyString).
    { pose proof (queryStringToObject_serialized _ Hnd Hk) as H. intros E.
      rewrite E in H. discriminate H. }
    assert (E1 : String.eqb (serialized ((k, v) :: pairs)) EmptyString = false)
      by (apply String.eqb_neq; exact Hne).
    assert (E2 : (0 <? len (serialized ((k, v) :: pairs))) = true).
    { destruct (serialized ((k, v) :: pairs)); [contradiction|].
      unfold len. cbn [String.length]. apply Z.ltb_lt. lia. }
    rewrite E1, E2. cbn [negb].
    rewrite (queryStringToObject_serialized _ Hnd Hk). cbn [bind].
    apply overlay_same; assumption.
  - exists (serialized (forIn pairs)). split; [apply objectToQueryString_serialized; exact Hk|].
    split; [apply serialized_same_after_ordering; exact Hk|].
    intros Hnamed. rewrite (forIn_named pairs Hnamed). reflexivity.
Qed.

End QueryStrings.

Section QueryStringCases.
Import ProjectUtilities UrlFlexParser Statements Examples.

Lemma C9_merge_idempotent_witness :
  NoDup (map fst sampleParameters)
  /\ Forall paramKey (map fst sampleParameters)
  /\ serialized sampleParameters = "f=json&where=a%20b%26c%3Dd&2=x&1="
  /\ combineParameters "GET" None "f=json&where=a%20b%26c%3Dd&2=x&1="
                       (Some "f=json&where=a%20b%26c%3Dd&2=x&1=")
     = Ok sampleParameters
  /\ objectToQueryString sampleParameters = Ok "1=&2=x&f=json&where=a%20b%26c%3Dd"
  /\ Spec.sameAfterOrdering "1=&2=x&f=json&where=a%20b%26c%3Dd"
                            "f=json&where=a%20b%26c%3Dd&2=x&1=".
Proof.
  assert (Hnd : NoDup (map fst sampleParameters)).
  { cbn. repeat constructor; cbn; intuition discriminate. }
  assert (Hk : Forall paramKey (map fst sampleParameters)).
  { cbn. repeat constructor; discriminate. }
  assert (HQ : serialized sampleParameters = "f=json&where=a%20b%26c%3Dd&2=x&1=")
    by (vm_compute; reflexivity).
  destruct (C9_merge_idempotent sampleParameters Hnd Hk) as (Hmerge & Q' & Hwrite & Hsame & _).
  rewrite HQ in Hmerge, Hsame.
  assert (HQ' : Q' = "1=&2=x&f=json&where=a%20b%26c%3Dd").
  { assert (H : objectToQueryString sampleParameters
                = Ok "1=&2=x&f=json&where=a%20b%26c%3Dd") by (vm_compute; reflexivity).
    rewrite H in Hwrite. injection Hwrite as <-. reflexivity. }
  rewrite HQ' in Hwrite, Hsame.
  repeat split; assumption.
Defined.

(** C9 as worded fails: for the query string a, merging a with a and
    serializing gives a= , which is not a again under any order of its
    segments. *)
Lemma C9_counterexample :
  bind (combineParameters "GET" None "a" (Some "a")) objectToQueryString = Ok "a="
  /\ ~ Spec.sameAfterOrdering "a=" "a".
Proof.
  split; [vm_compute; reflexivity|].
  unfold Spec.sameAfterOrdering. cbn. intros H.
  apply Permutation_length_1 in H. discriminate.
Qed.

End QueryStringCases.

(* ===================================================================== *)
(** * Further properties *)
(* ===================================================================== *)

(** ** Prefixes and suffixes *)

Section Affixes.
Import MoreJS ProjectUtilities MoreProjectUtilities.

Lemma toLowerCase_length (s : string) : String.length (toLowerCase s) = String.length s.
Proof. induction s as [|c r IH]; cbn; [reflexivity | now rewrite IH]. Qed.

Lemma toLowerCase_app (a b : string) : toLowerCase (a ++ b) = toLowerCase a ++ toLowerCase b.
Proof. induction a as [|c r IH]; cbn; [reflexivity | now rewrite IH]. Qed.

Lemma find_zero (needle s : string) :
  find needle s = Some O <-> startsWithHere needle s = true.
Proof.
  destruct s as [|c r]; cbn [find]; destruct (startsWithHere needle _) eqn:E.
  - split; trivial.
  - split; discriminate.
  - split; trivial.
  - split; [|discriminate]. destruct (find needle r); discriminate.
Qed.

Lemma find_bound (needle s : string) :
  forall k, find needle s = Some k -> (k + String.length needle <= String.length s)%nat.
Proof.
  induction s as [|c r IH]; intros k; cbn [find]; destruct (startsWithHere needle _) eqn:E.
  - intros [= <-]. apply startsWithHere_split in E as [rest E].
    rewrite E, length_append. lia.
  - discriminate.
  - intros [= <-]. apply startsWithHere_split in E as [rest E].
    rewrite E, length_append. lia.
  - destruct (find needle r) as [k'|]; [|discriminate].
    intros [= <-]. specialize (IH k' eq_refl). cbn [String.length]. lia.
Qed.

Lemma length_drop (n : nat) (s : string) :
  String.length (drop n s) = (String.length s - n)%nat.
Proof.
  revert s; induction n as [|n IH]; intros [|c r]; cbn; try reflexivity. apply IH.
Qed.

Lemma take_drop (n : nat) (s : string) : take n s ++ drop n s = s.
Proof.
  revert s; induction n as [|n IH]; intros [|c r]; cbn; try reflexivity. now rewrite IH.
Qed.

Lemma append_length_zero (a b : string) :
  String.length (a ++ b) = String.length a -> b = EmptyString.
Proof.
  rewrite length_append. destruct b; [reflexivity | cbn; lia].
Qed.

(** X1. startsWith(subject, needle) holds exactly when the needle, in lower
    case, is a prefix of the subject in lower case. *)
Theorem startsWith_prefix (subject needle : string) :
  startsWith subject needle = true
  <-> exists rest, toLowerCase subject = toLowerCase needle ++ rest.
Proof.
  unfold startsWith, indexOf.
  destruct (find (toLowerCase needle) (toLowerCase subject)) as [n|] eqn:E.
  - split.
    + intros H. apply Z.eqb_eq in H. assert (n = O) by lia. subst n.
      apply find_zero in E. now apply startsWithHere_split.
    + intros [rest H]. rewrite H in E.
      assert (F : find (toLowerCase needle) (toLowerCase needle ++ rest) = Some O)
        by (apply find_zero, startsWithHere_app).
      rewrite F in E. injection E as <-. reflexivity.
  - split; [discriminate|].
    intros [rest H]. rewrite H in E.
    assert (F : find (toLowerCase needle) (toLowerCase needle ++ rest) = Some O)
      by (apply find_zero, startsWithHere_app).
    rewrite F in E. discriminate.
Qed.

Lemma endsWith_within (subject needle : string) :
  (String.length needle <= String.length subject)%nat ->
  (endsWith subject needle = true
   <-> exists front, toLowerCase subject = front ++ toLowerCase needle).
Proof.
  intros Hlen. unfold endsWith, indexOfFrom.
  pose proof (toLowerCase_length subject) as Hs.
  pose proof (toLowerCase_length needle) as Hn.
  set (s := toLowerCase subject) in *. set (n := toLowerCase needle) in *.
  set (k := (String.length s - String.length n)%nat).
  assert (Hstart : Z.to_nat (Z.min (Z.max (len s - len n) 0) (len s)) = k)
    by (unfold len, k; lia).
  assert (Hindex : len s - len n = Z.of_nat k) by (unfold len, k; lia).
  rewrite Hstart, Hindex.
  destruct (find n (drop k s)) as [m|] eqn:E.
  - split.
    + intros H. apply Z.eqb_eq in H. assert (m = O) by lia. subst m.
      apply find_zero in E. apply startsWithHere_split in E as [rest E].
      assert (rest = EmptyString) as ->.
      { apply (append_length_zero n). rewrite <- E, length_drop. unfold k. lia. }
      rewrite append_empty_r in E. exists (take k s).
      rewrite <- E. symmetry. apply take_drop.
    + intros [front H].
      assert (Hk : k = String.length front).
      { unfold k. rewrite H, length_append. lia. }
      rewrite H, Hk, drop_app in E.
      assert (F : find n n = Some O).
      { apply find_zero. rewrite <- (append_empty_r n) at 2. apply startsWithHere_app. }
      rewrite F in E. injection E as <-. apply Z.eqb_eq. lia.
  - split.
    + intros H. apply Z.eqb_eq in H. lia.
    + intros [front H].
      assert (Hk : k = String.length front).
      { unfold k. rewrite H, length_append. lia. }
      rewrite H, Hk, drop_app in E.
      assert (F : find n n = Some O).
      { apply find_zero. rewrite <- (append_empty_r n) at 2. apply startsWithHere_app. }
      rewrite F in E. discriminate.
Qed.

Lemma endsWith_beyond (subject needle : string) :
  (String.length subject < String.length needle)%nat ->
  endsWith subject needle = (String.length needle =? S (String.length subject))%nat.
Proof.
  intros Hlen. unfold endsWith, indexOfFrom.
  pose proof (toLowerCase_length subject) as Hs.
  pose proof (toLowerCase_length needle) as Hn.
  set (s := toLowerCase subject) in *. set (n := toLowerCase needle) in *.
  assert (Hstart : Z.to_nat (Z.min (Z.max (len s - len n) 0) (len s)) = O)
    by (unfold len; lia).
  rewrite Hstart. cbn [drop].
  destruct (find n s) as [m|] eqn:E.
  - apply find_bound in E. lia.
  - rewrite <- Hs, <- Hn. unfold len.
    destruct (Nat.eqb_spec (String.length n) (S (String.length s))) as [H|H].
    + apply Z.eqb_eq. lia.
    + apply Z.eqb_neq. lia.
Qed.

(** X2. For a needle no longer than the subject, endsWith(subject, needle)
    holds exactly when the needle, in lower case, is a suffix of the subject in
    lower case.  For a longer needle it is true exactly when the needle is one
    character longer than the subject: the search fails with -1, which is then
    the start index too. *)
Theorem endsWith_cases (subject needle : string) :
  ((String.length needle <= String.length subject)%nat ->
   (endsWith subject needle = true
    <-> exists front, toLowerCase subject = front ++ toLowerCase needle))
  /\ ((String.length subject < String.length needle)%nat ->
      endsWith subject needle = (String.length needle =? S (String.length subject))%nat).
Proof. split; [apply endsWith_within | apply endsWith_beyond]. Qed.

End Affixes.

Section AffixCases.
Import MoreProjectUtilities.

Lemma endsWith_cases_witness :
  endsWith "conf/Config.json" ".JSON" = true
  /\ endsWith "ab" "xyz" = true
  /\ endsWith "ab" "wxyz" = false.
Proof.
  split; [|split].
  - apply (proj1 (endsWith_cases "conf/Config.json" ".JSON")); [cbn; lia|].
    exists "conf/config". reflexivity.
  - rewrite (proj2 (endsWith_cases "ab" "xyz")); [reflexivity | cbn; lia].
  - rewrite (proj2 (endsWith_cases "ab" "wxyz")); [reflexivity | cbn; lia].
Defined.

End AffixCases.

(** ** Serializing and parsing parameters *)

Section RoundTrip.
Import ProjectUtilities Statements.

(** X4. An object whose keys are distinct, not empty and neither __proto__
    nor hasOwnProperty is serialized by objectToQueryString to a query string
    that queryStringToObject parses back to an object with the same
    properties, holding under every key the value the object held. *)
Theorem objectToQueryString_round_trip (o : object) :
  NoDup (map fst o) -> Forall paramKey (map fst o) ->
  exists q o',
    objectToQueryString o = Ok q
    /\ queryStringToObject q = Ok o'
    /\ Permutation o' o
    /\ forall k, get o' k = get o k.
Proof.
  intros Hnodup Hkeys.
  exists (serialized (forIn o)), (forIn o).
  pose proof (forIn_perm o) as Hperm.
  assert (Hperm' : Permutation (map fst o) (map fst (forIn o)))
    by (apply Permutation_map, Permutation_sym, Hperm).
  split; [now apply objectToQueryString_serialized|].
  split.
  - apply queryStringToObject_serialized.
    + eapply Permutation_NoDup; eassumption.
    + eapply Permutation_Forall; eassumption.
  - split; [assumption|]. intros k. now apply forIn_get.
Qed.

End RoundTrip.

Section RoundTripCases.
Import ProjectUtilities Statements Examples.

Lemma objectToQueryString_round_trip_witness :
  NoDup (map fst sampleParameters)
  /\ Forall paramKey (map fst sampleParameters)
  /\ exists q o',
      objectToQueryString sampleParameters = Ok q
      /\ queryStringToObject q = Ok o'
      /\ Permutation o' sampleParameters
      /\ forall k, get o' k = get sampleParameters k.
Proof.
  assert (Hnodup : NoDup (map fst sampleParameters)).
  { cbn. repeat constructor; cbn; intuition discriminate. }
  assert (Hkeys : Forall paramKey (map fst sampleParameters)).
  { cbn. repeat constructor; unfold paramKey; repeat split; discriminate. }
  split; [exact Hnodup|]. split; [exact Hkeys|].
  apply (objectToQueryString_round_trip sampleParameters Hnodup Hkeys).
Defined.

End RoundTripCases.

(** ** Paths and the parts of an address *)

Section Paths.
Import UrlFlexParser Terms.

Lemma stripTrailingSlashes_slash (a : string) :
  stripTrailingSlashes (a ++ "/") = stripTrailingSlashes a.
Proof.
  induction a as [|c r IH]; [reflexivity|].
  cbn [append stripTrailingSlashes]. now rewrite IH.
Qed.

Lemma stripTrailingSlashes_slashes (n : nat) :
  forall a, stripTrailingSlashes (a ++ slashes n) = stripTrailingSlashes a.
Proof.
  induction n as [|n IH]; intros a; cbn [slashes].
  - now rewrite append_empty_r.
  - change (String "/" (slashes n)) with ("/" ++ slashes n).
    rewrite <- append_assoc, IH. apply stripTrailingSlashes_slash.
Qed.

Lemma stripLeadingSlashes_slashes (m : nat) (b : string) :
  stripLeadingSlashes (slashes m ++ b) = stripLeadingSlashes b.
Proof. induction m as [|m IH]; [reflexivity|]. cbn. exact IH. Qed.

Lemma stripTrailingSlashes_clean (a : string) :
  forall front, stripTrailingSlashes a <> front ++ "/".
Proof.
  induction a as [|c r IH]; intros front; cbn [stripTrailingSlashes].
  - destruct front; discriminate.
  - destruct (stripTrailingSlashes r) as [|c' r'] eqn:E.
    + destruct (Ascii.eqb_spec c "/") as [->|Hc].
      * destruct front; discriminate.
      * destruct front as [|x f]; cbn.
        -- intros [= H]. contradiction.
        -- intros [= _ H]. destruct f; discriminate.
    + destruct front as [|x f]; cbn.
      * discriminate.
      * intros [= _ H]. exact (IH f H).
Qed.

Lemma stripLeadingSlashes_clean (b rest : string) :
  stripLeadingSlashes b <> String "/" rest.
Proof.
  induction b as [|c r IH]; cbn [stripLeadingSlashes]; [discriminate|].
  destruct (Ascii.eqb_spec c "/") as [->|Hc]; [exact IH|].
  intros [= H _]. contradiction.
Qed.

(** X5. combinePath joins its two parts with exactly one slash: slashes at
    the end of the first part and at the start of the second do not change the
    result, which is a first part that does not end with a slash, one slash,
    and a second part that does not start with one. *)
Theorem combinePath_one_slash (a b : string) (n m : nat) :
  combinePath (a ++ slashes n) (slashes m ++ b) = combinePath a b
  /\ exists a' b',
      combinePath a b = a' ++ "/" ++ b'
      /\ (forall front, a' <> front ++ "/")
      /\ (forall rest, b' <> String "/" rest).
Proof.
  unfold combinePath. split.
  - now rewrite stripTrailingSlashes_slashes, stripLeadingSlashes_slashes.
  - exists (stripTrailingSlashes a), (stripLeadingSlashes b).
    split; [reflexivity|]. split.
    + apply stripTrailingSlashes_clean.
    + apply stripLeadingSlashes_clean.
Qed.

End Paths.

(** ** The parts of a request *)

Section RequestAddresses.
Import UrlFlexParser Terms.

Lemma find_take_none (c : ascii) (s : string) :
  forall n, find (str1 c) s = Some n -> find (str1 c) (take n s) = None.
Proof.
  induction s as [|b r IH]; intros n; cbn [find startsWithHere str1].
  - discriminate.
  - destruct (Ascii.eqb c b) eqn:E; cbn [andb].
    + intros [= <-]. reflexivity.
    + destruct (find (str1 c) r) as [k|] eqn:F; [|discriminate].
      intros [= <-]. cbn [take find startsWithHere str1]. rewrite E. cbn [andb].
      now rewrite (IH k eq_refl).
Qed.

Lemma splitQuery_proxyPath (protocol_ url proxyPath_ : string) :
  find "?" (proxyPath (splitQuery protocol_ url proxyPath_)) = None.
Proof.
  unfold splitQuery, indexOf.
  destruct (find "?" proxyPath_) as [n|] eqn:E.
  - replace (0 <=? Z.of_nat n) with true by (symmetry; apply Z.leb_le; lia).
    cbn [proxyPath]. unfold substr2, substrStart. cbn [Z.ltb Z.compare Z.to_nat drop].
    rewrite Nat2Z.id. apply (find_take_none "?"). exact E.
  - cbn [Z.leb Z.compare proxyPath]. exact E.
Qed.

Lemma splitQuery_protocol (protocol_ url proxyPath_ : string) :
  rprotocol (splitQuery protocol_ url proxyPath_) = protocol_.
Proof. unfold splitQuery. destruct (0 <=? _); reflexivity. Qed.

(** X6. Whatever the address of a request, the proxied path that
    parseURLRequest returns holds no question mark (the query is split off at
    the first one), and the protocol is https, http or the star. *)
Theorem parseURLRequest_proxyPath_without_query
        (url : string) (uris : list string) (parts : RequestParts) :
  parseURLRequest url uris = Ok parts ->
  find "?" (proxyPath parts) = None
  /\ (rprotocol parts = "https" \/ rprotocol parts = "http" \/ rprotocol parts = "*").
Proof.
  unfold parseURLRequest. destruct (decodeURI url) as [u|e]; [|discriminate].
  cbn [bind]. destruct (0 <? len u).
  - destruct (firstCut u _) as [[p l]|].
    { intros [= <-]. rewrite splitQuery_proxyPath, splitQuery_protocol. auto. }
    destruct (firstCut u _) as [[p l]|].
    { intros [= <-]. rewrite splitQuery_proxyPath, splitQuery_protocol. auto. }
    destruct (cutAt u _) as [[p l]|].
    { intros [= <-]. rewrite splitQuery_proxyPath, splitQuery_protocol. auto. }
    destruct (matchListenUri u uris) as [[p l]|];
      intros [= <-]; rewrite splitQuery_proxyPath, splitQuery_protocol; auto.
  - intros [= <-]. cbn. auto.
Qed.

Lemma cutAt_none (u lookFor : string) : find lookFor u = None -> cutAt u lookFor = None.
Proof. intros H. unfold cutAt, indexOf. now rewrite H. Qed.

Lemma cutAt_found (u listen m tail : string) :
  u = listen ++ (m ++ "/") ++ tail ->
  find (m ++ "/") u = Some (String.length listen) ->
  cutAt u (m ++ "/") = Some ("/" ++ tail, listen).
Proof.
  intros Hu Hfind. unfold cutAt, indexOf. rewrite Hfind.
  replace (0 <=? Z.of_nat (String.length listen)) with true
    by (symmetry; apply Z.leb_le; lia).
  f_equal. f_equal.
  - replace (Z.of_nat (String.length listen) + len (m ++ "/") - 1)
      with (Z.of_nat (String.length (listen ++ m)))
      by (unfold len; rewrite !length_append; cbn [String.length]; lia).
    rewrite substr_nat.
    replace u with ((listen ++ m) ++ "/" ++ tail)
      by (rewrite Hu, !append_assoc; reflexivity).
    apply drop_app.
  - unfold substr2, substrStart. cbn [Z.ltb Z.compare Z.to_nat drop].
    rewrite Nat2Z.id, Hu. apply take_app.
Qed.

Lemma firstCut_found (u listen tail marker : string) (probes : list string) :
  NoDup probes ->
  In marker probes ->
  (exists m, marker = m ++ "/") ->
  u = listen ++ marker ++ tail ->
  find marker u = Some (String.length listen) ->
  (forall m, In m probes -> m <> marker -> find m u = None) ->
  firstCut u probes = Some ("/" ++ tail, listen).
Proof.
  intros Hnodup Hin [m0 ->] Hu Hfind Hothers.
  induction probes as [|p rest IH]; [contradiction|].
  cbn [firstCut]. destruct (string_dec p (m0 ++ "/")) as [->|Hp].
  - now rewrite (cutAt_found u listen m0 tail).
  - rewrite cutAt_none by (apply Hothers; [left; reflexivity | exact Hp]).
    apply IH.
    + now inversion Hnodup.
    + destruct Hin as [Hin|Hin]; [contradiction | exact Hin].
    + intros m Hm. apply Hothers. now right.
Qed.

Lemma firstCut_none (u : string) (probes : list string) :
  (forall m, In m probes -> find m u = None) -> firstCut u probes = None.
Proof.
  induction probes as [|p rest IH]; intros H; [reflexivity|].
  cbn [firstCut]. rewrite cutAt_none by (apply H; now left).
  apply IH. intros m Hm. apply H. now right.
Qed.

Lemma markers_shape (scheme marker : string) :
  In marker (markers scheme) -> exists m, marker = m ++ "/".
Proof.
  unfold markers. intros [<-|[<-|[<-|[]]]].
  - exists ("/" ++ scheme). now rewrite !append_assoc.
  - exists ("?" ++ scheme ++ ":/"). now rewrite !append_assoc.
  - exists ("&" ++ scheme ++ ":/"). now rewrite !append_assoc.
Qed.

(** X7. The three ways of naming the proxied address, /scheme/host...,
    ?scheme://host... and &scheme://host..., give the same parts: when one of
    the three markers of a scheme (https, or http in an address without any
    https marker) first occurs after the text listen and no other marker of the
    scheme occurs, the listen path is listen, the protocol is the scheme and the
    proxied part is a slash followed by what comes after the marker. *)
Theorem parseURLRequest_encodings_agree
        (url u listen tail scheme marker : string) (uris : list string) :
  decodeURI url = Ok u ->
  (scheme = "https"
   \/ scheme = "http" /\ forall m, In m (markers "https") -> find m u = None) ->
  In marker (markers scheme) ->
  u = listen ++ marker ++ tail ->
  find marker u = Some (String.length listen) ->
  (forall m, In m (markers scheme) -> m <> marker -> find m u = None) ->
  parseURLRequest url uris = Ok (splitQuery scheme listen ("/" ++ tail)).
Proof.
  intros Hdecode Hscheme Hin Hu Hfind Hothers.
  unfold parseURLRequest. rewrite Hdecode. cbn [bind].
  assert (Hlen : (0 <? len u) = true).
  { apply Z.ltb_lt. unfold len. rewrite Hu, !length_append.
    destruct (markers_shape _ _ Hin) as [m0 ->]. rewrite length_append. cbn. lia. }
  rewrite Hlen.
  assert (Hcut : firstCut u (markers scheme) = Some ("/" ++ tail, listen)).
  { apply (firstCut_found u listen tail marker); try assumption.
    - destruct Hscheme as [->|[-> _]]; cbn;
        repeat constructor; cbn; intuition discriminate.
    - exact (markers_shape scheme marker Hin). }
  destruct Hscheme as [->|[-> Hhttps]].
  - change ["/https/"; "?https://"; "&https://"] with (markers "https").
    now rewrite Hcut.
  - change ["/https/"; "?https://"; "&https://"] with (markers "https").
    rewrite (firstCut_none u (markers "https") Hhttps).
    change ["/http/"; "?http://"; "&http://"] with (markers "http").
    now rewrite Hcut.
Qed.

End RequestAddresses.

Section RequestAddressCases.
Import UrlFlexParser Terms.

Lemma parseURLRequest_proxyPath_without_query_witness :
  parseURLRequest "/proxy/http/tiles.example.com/a?f=json&x=?" ["/proxy"]
  = Ok {| listenPath := "/proxy"; proxyPath := "/tiles.example.com/a";
          rquery := "f=json&x=?"; rprotocol := "http" |}
  /\ find "?" "/tiles.example.com/a" = None.
Proof.
  split; [vm_compute; reflexivity|].
  apply (parseURLRequest_proxyPath_without_query
           "/proxy/http/tiles.example.com/a?f=json&x=?" ["/proxy"]
           {| listenPath := "/proxy"; proxyPath := "/tiles.example.com/a";
              rquery := "f=json&x=?"; rprotocol := "http" |}).
  vm_compute; reflexivity.
Defined.

Lemma parseURLRequest_encodings_agree_witness :
  parseURLRequest "/proxy?http://tiles.example.com/a?f=json" ["/proxy"]
  = Ok (splitQuery "http" "/proxy" "/tiles.example.com/a?f=json")
  /\ parseURLRequest "/proxy/http/tiles.example.com/a?f=json" ["/proxy"]
     = Ok (splitQuery "http" "/proxy" "/tiles.example.com/a?f=json").
Proof.
  split.
  - apply (parseURLRequest_encodings_agree
             "/proxy?http://tiles.example.com/a?f=json"
             "/proxy?http://tiles.example.com/a?f=json"
             "/proxy" "tiles.example.com/a?f=json" "http" "?http://").
    + vm_compute; reflexivity.
    + right. split; [reflexivity|].
      intros m [<-|[<-|[<-|[]]]]; vm_compute; reflexivity.
    + cbn. auto.
    + reflexivity.
    + vm_compute; reflexivity.
    + intros m [<-|[<-|[<-|[]]]] Hm; try (vm_compute; reflexivity).
      exfalso. apply Hm. reflexivity.
  - vm_compute; reflexivity.
Defined.

End RequestAddressCases.

(** ** Normalized parts *)

Section NormalizedParts.
Import UrlFlexParser.

Variable urlParse : string -> UrlObject.

Lemma take_nonempty (n : nat) (s : string) :
  (0 < n)%nat -> s <> EmptyString -> take n s <> EmptyString.
Proof. destruct n; [lia|]. destruct s; [congruence|]. discriminate. Qed.

(** X8. The parts parseAndFixURLParts hands out have no empty component where
    the star stands for a missing one: the protocol and the port are never
    empty, the path name is never empty, a lone slash or slash-star, and path
    and host repeat path name and host name. *)
Theorem parseAndFixURLParts_defaults (url : string) :
  let parts := parseAndFixURLParts urlParse url in
  protocol parts <> EmptyString
  /\ port parts <> EmptyString
  /\ pathname parts <> EmptyString
  /\ pathname parts <> "/"
  /\ pathname parts <> "/*"
  /\ path parts = pathname parts
  /\ host parts = hostname parts
  /\ query parts = u_query (urlParse url).
Proof.
  unfold parseAndFixURLParts.
  destruct (if isNullOrEmpty (u_hostname (urlParse url)) then _ else _)
    as [hostname_ pathname_].
  cbn [protocol port pathname path host hostname query].
  repeat split.
  - destruct (u_protocol (urlParse url)) as [p|]; cbn [isNullOrEmpty orEmpty];
      [|discriminate].
    destruct (String.eqb_spec p EmptyString) as [->|Hp]; [discriminate|].
    destruct (0 <? indexOf p ":") eqn:E; [|exact Hp].
    unfold substr2, substrStart. cbn [Z.ltb Z.compare Z.to_nat drop].
    apply take_nonempty; [|exact Hp]. apply Z.ltb_lt in E. lia.
  - destruct (u_port (urlParse url)) as [p|]; cbn [isNullOrEmpty orEmpty];
      [|discriminate].
    destruct (String.eqb_spec p EmptyString) as [->|Hp]; [discriminate | exact Hp].
  - destruct pathname_ as [p|]; [|discriminate].
    destruct (String.eqb_spec p EmptyString) as [->|Hp]; cbn [orb]; [discriminate|].
    destruct (String.eqb p "/*" || String.eqb p "/"); [discriminate | exact Hp].
  - destruct pathname_ as [p|]; [|discriminate].
    destruct (String.eqb p EmptyString); cbn [orb]; [discriminate|].
    destruct (String.eqb p "/*"); cbn [orb]; [discriminate|].
    destruct (String.eqb_spec p "/") as [->|Hp]; [discriminate | exact Hp].
  - destruct pathname_ as [p|]; [|discriminate].
    destruct (String.eqb p EmptyString); cbn [orb]; [discriminate|].
    destruct (String.eqb_spec p "/*") as [->|Hp]; cbn [orb]; [discriminate|].
    destruct (String.eqb p "/"); [discriminate | exact Hp].
Qed.

Lemma stripLeadingSlashes_prefix (h tail : string) :
  h <> EmptyString -> find "/" h = None ->
  stripLeadingSlashes (h ++ tail) = h ++ tail.
Proof.
  destruct h as [|c r]; [congruence|]. intros _.
  cbn [find startsWithHere append stripLeadingSlashes].
  rewrite (Ascii.eqb_sym c "/").
  destruct (Ascii.eqb "/" c); cbn [andb]; [discriminate | reflexivity].
Qed.

(** X9. When url.parse finds no host name and the path name is /h/rest with
    h not empty and free of slashes (and no double slash in the path name), the
    first segment is promoted: the host name is h, and the path name is /rest,
    or the star when rest is empty or the star. *)
Theorem parseAndFixURLParts_promotes_host (url h rest : string) :
  isNullOrEmpty (u_hostname (urlParse url)) = true ->
  u_pathname (urlParse url) = Some ("/" ++ h ++ "/" ++ rest) ->
  h <> EmptyString ->
  find "/" h = None ->
  find "//" ("/" ++ h ++ "/" ++ rest) = None ->
  let parts := parseAndFixURLParts urlParse url in
  hostname parts = h
  /\ pathname parts
     = if String.eqb rest EmptyString || String.eqb rest "*" then "*" else "/" ++ rest.
Proof.
  intros Hhost Hpath Hh Hslash Hdouble.
  unfold parseAndFixURLParts. rewrite Hhost, Hpath.
  cbn [isNullOrEmpty orEmpty].
  replace (String.eqb ("/" ++ h ++ "/" ++ rest) EmptyString) with false by reflexivity.
  assert (Hidx : indexOf ("/" ++ h ++ "/" ++ rest) "//" = -1)
    by (unfold indexOf; now rewrite Hdouble).
  rewrite Hidx. cbn [Z.leb Z.compare].
  assert (Hstrip : stripLeadingSlashes ("/" ++ h ++ "/" ++ rest) = h ++ "/" ++ rest).
  { change ("/" ++ h ++ "/" ++ rest) with (String "/" (h ++ "/" ++ rest)).
    cbn [stripLeadingSlashes Ascii.eqb Bool.eqb].
    apply (stripLeadingSlashes_prefix h ("/" ++ rest) Hh Hslash). }
  rewrite Hstrip.
  assert (Hidx2 : indexOf (h ++ "/" ++ rest) "/" = Z.of_nat (String.length h)).
  { unfold indexOf. change ("/" ++ rest) with (String "/" rest).
    pose proof (find_char_after "/" h rest Hslash) as F. unfold str1 in F.
    now rewrite F. }
  rewrite Hidx2.
  assert (Hpos : (0 <? Z.of_nat (String.length h)) = true).
  { apply Z.ltb_lt. destruct h; [congruence | cbn; lia]. }
  rewrite Hpos. cbn [hostname pathname].
  unfold substr2, substrStart. cbn [Z.ltb Z.compare Z.to_nat drop].
  rewrite Nat2Z.id, take_app. split; [reflexivity|].
  rewrite substr_nat, drop_app.
  destruct rest as [|c r]; [reflexivity|].
  change ("/" ++ String c r) with (String "/" (String c r)).
  cbn [String.eqb orb].
  destruct (Ascii.eqb_spec "/" "/") as [_|F]; [|congruence].
  destruct r as [|c' r'].
  - cbn. destruct (Ascii.eqb c "*"); reflexivity.
  - cbn. destruct (Ascii.eqb c "*"); reflexivity.
Qed.

End NormalizedParts.

Section NormalizedPartsCases.
Import UrlFlexParser Examples.

Lemma parseAndFixURLParts_promotes_host_witness :
  hostname (parseAndFixURLParts urlParseExamples "/tiles.example.com/ArcGIS/rest/services")
  = "tiles.example.com"
  /\ pathname (parseAndFixURLParts urlParseExamples "/tiles.example.com/ArcGIS/rest/services")
     = "/ArcGIS/rest/services".
Proof.
  apply (parseAndFixURLParts_promotes_host
           urlParseExamples "/tiles.example.com/ArcGIS/rest/services"
           "tiles.example.com" "ArcGIS/rest/services");
    try (vm_compute; reflexivity).
  discriminate.
Defined.

End NormalizedPartsCases.

(** ** Referrer keys and the address of the proxied request *)

Section Builders.
Import UrlFlexParser Configuration.

Variable urlParse : string -> UrlObject.
Variable settings : Settings.

(** X10. The key of an allow-list entry is the star only for the entry whose
    protocol, host name and path are all the star; every other key is
    protocol://host/path. *)
Theorem fullReferrerURLFromParts_star (rProtocol rHostname rPath : string) :
  fullReferrerURLFromParts rProtocol rHostname rPath = "*"
  <-> rProtocol = "*" /\ rHostname = "*" /\ rPath = "*".
Proof.
  unfold fullReferrerURLFromParts. split.
  - destruct (String.eqb_spec rProtocol "*") as [->|Hp]; cbn [andb].
    + destruct (String.eqb_spec rHostname "*") as [->|Hh]; cbn [andb].
      * destruct (String.eqb_spec rPath "*") as [->|Hx]; [auto|].
        discriminate.
      * discriminate.
    + destruct rProtocol as [|c [|c' r]]; cbn; try discriminate.
  - intros (-> & -> & ->). reflexivity.
Qed.

(** X11. The protocol chosen for the proxied request is never the star: it is
    the protocol of the resource when that is not the star, else the protocol of
    the request when that is not the star, else the protocol of the referrer,
    and the configured default (https when useHTTPS is set, http otherwise)
    when all three are the star. *)
Theorem getBestMatchProtocol_priority (referrer requestProtocol serverProtocol : string) :
  let best := getBestMatchProtocol urlParse settings referrer requestProtocol serverProtocol in
  let fallback := if useHTTPS settings then "https" else "http" in
  best <> "*"
  /\ (serverProtocol <> "*" -> best = serverProtocol)
  /\ (serverProtocol = "*" -> requestProtocol <> "*" -> best = requestProtocol)
  /\ (serverProtocol = "*" -> requestProtocol = "*" ->
      best = if String.eqb (protocol (parseAndFixURLParts urlParse referrer)) "*"
             then fallback
             else protocol (parseAndFixURLParts urlParse referrer)).
Proof.
  unfold getBestMatchProtocol. cbn zeta.
  assert (Hfallback : (if useHTTPS settings then "https" else "http") <> "*")
    by (destruct (useHTTPS settings); discriminate).
  destruct (String.eqb_spec serverProtocol "*") as [Hs|Hs].
  - destruct (String.eqb_spec requestProtocol "*") as [Hr|Hr].
    + destruct (String.eqb_spec (protocol (parseAndFixURLParts urlParse referrer)) "*")
        as [Hp|Hp]; cbn [negb].
      * repeat split; auto; congruence.
      * destruct (String.eqb_spec (protocol (parseAndFixURLParts urlParse referrer)) "*")
          as [Hp'|_]; [contradiction|].
        repeat split; auto; congruence.
    + destruct (String.eqb_spec requestProtocol "*") as [Hr'|_]; [contradiction|].
      repeat split; auto; congruence.
  - destruct (String.eqb_spec serverProtocol "*") as [Hs'|_]; [contradiction|].
    repeat split; auto; congruence.
Qed.

(** X12. When the resource is configured with a query of its own, the address
    of the proxied request ends with that query, and the query of the inbound
    request has no part in it: two requests with the same protocol marker are
    sent to the same address. *)
Theorem buildURL_configured_query_wins
        (referrer serverUrl serverProtocol q : string) (parts : RequestParts) :
  q <> EmptyString ->
  exists front,
    buildURLFromReferrerRequestAndInfo urlParse settings referrer parts serverUrl
                                       serverProtocol (Some q)
    = front ++ "?" ++ q
    /\ forall parts',
        rprotocol parts' = rprotocol parts ->
        buildURLFromReferrerRequestAndInfo urlParse settings referrer parts' serverUrl
                                           serverProtocol (Some q)
        = front ++ "?" ++ q.
Proof.
  intros Hq. unfold buildURLFromReferrerRequestAndInfo. cbn [isNullOrEmpty orEmpty].
  destruct (String.eqb_spec q EmptyString) as [H|_]; [contradiction|]. cbn [negb].
  eexists. split; [reflexivity|].
  intros parts' ->. reflexivity.
Qed.

Lemma matchAllowedReferrers_In (referrerParts : UrlParts) (allowed : list Referrer)
      (key : string) :
  matchAllowedReferrers settings referrerParts allowed = Some key ->
  exists entry, In entry allowed /\ key = r_referrer entry.
Proof.
  induction allowed as [|e rest IH]; cbn [matchAllowedReferrers]; [discriminate|].
  intros H.
  assert (Hrest : matchAllowedReferrers settings referrerParts rest = Some key ->
                  exists entry, In entry (e :: rest) /\ key = r_referrer entry).
  { intros H'. destruct (IH H') as (entry & Hin & Hkey). exists entry. split; [now right | exact Hkey]. }
  assert (Hhere : Some (r_referrer e) = Some key ->
                  exists entry, In entry (e :: rest) /\ key = r_referrer entry).
  { intros [= <-]. exists e. split; [now left | reflexivity]. }
  destruct (testProtocolsMatch _ _); [|auto].
  destruct (_ || _); [|auto].
  destruct (_ || _); [auto|].
  destruct (_ && _); auto.
Qed.

(** X13. A referrer is validated only against the allow-list: the key
    returned is the star when any referrer is allowed, and otherwise it is the
    key of an entry of the list and the referrer was given and not empty. *)
Theorem validated_key_from_list (referrer : option string) (allowed : list Referrer)
        (key : string) :
  validatedReferrerFromReferrer urlParse settings referrer allowed = Some key ->
  (allowAnyReferrer settings = true /\ key = "*")
  \/ (allowAnyReferrer settings = false
      /\ (exists r, referrer = Some r /\ r <> EmptyString)
      /\ exists entry, In entry allowed /\ key = r_referrer entry).
Proof.
  unfold validatedReferrerFromReferrer.
  destruct (allowAnyReferrer settings).
  - intros [= <-]. left. auto.
  - destruct referrer as [r|]; [|discriminate].
    destruct (0 <? len r) eqn:E; [|discriminate].
    intros H. right. split; [reflexivity|]. split.
    + exists r. split; [reflexivity|]. intros ->. discriminate.
    + eapply matchAllowedReferrers_In. exact H.
Qed.

Lemma cacheReferrers_length (entries : list string) :
  forall allowAny,
    List.length (fst (cacheReferrers urlParse entries allowAny)) = List.length entries.
Proof.
  induction entries as [|entry rest IH]; intros allowAny; cbn [cacheReferrers]; [reflexivity|].
  destruct (cacheReferrer urlParse entry) as [r sets].
  specialize (IH (allowAny || sets)).
  destruct (cacheReferrers urlParse rest (allowAny || sets)) as [rs any].
  cbn [fst List.length] in *. now rewrite IH.
Qed.

Lemma cacheReferrers_star (entries : list string) :
  forall allowAny,
    In "*" entries -> In anyReferrer (fst (cacheReferrers urlParse entries allowAny)).
Proof.
  induction entries as [|entry rest IH]; intros allowAny; cbn [cacheReferrers]; [contradiction|].
  intros Hin.
  destruct (cacheReferrer urlParse entry) as [r sets] eqn:E.
  specialize (IH (allowAny || sets)).
  destruct (cacheReferrers urlParse rest (allowAny || sets)) as [rs any].
  cbn [fst] in *. destruct Hin as [->|Hin].
  - unfold cacheReferrer in E. cbn in E. injection E as <- _. now left.
  - right. now apply IH.
Qed.

(** X14. allowAnyReferrer is set exactly when an entry of the allow-list is
    the star, character for character; the cached list has one entry for each
    entry of the file, and holds the all-star pattern whenever the flag is
    set. *)
Theorem allowAnyReferrer_iff_star_entry (section : ReferrerSection) :
  let cached := postParseAllowedReferrers urlParse section in
  (snd cached = true <-> In "*" (referrerEntries section))
  /\ List.length (fst cached) = List.length (referrerEntries section)
  /\ (snd cached = true -> In anyReferrer (fst cached)).
Proof.
  unfold postParseAllowedReferrers. cbn zeta.
  assert (Hany : snd (cacheReferrers urlParse (referrerEntries section) false) = true
                 <-> In "*" (referrerEntries section)).
  { rewrite cacheReferrers_any. cbn [orb]. rewrite existsb_exists. split.
    - intros (entry & Hin & Heq). apply String.eqb_eq in Heq. now subst.
    - intros Hin. exists "*". split; [exact Hin | reflexivity]. }
  split; [exact Hany|]. split.
  - apply cacheReferrers_length.
  - intros H. apply cacheReferrers_star. now apply Hany.
Qed.

End Builders.

Section BuilderCases.
Import UrlFlexParser Configuration Examples.

Lemma buildURL_configured_query_wins_witness :
  "f=json" <> EmptyString
  /\ buildURLFromReferrerRequestAndInfo urlParseExamples settings appKey (partsWith "x=1")
                                        (url secured) (s_protocol secured) (Some "f=json")
     = "http://tiles.example.com/ArcGIS/rest/services?f=json"
  /\ exists front,
      buildURLFromReferrerRequestAndInfo urlParseExamples settings appKey (partsWith "x=1")
                                         (url secured) (s_protocol secured) (Some "f=json")
      = front ++ "?" ++ "f=json"
      /\ forall parts',
          rprotocol parts' = rprotocol (partsWith "x=1") ->
          buildURLFromReferrerRequestAndInfo urlParseExamples settings appKey parts'
                                             (url secured) (s_protocol secured) (Some "f=json")
          = front ++ "?" ++ "f=json".
Proof.
  split; [discriminate|]. split; [vm_compute; reflexivity|].
  apply (buildURL_configured_query_wins urlParseExamples settings appKey (url secured)
                                        (s_protocol secured) "f=json" (partsWith "x=1")).
  discriminate.
Defined.

Lemma validated_key_from_list_witness :
  validatedReferrerFromReferrer urlParseExamples settings (Some "https://app.example.org/")
                                (fst allowList)
  = Some appKey
  /\ exists entry, In entry (fst allowList) /\ appKey = r_referrer entry.
Proof.
  assert (H : validatedReferrerFromReferrer urlParseExamples settings
                (Some "https://app.example.org/") (fst allowList) = Some appKey)
    by (vm_compute; reflexivity).
  split; [exact H|].
  destruct (validated_key_from_list urlParseExamples settings _ _ _ H)
    as [[Hany _]|(_ & _ & Hentry)].
  - vm_compute in Hany. discriminate.
  - exact Hentry.
Defined.

End BuilderCases.

(** ** The table of the meter *)

Section MeterTable.
Import UrlFlexParser Configuration RateMeter MoreRateMeter Terms.

Lemma selectRow_app (t : Table) (row : Row) (ref u : string) :
  selectRow (t ++ [row])%list ref u
  = match selectRow t ref u with
    | Some r => Some r
    | None => if String.eqb (referrer row) ref && String.eqb (RateMeter.r_url row) u
              then Some row else None
    end.
Proof.
  unfold selectRow. induction t as [|r t IH]; cbn [app List.find].
  - destruct (_ && _); reflexivity.
  - destruct (String.eqb (referrer r) ref && String.eqb (RateMeter.r_url r) u);
      [reflexivity | exact IH].
Qed.

Lemma selectRow_In (t : Table) (ref u : string) (row : Row) :
  selectRow t ref u = Some row -> In row t.
Proof. unfold selectRow. intros H. now apply find_some in H. Qed.

Lemma selectRow_none (t : Table) (ref u : string) :
  selectRow t ref u = None
  <-> ~ In (u, ref) (map (fun row => (RateMeter.r_url row, referrer row)) t).
Proof.
  unfold selectRow. induction t as [|r t IH]; cbn [List.find map In].
  - tauto.
  - destruct (String.eqb_spec (referrer r) ref) as [Hr|Hr];
      destruct (String.eqb_spec (RateMeter.r_url r) u) as [Hu|Hu]; cbn [andb].
    + split; [discriminate|]. intros H. exfalso. apply H. left. now subst.
    + rewrite IH. split; [|tauto]. intros H [[= F _]|F]; [contradiction | tauto].
    + rewrite IH. split; [|tauto]. intros H [[= _ F]|F]; [contradiction | tauto].
    + rewrite IH. split; [|tauto]. intros H [[= F _]|F]; [contradiction | tauto].
Qed.

(** What one INSERT OR IGNORE does to the rows that can be read. *)
Lemma insertOrIgnore_keeps (t : Table) (u ref u' ref' : string) (rate_ t0 : number) (row : Row) :
  selectRow t ref u = Some row ->
  selectRow (insertOrIgnore t u' ref' rate_ t0) ref u = Some row.
Proof.
  intros H. unfold insertOrIgnore.
  destruct (selectRow t ref' u'); [exact H|].
  now rewrite selectRow_app, H.
Qed.

Lemma insertOrIgnore_fresh (t : Table) (u' ref' : string) (rate_ t0 : number) :
  Forall (freshRow t0) t -> Forall (freshRow t0) (insertOrIgnore t u' ref' rate_ t0).
Proof.
  intros H. unfold insertOrIgnore.
  destruct (selectRow t ref' u'); [exact H|].
  apply Forall_app. split; [exact H|].
  constructor; [|constructor]. repeat split.
Qed.

Lemma insertOrIgnore_inserts (t : Table) (u ref : string) (rate_ t0 : number) :
  exists row, selectRow (insertOrIgnore t u ref rate_ t0) ref u = Some row.
Proof.
  unfold insertOrIgnore.
  destruct (selectRow t ref u) as [r|] eqn:E.
  - exists r. exact E.
  - eexists. rewrite selectRow_app, E. cbn [referrer RateMeter.r_url].
    rewrite !String.eqb_refl. reflexivity.
Qed.

Lemma insertAll_keeps (u' : string) (rate_ t0 : number) (referrers : list Referrer) :
  forall t ref u row,
    selectRow t ref u = Some row ->
    selectRow (insertAll u' rate_ t0 referrers t) ref u = Some row.
Proof.
  unfold insertAll. induction referrers as [|r rest IH]; intros t ref u row H; cbn [fold_left].
  - exact H.
  - apply IH. now apply insertOrIgnore_keeps.
Qed.

Lemma insertAll_fresh (u' : string) (rate_ t0 : number) (referrers : list Referrer) :
  forall t, Forall (freshRow t0) t -> Forall (freshRow t0) (insertAll u' rate_ t0 referrers t).
Proof.
  unfold insertAll. induction referrers as [|r rest IH]; intros t H; cbn [fold_left].
  - exact H.
  - apply IH. now apply insertOrIgnore_fresh.
Qed.

Lemma insertAll_inserts (u : string) (rate_ t0 : number) (referrers : list Referrer)
      (r : Referrer) :
  forall t,
    In r referrers ->
    exists row, selectRow (insertAll u rate_ t0 referrers t) (r_referrer r) u = Some row.
Proof.
  unfold insertAll. induction referrers as [|r' rest IH]; intros t Hin; [contradiction|].
  cbn [fold_left]. destruct Hin as [->|Hin].
  - destruct (insertOrIgnore_inserts t u (r_referrer r) rate_ t0) as [row Hrow].
    exists row. apply (insertAll_keeps u rate_ t0 rest). exact Hrow.
  - now apply IH.
Qed.

Lemma createFrom_keeps (servers : list ServerUrl) (referrers : list Referrer) (t0 : number) :
  forall t ref u row,
    selectRow t ref u = Some row ->
    selectRow (createFrom servers referrers t0 t) ref u = Some row.
Proof.
  unfold createFrom. induction servers as [|s rest IH]; intros t ref u row H; cbn [fold_left].
  - exact H.
  - apply IH. destruct (useRateMeter s); [|exact H]. now apply insertAll_keeps.
Qed.

Lemma createFrom_fresh (servers : list ServerUrl) (referrers : list Referrer) (t0 : number) :
  forall t, Forall (freshRow t0) t -> Forall (freshRow t0) (createFrom servers referrers t0 t).
Proof.
  unfold createFrom. induction servers as [|s rest IH]; intros t H; cbn [fold_left].
  - exact H.
  - apply IH. destruct (useRateMeter s); [|exact H]. now apply insertAll_fresh.
Qed.

Lemma createFrom_inserts (servers : list ServerUrl) (referrers : list Referrer) (t0 : number)
      (s : ServerUrl) (r : Referrer) :
  forall t,
    In s servers -> useRateMeter s = true -> In r referrers ->
    exists row, selectRow (createFrom servers referrers t0 t) (r_referrer r) (url s) = Some row.
Proof.
  unfold createFrom. induction servers as [|s' rest IH]; intros t Hs Hmeter Hr; [contradiction|].
  cbn [fold_left]. destruct Hs as [->|Hs].
  - rewrite Hmeter.
    destruct (insertAll_inserts (url s) (rate s) t0 referrers r t Hr) as [row Hrow].
    exists row. apply (createFrom_keeps rest referrers t0). exact Hrow.
  - now apply IH.
Qed.

Lemma createDatabase_createFrom (servers : list ServerUrl) (referrers : list Referrer)
      (t0 : number) :
  createDatabaseIfNotExists servers referrers t0 = createFrom servers referrers t0 [].
Proof. reflexivity. Qed.

(** X15. After createDatabaseIfNotExists the table holds a row for every
    metered resource of the configuration and every allowed referrer, with all
    its counters at zero; the first request of such a pair is therefore
    admitted, whatever the clock says. *)
Theorem createDatabaseIfNotExists_rows
        (servers : list ServerUrl) (referrers : list Referrer) (t0 now : number)
        (s : ServerUrl) (r : Referrer) :
  In s servers -> useRateMeter s = true -> In r referrers ->
  let t := createDatabaseIfNotExists servers referrers t0 in
  (exists row, selectRow t (r_referrer r) (url s) = Some row /\ freshRow t0 row)
  /\ snd (isUnderMeterCap (Some t) None now (r_referrer r) s) = Resolved (Boolean true).
Proof.
  intros Hs Hmeter Hr. cbn zeta. rewrite createDatabase_createFrom.
  destruct (createFrom_inserts servers referrers t0 s r [] Hs Hmeter Hr) as [row Hrow].
  assert (Hfresh : freshRow t0 row).
  { pose proof (createFrom_fresh servers referrers t0 [] (Forall_nil _)) as H.
    rewrite Forall_forall in H. apply H. eapply selectRow_In. exact Hrow. }
  split; [exists row; auto|].
  unfold isUnderMeterCap. rewrite Hrow.
  destruct Hfresh as (-> & _). reflexivity.
Qed.

Lemma fold_max_app (l : list Z) (x a : Z) :
  fold_left Z.max (l ++ [x]) a = Z.max (fold_left Z.max l a) x.
Proof. now rewrite fold_left_app. Qed.

Lemma fold_max_seq (n : nat) :
  fold_left Z.max (map Z.of_nat (seq 1 n)) 0 = Z.of_nat n.
Proof.
  induction n as [|n IH]; [reflexivity|].
  rewrite seq_S, map_app. cbn [map]. rewrite fold_max_app, IH. cbn [Nat.add]. lia.
Qed.

Lemma insertOrIgnore_wellKeyed (servers : list ServerUrl) (referrers : list Referrer)
      (t : Table) (s : ServerUrl) (r : Referrer) (t0 : number) :
  In s servers -> useRateMeter s = true -> In r referrers ->
  wellKeyed servers referrers t ->
  wellKeyed servers referrers (insertOrIgnore t (url s) (r_referrer r) (rate s) t0).
Proof.
  intros Hs Hmeter Hr (Hnodup & Hids & Horigin). unfold insertOrIgnore.
  destruct (selectRow t (r_referrer r) (url s)) eqn:E; [repeat split; assumption|].
  apply selectRow_none in E. repeat split.
  - unfold keys in *. rewrite map_app. cbn [map RateMeter.r_url referrer].
    rewrite <- (rev_involutive (map _ t ++ [_])). apply NoDup_rev.
    rewrite rev_app_distr. cbn [rev app]. constructor.
    + rewrite <- in_rev. exact E.
    + now apply NoDup_rev.
  - rewrite map_app, length_app. cbn [map id List.length].
    rewrite Nat.add_1_r, seq_S, map_app. cbn [map Nat.add].
    assert (Hmax : fold_left Z.max (map id t) 0 = Z.of_nat (List.length t))
      by (rewrite Hids; apply fold_max_seq).
    rewrite Hmax, <- Hids. f_equal. f_equal. lia.
  - apply Forall_app. split; [exact Horigin|].
    constructor; [|constructor]. exists s, r. cbn. auto 10.
Qed.

Lemma insertAll_wellKeyed (servers : list ServerUrl) (referrers : list Referrer)
      (s : ServerUrl) (t0 : number) (some : list Referrer) :
  In s servers -> useRateMeter s = true ->
  (forall r, In r some -> In r referrers) ->
  forall t, wellKeyed servers referrers t ->
            wellKeyed servers referrers (insertAll (url s) (rate s) t0 some t).
Proof.
  intros Hs Hmeter. unfold insertAll.
  induction some as [|r rest IH]; intros Hincl t H; cbn [fold_left]; [exact H|].
  apply IH.
  - intros r' Hr'. apply Hincl. now right.
  - apply insertOrIgnore_wellKeyed; auto. apply Hincl. now left.
Qed.

Lemma createFrom_wellKeyed (servers : list ServerUrl) (referrers : list Referrer) (t0 : number)
      (some : list ServerUrl) :
  (forall s, In s some -> In s servers) ->
  forall t, wellKeyed servers referrers t ->
            wellKeyed servers referrers (createFrom some referrers t0 t).
Proof.
  unfold createFrom. induction some as [|s rest IH]; intros Hincl t H; cbn [fold_left];
    [exact H|].
  apply IH.
  - intros s' Hs'. apply Hincl. now right.
  - destruct (useRateMeter s) eqn:Hmeter; [|exact H].
    apply insertAll_wellKeyed; auto. apply Hincl. now left.
Qed.

(** X16. The table createDatabaseIfNotExists builds holds no pair of address
    and referrer twice, its keys id count 1, 2, 3, ... in the order of the
    rows, and every row belongs to a metered resource of the configuration and
    an allowed referrer, with the rate of that resource. *)
Theorem createDatabaseIfNotExists_keys
        (servers : list ServerUrl) (referrers : list Referrer) (t0 : number) :
  let t := createDatabaseIfNotExists servers referrers t0 in
  NoDup (map (fun row => (RateMeter.r_url row, referrer row)) t)
  /\ map id t = map Z.of_nat (seq 1 (List.length t))
  /\ Forall (fun row =>
               exists s r, In s servers /\ useRateMeter s = true /\ In r referrers
                           /\ RateMeter.r_url row = url s
                           /\ referrer row = r_referrer r
                           /\ r_rate row = rate s) t.
Proof.
  cbn zeta. rewrite createDatabase_createFrom.
  apply (createFrom_wellKeyed servers referrers t0 servers); [auto|].
  repeat split; constructor.
Qed.

End MeterTable.

Section MeterTableCases.
Import UrlFlexParser Configuration RateMeter Terms Examples.

Lemma createDatabaseIfNotExists_rows_witness :
  In tiles [tiles] /\ useRateMeter tiles = true
  /\ (exists r, In r (fst allowList) /\ r_referrer r = appKey
                /\ snd (isUnderMeterCap (Some freshTable) None 5 (r_referrer r) tiles)
                   = Resolved (Boolean true)).
Proof.
  split; [now left|]. split; [reflexivity|].
  destruct (fst allowList) as [|r rest] eqn:E; [vm_compute in E; discriminate|].
  exists r. split; [now left|]. split.
  - vm_compute in E. injection E as <- _. reflexivity.
  - assert (Hr : In r (fst allowList)) by (rewrite E; now left).
    apply (createDatabaseIfNotExists_rows [tiles] (fst allowList) 0 5 tiles r);
      [now left | reflexivity | exact Hr].
Defined.

End MeterTableCases.

(** ** One request at the meter *)

Section MeterSteps.
Import UrlFlexParser Configuration RateMeter MoreRateMeter Terms.

Lemma Forall2_map_same {A : Type} (R : A -> A -> Prop) (f : A -> A) (l : list A) :
  (forall a, R a (f a)) -> Forall2 R l (map f l).
Proof. intros H. induction l; cbn; constructor; auto. Qed.

Lemma Forall2_same {A : Type} (R : A -> A -> Prop) (l : list A) :
  (forall a, R a a) -> Forall2 R l l.
Proof. intros H. induction l; constructor; auto. Qed.

Lemma sameKey_refl (row : Row) : sameKey row row /\ countedOnce row row.
Proof. unfold sameKey, countedOnce. repeat split; try reflexivity; lia. Qed.

Lemma sameKey_admitted (i c : Z) (now : number) (row : Row) :
  let after := if id row =? i then admitted row c now else row in
  sameKey row after /\ countedOnce row after.
Proof.
  cbn zeta. destruct (id row =? i); [|apply sameKey_refl].
  unfold sameKey, countedOnce. cbn. repeat split; try reflexivity; lia.
Qed.

Lemma sameKey_refused (i : Z) (row : Row) :
  let after := if id row =? i then refused row else row in
  sameKey row after /\ countedOnce row after.
Proof.
  cbn zeta. destruct (id row =? i); [|apply sameKey_refl].
  unfold sameKey, countedOnce. cbn. repeat split; try reflexivity; lia.
Qed.

(** X17. A request at the meter neither adds nor removes a row: row by row,
    the table afterwards has the same id, address, referrer and rate, no
    counter has gone down, and total and rejected together have grown by one at
    most.  A closed connection stays closed and the promise is rejected. *)
Theorem isUnderMeterCap_keeps_rows
        (t : Table) (selectError : option string) (now : number) (ref : string) (s : ServerUrl) :
  (exists t',
      fst (isUnderMeterCap (Some t) selectError now ref s) = Some t'
      /\ Forall2 (fun before after => sameKey before after /\ countedOnce before after) t t')
  /\ isUnderMeterCap None selectError now ref s
     = (None, Rejected "Database connection was not open. Call start() first.").
Proof.
  split; [|reflexivity].
  unfold isUnderMeterCap.
  destruct selectError as [e|].
  { exists t. split; [reflexivity|]. apply Forall2_same. apply sameKey_refl. }
  destruct (selectRow t ref (url s)) as [row|].
  2:{ exists t. split; [reflexivity|]. apply Forall2_same. apply sameKey_refl. }
  destruct (_ || _).
  { eexists. split; [reflexivity|]. unfold updateAdmitted.
    apply Forall2_map_same. intros a. apply sameKey_admitted. }
  destruct (_ <? _)%float.
  - eexists. split; [reflexivity|]. unfold updateAdmitted.
    apply Forall2_map_same. intros a. apply sameKey_admitted.
  - eexists. split; [reflexivity|]. unfold updateRejected.
    apply Forall2_map_same. intros a. apply sameKey_refused.
Qed.

(** X19. The count of a row stays within one of the rate, as the meter
    compares the two: for a resource whose rate is above zero, if the row of a
    request is unused or its count less one is below the rate, the same holds
    for that row after the request, admitted or not, and the count stays at
    zero or above. *)
Theorem count_stays_within_rate
        (s : ServerUrl) (t t' : Table) (now : number) (ref : string) (row : Row)
        (outcome : settled) :
  (0 <? rate s)%float = true ->
  selectRow t ref (url s) = Some row ->
  withinRate s row ->
  isUnderMeterCap (Some t) None now ref s = (Some t', outcome) ->
  exists row', selectRow t' ref (url s) = Some row' /\ withinRate s row'.
Proof.
  intros Hrate Hrow [Hc0 Hc] Hstep.
  destruct (isUnderMeterCap_step t now ref s row Hrow)
    as (t1 & admitted_ & row' & Hstep' & Hrow' & Hbranch).
  rewrite Hstep' in Hstep. injection Hstep as <- _.
  exists row'. split; [exact Hrow'|].
  destruct (_ || _) in Hbranch.
  { injection Hbranch as _ ->. unfold withinRate. cbn [admitted count].
    split; [lia|]. right. exact Hrate. }
  destruct (numberOf (count row) <? rate s)%float eqn:E.
  - injection Hbranch as _ ->. unfold withinRate. cbn [admitted count].
    split; [lia|]. right.
    replace (count row + 1 - 1) with (count row) by lia. exact E.
  - injection Hbranch as _ ->. unfold withinRate. cbn [refused count].
    split; assumption.
Qed.

Lemma total_sum_update (f : Row -> Row) (row : Row) (t : Table) :
  NoDup (map id t) -> In row t ->
  fold_right Z.add 0 (map total (map (fun r => if id r =? id row then f r else r) t))
  = fold_right Z.add 0 (map total t) + (total (f row) - total row).
Proof.
  induction t as [|r t IH]; [contradiction|].
  intros Hnodup Hin. cbn [map fold_right].
  inversion Hnodup as [|? ? Hnotin Hnodup']; subst.
  destruct Hin as [->|Hin].
  - rewrite Z.eqb_refl.
    assert (Hrest : map (fun r => if id r =? id row then f r else r) t = t).
    { clear IH Hnodup Hnodup'. induction t as [|r t IH]; [reflexivity|].
      cbn [map]. destruct (Z.eqb_spec (id r) (id row)) as [E|E].
      - exfalso. apply Hnotin. left. exact E.
      - f_equal. apply IH. intros H. apply Hnotin. now right. }
    rewrite Hrest. lia.
  - destruct (Z.eqb_spec (id r) (id row)) as [E|E].
    + exfalso. apply Hnotin. rewrite E. now apply in_map.
    + rewrite (IH Hnodup' Hin). lia.
Qed.

(** X20. On a table with distinct ids, the sum of the totals that
    getTotalCount reports counts the admitted requests: it grows by one with a
    request the meter admits and stays as it is with any other outcome. *)
Theorem getTotalCount_counts_admissions
        (t t' : Table) (selectError : option string) (now : number) (ref : string)
        (s : ServerUrl) (outcome : settled) (T : Z) :
  NoDup (map id t) ->
  getTotalCount t None = Some T ->
  isUnderMeterCap (Some t) selectError now ref s = (Some t', outcome) ->
  getTotalCount t' None
  = Some (match outcome with
          | Resolved (Boolean true) => T + 1
          | _ => T
          end).
Proof.
  intros Hnodup Htotal Hstep. unfold getTotalCount in *.
  destruct t as [|r0 t0] eqn:Et; [discriminate|]. rewrite <- Et in *.
  injection Htotal as <-.
  assert (Hmap : forall f : Row -> Row,
             match map f t with
             | [] => None
             | _ => Some (fold_right Z.add 0 (map total (map f t)))
             end = Some (fold_right Z.add 0 (map total (map f t)))).
  { intros f. rewrite Et. reflexivity. }
  assert (Hsame : match t with
                  | [] => None
                  | _ => Some (fold_right Z.add 0 (map total t))
                  end = Some (fold_right Z.add 0 (map total t))).
  { rewrite Et. reflexivity. }
  unfold isUnderMeterCap in Hstep.
  destruct selectError as [e|].
  { injection Hstep as <- <-. exact Hsame. }
  destruct (selectRow t ref (url s)) as [row|] eqn:Hrow.
  2:{ injection Hstep as <- <-. exact Hsame. }
  apply selectRow_In in Hrow.
  destruct (_ || _) in Hstep.
  { injection Hstep as <- <-. unfold updateAdmitted. rewrite Hmap.
    rewrite (total_sum_update (fun r => admitted r 1 now) row t Hnodup Hrow).
    cbn [admitted total]. f_equal. lia. }
  destruct (_ <? _)%float in Hstep.
  - injection Hstep as <- <-. unfold updateAdmitted. rewrite Hmap.
    rewrite (total_sum_update (fun r => admitted r (count row + 1) (time row)) row t
                              Hnodup Hrow).
    cbn [admitted total]. f_equal. lia.
  - injection Hstep as <- <-. unfold updateRejected. rewrite Hmap.
    rewrite (total_sum_update refused row t Hnodup Hrow).
    cbn [refused total]. f_equal. lia.
Qed.

Variable urlParse : string -> UrlObject.

(** X21. At start-up no validated request of a metered resource misses its
    row: when the allow-list is cached by postParseConfigurationFile and the
    table is created from it, the key the referrer validator returns and the
    address of any metered resource of the configuration select a row. *)
Theorem validated_requests_have_rows
        (section : ReferrerSection) (cUseHTTPS cMatchAllReferrer : option bool)
        (servers : list ServerUrl) (t0 : number)
        (referrer : option string) (key : string) (s : ServerUrl) :
  let cached := postParseAllowedReferrers urlParse section in
  validatedReferrerFromReferrer
    urlParse (setConfiguration cUseHTTPS cMatchAllReferrer (Some (snd cached)))
    referrer (fst cached) = Some key ->
  In s servers -> useRateMeter s = true ->
  exists row,
    selectRow (createDatabaseIfNotExists servers (fst cached) t0) key (url s) = Some row
    /\ freshRow t0 row.
Proof.
  cbn zeta. intros Hkey Hs Hmeter.
  assert (Hentry : exists entry, In entry (fst (postParseAllowedReferrers urlParse section))
                                 /\ key = r_referrer entry).
  { unfold validatedReferrerFromReferrer in Hkey.
    cbn [allowAnyReferrer setConfiguration] in Hkey.
    destruct (snd (postParseAllowedReferrers urlParse section)) eqn:Hany.
    - injection Hkey as <-. exists anyReferrer. split; [|reflexivity].
      unfold postParseAllowedReferrers in *. apply cacheReferrers_star.
      rewrite cacheReferrers_any in Hany. cbn [orb] in Hany.
      apply existsb_exists in Hany as (entry & Hin & Heq).
      apply String.eqb_eq in Heq. now subst.
    - destruct referrer as [r|]; [|discriminate].
      destruct (0 <? len r); [|discriminate].
      eapply matchAllowedReferrers_In. exact Hkey. }
  destruct Hentry as (entry & Hin & ->).
  rewrite createDatabase_createFrom.
  destruct (createFrom_inserts servers _ t0 s entry [] Hs Hmeter Hin) as [row Hrow].
  exists row. split; [exact Hrow|].
  pose proof (createFrom_fresh servers (fst (postParseAllowedReferrers urlParse section))
                               t0 [] (Forall_nil _)) as H.
  rewrite Forall_forall in H. apply H. eapply selectRow_In. exact Hrow.
Qed.

End MeterSteps.

Section MeterStepCases.
Import UrlFlexParser Configuration RateMeter MoreRateMeter Terms Examples.

Lemma count_stays_within_rate_witness :
  (0 <? rate tiles)%float = true
  /\ withinRate tiles usedRow
  /\ exists row',
      selectRow [refused usedRow] appKey (url tiles) = Some row'
      /\ withinRate tiles row'.
Proof.
  assert (Hrate : (0 <? rate tiles)%float = true) by (vm_compute; reflexivity).
  assert (H : withinRate tiles usedRow).
  { unfold withinRate. split; [cbn; lia|]. right. vm_compute. reflexivity. }
  split; [exact Hrate|]. split; [exact H|].
  apply (count_stays_within_rate tiles [usedRow] [refused usedRow] 1 appKey
                                 usedRow (Resolved (Boolean false)) Hrate);
    [reflexivity | exact H | vm_compute; reflexivity].
Defined.

Lemma getTotalCount_counts_admissions_witness :
  NoDup (map id [usedRow])
  /\ getTotalCount [usedRow] None = Some 1
  /\ getTotalCount [admitted usedRow 1 30] None = Some 2.
Proof.
  assert (H : NoDup (map id [usedRow])) by (repeat constructor; cbn; tauto).
  split; [exact H|]. split; [reflexivity|].
  apply (getTotalCount_counts_admissions [usedRow] [admitted usedRow 1 30] None 30 appKey tiles
                                         (Resolved (Boolean true)) 1 H);
    reflexivity.
Defined.

Lemma validated_requests_have_rows_witness :
  validatedReferrerFromReferrer
    urlParseExamples
    (setConfiguration (Some false) (Some true) (Some (snd allowList)))
    (Some "https://app.example.org/") (fst allowList) = Some appKey
  /\ In tiles [tiles] /\ useRateMeter tiles = true
  /\ exists row,
      selectRow (createDatabaseIfNotExists [tiles] (fst allowList) 0) appKey (url tiles)
      = Some row
      /\ freshRow 0 row.
Proof.
  assert (H1 : validatedReferrerFromReferrer
                 urlParseExamples
                 (setConfiguration (Some false) (Some true) (Some (snd allowList)))
                 (Some "https://app.example.org/") (fst allowList) = Some appKey)
    by (vm_compute; reflexivity).
  assert (H2 : In tiles [tiles]) by (now left).
  split; [exact H1|]. split; [exact H2|]. split; [reflexivity|].
  apply (validated_requests_have_rows
           urlParseExamples (ReferrerArray ["https://app.example.org"])
           (Some false) (Some true) [tiles] 0 (Some "https://app.example.org/") appKey tiles
           H1 H2 eq_refl).
Defined.

End MeterStepCases.

(** ** The dispatcher *)

Section Dispatching.
Import UrlFlexParser Configuration RateMeter Proxy Terms.

Variable urlParse : string -> UrlObject.
Variable settings : Settings.
Variable cfg : Config.
Variable timeOfRequest : number.
Variable selectError : option string.
Variable isEmptyObject : object -> bool.

(** X22. When mustMatch is switched off no request is forwarded: no listen
    path counts as valid, so whatever is not a ping, an echo or a status request
    is handed to the static files, and the meter is never asked. *)
Theorem mustMatch_off_never_proxies (st : Server) (request : Request) :
  mustMatch cfg = false ->
  let result := processRequest urlParse settings cfg timeOfRequest selectError isEmptyObject
                               st request in
  (forall target hostHeader parameters, snd result <> ProxyWeb target hostHeader parameters)
  /\ rateMeter (fst result) = rateMeter st.
Proof.
  intros Hmust. cbn zeta. dispatch. unfold isValidURLRequest. rewrite Hmust.
  cases; cbn [fst snd rateMeter countAttempt countValid countError];
    (split; [intros; discriminate | reflexivity]).
Qed.


(** X25. A POST or PUT request is never forwarded.  For these methods
    processValidatedRequest reads the header under the name Content-Type, which
    the request object of Node (whose header names are in lower case) does not
    have, and the call of indexOf on the missing value throws: with a proxy
    server the function ends in an exception, this one or an earlier one of
    the parameters, and without one in the error envelope with status 500. *)
Theorem post_and_put_are_never_forwarded (st : Server) (request : Request) :
  method request = "POST" \/ method request = "PUT" ->
  (forall target hostHeader parameters,
      snd (processRequest urlParse settings cfg timeOfRequest selectError isEmptyObject
                          st request)
      <> ProxyWeb target hostHeader parameters)
  /\ (forall requestParts info ref,
        let reply := snd (processValidatedRequest urlParse settings isEmptyObject st
                                                  requestParts info ref request) in
        if proxyServer st
        then (exists e, reply = Fatal e)
             /\ (forall parameters parametersCombined,
                    requestParameters requestParts info request = Ok parameters ->
                    (if negb (isEmptyObject parameters)
                     then ProjectUtilities.objectToQueryString parameters
                     else Ok EmptyString) = Ok parametersCombined ->
                    reply = Fatal (TypeError "Cannot read property indexOf of undefined"))
        else reply = JSONResponse 500 (ErrorEnvelope 500 "Internal error" "Internal error"
                                                     (proxyPath requestParts))).
Proof.
  intros Hmethod.
  assert (Hpost : String.eqb (method request) "POST" || String.eqb (method request) "PUT"
                  = true)
    by (destruct Hmethod as [-> | ->]; reflexivity).
  split.
  - intros target hostHeader parameters. dispatch. rewrite Hpost.
    cases; cbn [snd]; discriminate.
  - intros requestParts info ref. cbn zeta. unfold processValidatedRequest.
    destruct (proxyServer st); [|reflexivity].
    rewrite Hpost. split.
    + cases; cbn [snd]; eexists; reflexivity.
    + intros parameters parametersCombined -> ->.
      cases; reflexivity.
Qed.

Lemma firstMatch_split (request : MatchParts) (servers : list ServerUrl) (info : ServerUrl) :
  firstMatch request servers = Some info ->
  exists before after,
    servers = (before ++ info :: after)%list
    /\ parsedUrlPartsMatch request (matchPartsOfServerUrl info) = true
    /\ Forall (fun s => parsedUrlPartsMatch request (matchPartsOfServerUrl s) = false) before.
Proof.
  induction servers as [|s rest IH]; cbn [firstMatch]; [discriminate|].
  destruct (parsedUrlPartsMatch request (matchPartsOfServerUrl s)) eqn:E.
  - intros [= <-]. exists [], rest. auto.
  - intros H. destruct (IH H) as (before & after & -> & Hmatch & Hbefore).
    exists (s :: before), after. auto.
Qed.

Lemma firstMatch_none (request : MatchParts) (servers : list ServerUrl) :
  firstMatch request servers = None ->
  Forall (fun s => parsedUrlPartsMatch request (matchPartsOfServerUrl s) = false) servers.
Proof.
  induction servers as [|s rest IH]; cbn [firstMatch]; [constructor|].
  destruct (parsedUrlPartsMatch request (matchPartsOfServerUrl s)) eqn:E; [discriminate|].
  intros H. constructor; auto.
Qed.

Lemma parsedUrlPartsMatch_request (request target : MatchParts) :
  m_matchAll request = false ->
  parsedUrlPartsMatch request target = true ->
  testDomainsMatch (m_hostname request) (m_hostname target) = true
  /\ (m_path target = "*"
      \/ ProjectUtilities.startsWith (m_path target) (m_path request) = true).
Proof.
  intros Hall. unfold parsedUrlPartsMatch. rewrite Hall.
  destruct (testDomainsMatch _ _); [|discriminate].
  destruct (_ || _ || _); [|discriminate].
  intros H. split; [reflexivity|].
  apply orb_true_iff in H. destruct H as [H|H]; [left | right; exact H].
  now apply String.eqb_eq.
Qed.

(** X26. The resource getServerUrlInfo returns is the first one of the
    configuration, in its order, that parsedUrlPartsMatch accepts for the parts
    that getServerUrlInfo makes of the request.  The host of the request stands
    where testDomainsMatch expects the pattern, and the path of the resource is
    the star or starts with the path of the request, letter case aside.  No
    resource is returned when the request has no proxied path or no resource
    accepts its parts. *)
Theorem getServerUrlInfo_first_match (requestParts : RequestParts) :
  let request := requestedUrlParts urlParse requestParts in
  match getServerUrlInfo urlParse cfg requestParts with
  | Some info =>
      proxyPath requestParts <> EmptyString
      /\ (exists before after,
             serverUrls cfg = (before ++ info :: after)%list
             /\ Forall (fun s => parsedUrlPartsMatch request (matchPartsOfServerUrl s) = false)
                       before)
      /\ parsedUrlPartsMatch request (matchPartsOfServerUrl info) = true
      /\ testDomainsMatch (m_hostname request) (s_hostname info) = true
      /\ (s_path info = "*"
          \/ ProjectUtilities.startsWith (s_path info) (m_path request) = true)
  | None =>
      proxyPath requestParts = EmptyString
      \/ Forall (fun s => parsedUrlPartsMatch request (matchPartsOfServerUrl s) = false)
                (serverUrls cfg)
  end.
Proof.
  cbn zeta. unfold getServerUrlInfo.
  destruct (String.eqb_spec (proxyPath requestParts) EmptyString) as [Hpath|Hpath];
    [left; exact Hpath|].
  destruct (firstMatch (requestedUrlParts urlParse requestParts) (serverUrls cfg))
    as [info|] eqn:H.
  - split; [exact Hpath|].
    destruct (firstMatch_split _ _ _ H) as (before & after & Hcfg & Hmatch & Hbefore).
    split; [exists before, after; split; assumption|].
    split; [exact Hmatch|].
    apply (parsedUrlPartsMatch_request _ (matchPartsOfServerUrl info)); [|exact Hmatch].
    unfold requestedUrlParts.
    destruct (if String.eqb (hostname _) EmptyString then _ else _). reflexivity.
  - right. apply firstMatch_none. exact H.
Qed.

Lemma firstMatch_setMatchAll (b : bool) (request : MatchParts) (servers : list ServerUrl) :
  firstMatch request (map (setMatchAll b) servers)
  = option_map (setMatchAll b) (firstMatch request servers).
Proof.
  induction servers as [|s rest IH]; cbn [map firstMatch]; [reflexivity|].
  change (parsedUrlPartsMatch request (matchPartsOfServerUrl (setMatchAll b s)))
    with (parsedUrlPartsMatch request (matchPartsOfServerUrl s)).
  destruct (parsedUrlPartsMatch request (matchPartsOfServerUrl s)); [reflexivity | exact IH].
Qed.

(** X27. The option matchAll of a resource has no part in the choice of the
    resource: parsedUrlPartsMatch reads matchAll from the parts of the
    request, which have none, so with matchAll set to any value on every
    resource the same resource is matched. *)
Theorem getServerUrlInfo_ignores_matchAll (b : bool) (requestParts : RequestParts) :
  getServerUrlInfo urlParse (withServerUrls cfg (map (setMatchAll b) (serverUrls cfg)))
                   requestParts
  = option_map (setMatchAll b) (getServerUrlInfo urlParse cfg requestParts).
Proof.
  unfold getServerUrlInfo. cbn [serverUrls withServerUrls].
  destruct (String.eqb (proxyPath requestParts) EmptyString); [reflexivity|].
  apply firstMatch_setMatchAll.
Qed.

End Dispatching.

Section DispatchingCases.
Import UrlFlexParser Configuration RateMeter Proxy Terms Examples.

Lemma mustMatch_off_never_proxies_witness :
  mustMatch openConfig = false
  /\ snd (processRequest urlParseExamples settings openConfig 1 None isEmptyObjectExamples
                         (started freshTable) tilesRequest)
     = NoResponse
  /\ forall target hostHeader parameters,
      snd (processRequest urlParseExamples settings openConfig 1 None isEmptyObjectExamples
                          (started freshTable) tilesRequest)
      <> ProxyWeb target hostHeader parameters.
Proof.
  split; [reflexivity|]. split; [vm_compute; reflexivity|].
  apply (mustMatch_off_never_proxies urlParseExamples settings openConfig 1 None
                                     isEmptyObjectExamples
                                     (started freshTable) tilesRequest).
  reflexivity.
Defined.

Lemma post_and_put_are_never_forwarded_witness :
  method (request_ "POST" "/proxy/http/tiles.example.com/ArcGIS/rest/services"
                   (Some "https://app.example.org/")) = "POST"
  /\ forall target hostHeader parameters,
      snd (processRequest urlParseExamples settings config 1 None isEmptyObjectExamples
             (started freshTable)
             (request_ "POST" "/proxy/http/tiles.example.com/ArcGIS/rest/services"
                       (Some "https://app.example.org/")))
      <> ProxyWeb target hostHeader parameters.
Proof.
  split; [reflexivity|].
  apply (post_and_put_are_never_forwarded
           urlParseExamples settings config 1 None isEmptyObjectExamples
           (started freshTable)
           (request_ "POST" "/proxy/http/tiles.example.com/ArcGIS/rest/services"
                     (Some "https://app.example.org/"))).
  left. reflexivity.
Defined.

End DispatchingCases.

(** ** The response of the service *)

Section Responses.
Import UrlFlexParser Configuration Proxy Statements Terms.

Variable deflateSync gunzipSync : string -> result string.

Lemma written_writes (chunks : list string) :
  written (map Write chunks ++ [End_])%list = String.concat EmptyString chunks
  /\ endings (map Write chunks ++ [End_])%list = 1%nat.
Proof.
  induction chunks as [|c rest [IHw IHe]]; [split; reflexivity|].
  cbn [map app written endings]. rewrite IHw, IHe. split; [|reflexivity].
  destruct rest as [|c' rest']; cbn [String.concat].
  - apply append_empty_r.
  - reflexivity.
Qed.

(** A body of ASCII bytes is its own text. *)
Lemma utf8Text_ascii (bytes : string) :
  allChars isAscii bytes = true -> utf8Text bytes = bytes.
Proof.
  unfold utf8Text. induction bytes as [|c r IH]; [reflexivity|].
  cbn [allChars]. intros H. apply andb_true_iff in H. destruct H as [Hc Hr].
  cbn [utf8From]. unfold isAscii in Hc. rewrite Hc, (IH Hr). reflexivity.
Qed.

(** X28. For a resource that may not require a token the client is sent the
    chunks of the body as they come and in their order.  For a resource that
    may require one, the client is sent, in one piece, the text that toString
    makes of the collected body, where every part that is not well-formed
    UTF-8 has become the replacement character: the body itself when all its
    bytes are ASCII.  Either way the connection is ended once; a content type
    without the WMS type of OGC is passed on as it is, and otherwise the first
    occurrence of that type is replaced by text/xml. *)
Theorem proxyResponseRewrite_passes_body
        (contentType contentEncoding : option string) (serverUrlInfo : option ServerUrl)
        (chunks : list string) :
  let result := proxyResponseRewrite deflateSync gunzipSync contentType contentEncoding
                                     serverUrlInfo chunks in
  let inspected := match serverUrlInfo with
                   | Some info => mayRequireToken info
                   | None => false
                   end in
  snd result = (if inspected
                then [Write (utf8Text (String.concat EmptyString chunks)); End_]
                else (map Write chunks ++ [End_])%list)
  /\ (inspected = false \/ allChars isAscii (String.concat EmptyString chunks) = true ->
      written (snd result) = String.concat EmptyString chunks)
  /\ endings (snd result) = 1%nat
  /\ (forall t, contentType = Some t ->
                find "application/vnd.ogc.wms_xml" t = None -> fst result = Some t)
  /\ (forall a b, contentType = Some (a ++ "application/vnd.ogc.wms_xml" ++ b) ->
                  find "application/vnd.ogc.wms_xml" (a ++ "application/vnd.ogc.wms_xml" ++ b)
                  = Some (String.length a) ->
                  fst result = Some (a ++ "text/xml" ++ b)).
Proof.
  cbn zeta. unfold proxyResponseRewrite.
  assert (Hbody :
            forall events,
              events = (if match serverUrlInfo with
                           | Some info => mayRequireToken info
                           | None => false
                           end
                        then checkServerResponseForMissingToken
                               deflateSync gunzipSync contentEncoding chunks checkForMissingToken
                        else (map Write chunks ++ [End_])%list) ->
              events = (if match serverUrlInfo with
                           | Some info => mayRequireToken info
                           | None => false
                           end
                        then [Write (utf8Text (String.concat EmptyString chunks)); End_]
                        else (map Write chunks ++ [End_])%list)
              /\ (match serverUrlInfo with
                  | Some info => mayRequireToken info
                  | None => false
                  end = false
                  \/ allChars isAscii (String.concat EmptyString chunks) = true ->
                  written events = String.concat EmptyString chunks)
              /\ endings events = 1%nat).
  { intros events ->. destruct (match serverUrlInfo with Some _ => _ | None => _ end).
    - rewrite inspection_passes_body_on. split; [reflexivity|]. split; [|reflexivity].
      intros [H|H]; [discriminate|]. cbn [written].
      rewrite (utf8Text_ascii _ H). apply append_empty_r.
    - split; [reflexivity|]. split; [intros _|]; apply written_writes. }
  destruct (match serverUrlInfo with Some _ => _ | None => _ end) eqn:E;
    cbn [fst snd];
    (split; [apply (Hbody _ eq_refl)|]; split; [apply (Hbody _ eq_refl)|];
     split; [apply (Hbody _ eq_refl)|]; split).
  all: try (intros t -> Hfind; cbn [option_map]; unfold replaceFirst; now rewrite Hfind).
  all: intros a b -> Hfind; cbn [option_map]; unfold replaceFirst; rewrite Hfind, take_app;
    replace (String.length a + String.length "application/vnd.ogc.wms_xml")%nat
      with (String.length (a ++ "application/vnd.ogc.wms_xml"))
      by (now rewrite length_append);
    rewrite <- (append_assoc a "application/vnd.ogc.wms_xml" b), drop_app; reflexivity.
Qed.

End Responses.

(** ** The address of the token information *)

Section TokenInformation.
Import MoreProxy.

(** X29. The address getTokenEndpointFromURL asks for the token services
    always ends with /rest/info, and for an address with /rest/ in it it is
    what stands before the first /rest/ followed by /rest/info, whatever
    follows: all services below one root share it. *)
Theorem tokenUrl_rest_info (url : string) :
  (exists front, tokenUrl url = front ++ "/rest/info")
  /\ forall root tail,
      url = root ++ "/rest/" ++ tail ->
      find "/rest/" url = Some (String.length root) ->
      tokenUrl url = root ++ "/rest/info".
Proof.
  unfold tokenUrl, defaultAGOLRestPath, defaultAGOLRestPathStart, defaultAGOLSharePath,
    defaultAGOLSharePathStart, defaultPortalServicePath.
  split.
  - destruct (0 <=? indexOf url "/rest/").
    + eexists. reflexivity.
    + destruct (0 <=? indexOf url "/sharing/").
      * exists (substr2 url 0 (indexOf url "/sharing/") ++ "/sharing").
        now rewrite append_assoc.
      * exists (url ++ "/arcgis"). now rewrite append_assoc.
  - intros root tail Hurl Hfind. unfold indexOf. rewrite Hfind.
    replace (0 <=? Z.of_nat (String.length root)) with true
      by (symmetry; apply Z.leb_le; lia).
    unfold substr2, substrStart. cbn [Z.ltb Z.compare Z.to_nat drop].
    rewrite Nat2Z.id, Hurl, take_app. reflexivity.
Qed.

End TokenInformation.

(** ** The credentials of a resource *)

Section CredentialFlags.
Import ProjectUtilities MoreProjectUtilities UrlFlexParser MoreConfiguration.

Lemma get_set_other (o : object) (k v k' : string) :
  k <> "__proto__" -> k <> k' -> get (set o k v) k' = get o k'.
Proof.
  intros Hk Hkk. rewrite get_set by exact Hk.
  destruct (String.eqb_spec k k'); [contradiction | reflexivity].
Qed.

Lemma get_set_same (o : object) (k v : string) :
  k <> "__proto__" -> get (set o k v) k = Some v.
Proof. intros Hk. rewrite get_set by exact Hk. now rewrite String.eqb_refl. Qed.

Lemma getIfPropertySet_set (o : object) (k : string) :
  isPropertySet (Some (getIfPropertySet o k EmptyString)) = isPropertySet (get o k).
Proof.
  unfold getIfPropertySet, isPropertySet.
  destruct (get o k) as [v|]; [|reflexivity].
  destruct (0 <? len (trim v)) eqn:E; [exact E | reflexivity].
Qed.

(** X30. The flags postParseConfigurationFile computes for a resource:
    isUserLogin holds when username and password are both set (not blank),
    isAppLogin when the properties spelled clientid and clientsecret, in lower
    case, are both set, and mayRequireToken when accessToken is set or one of
    the two holds.  The properties clientId and clientSecret, as the
    configuration file spells them, have no part in any of the three. *)
Theorem postParseCredentials_flags (serverUrl : object) :
  let c := postParseCredentials serverUrl in
  let isSet := fun k => isPropertySet (get serverUrl k) in
  c_isUserLogin c = isSet "username" && isSet "password"
  /\ c_isAppLogin c = isSet "clientid" && isSet "clientsecret"
  /\ c_mayRequireToken c
     = isSet "accessToken" || (isSet "username" && isSet "password")
       || (isSet "clientid" && isSet "clientsecret").
Proof.
  cbn zeta. unfold postParseCredentials.
  set (o1 := if isPropertySet (get serverUrl "clientId") || _ || _ then _ else serverUrl).
  assert (H1 : forall k, k <> "clientId" -> k <> "clientSecret" -> k <> "oauth2Endpoint" ->
                         get o1 k = get serverUrl k).
  { intros k Ha Hb Hc. subst o1.
    destruct (_ || _ || _); [|reflexivity].
    destruct (negb _);
      rewrite !get_set_other by (discriminate || congruence); reflexivity. }
  clearbody o1.
  set (o2 := if isPropertySet (get o1 "username") || _ then _ else o1).
  assert (Huser : isUserLogin o2
                  = isPropertySet (get serverUrl "username")
                    && isPropertySet (get serverUrl "password")).
  { subst o2. unfold isUserLogin.
    destruct (isPropertySet (get o1 "username") || isPropertySet (get o1 "password")) eqn:E.
    - rewrite get_set_other, !get_set_same by discriminate.
      pose proof (getIfPropertySet_set o1 "username") as Hu.
      pose proof (getIfPropertySet_set o1 "password") as Hp.
      unfold isPropertySet at 1 in Hu. unfold isPropertySet at 1 in Hp.
      unfold getIfPropertySet at 2. rewrite get_set_other by discriminate.
      fold (getIfPropertySet o1 "password" EmptyString).
      rewrite Hu, Hp, !H1 by discriminate. reflexivity.
    - apply orb_false_iff in E as [Eu Ep].
      rewrite !H1 in * by discriminate. rewrite Eu, Ep.
      unfold isPropertySet in Eu, Ep.
      destruct (get serverUrl "username") as [u|]; [|reflexivity].
      rewrite Eu. reflexivity. }
  assert (H2 : forall k, k <> "username" -> k <> "password" -> get o2 k = get o1 k).
  { intros k Ha Hb. subst o2.
    destruct (_ || _); [|reflexivity].
    rewrite !get_set_other by (discriminate || congruence). reflexivity. }
  clearbody o2.
  assert (Happ : isAppLogin o2
                 = isPropertySet (get serverUrl "clientid")
                   && isPropertySet (get serverUrl "clientsecret")).
  { unfold isAppLogin. rewrite !H2, !H1 by discriminate. unfold isPropertySet.
    destruct (get serverUrl "clientid") as [a|]; [|reflexivity].
    destruct (get serverUrl "clientsecret") as [b|]; [reflexivity|].
    now rewrite andb_false_r. }
  cbn [c_isUserLogin c_isAppLogin c_mayRequireToken].
  rewrite Huser, Happ, H2, H1 by discriminate.
  repeat split.
Qed.

End CredentialFlags.
